(** * Lucie: streaming response renderer (Slack and terminal hosts)

    A shallow embedding of the streaming pipeline of the repository:

    - [src/mastra/slack/utils.ts]      ([formatName], [sleep])
    - [src/mastra/slack/constants.ts]  ([SPINNER], [TOOL_ICONS], [WORKFLOW_ICONS], delays)
    - [src/mastra/slack/status.ts]     ([formatChunkType], [getStatusText])
    - [src/mastra/slack/chunks.ts]     ([handleNestedChunkEvents])
    - [src/mastra/slack/streaming.ts]  ([streamToSlack], [retrySlackUpdate])
    - [src/mastra/terminal/streaming.ts] ([streamToTerminal])
    - [src/mastra/slack/verify.ts]     ([verifySlackRequest])

    Strings are Rocq byte strings holding the UTF-8 encoding of the source
    strings.  Mutable closure variables become fields of an explicit session
    record that is threaded through a small state / trace / exception monad;
    the Slack client, the agent and the timer are an explicit environment. *)

From Stdlib Require Import String Ascii List Bool Arith ZArith Lia.
Import ListNotations.
Local Open Scope list_scope.
Local Open Scope string_scope.
Set Warnings "-register-all".

(* ===================================================================== *)
(** * JavaScript values and operators used by the source                  *)
(* ===================================================================== *)

Module Js.

(** The dynamic values that occur in chunk payloads. *)
Inductive jsval : Type :=
| JUndefined
| JNull
| JBool (b : bool)
| JNum (n : Z)
| JStr (s : string)
| JArr (items : list jsval)
| JObj (fields : list (string * jsval)).

(** What a session can throw: an [Error] instance (with its [message]) or
    any other thrown value (with its [String(...)] rendering). *)
Inductive js_error : Type :=
| ErrorObj (message : string)
| Thrown (rendering : string).

(** Completion of a call: normal return or exception. *)
Inductive outcome (A : Type) : Type :=
| Normal (a : A)
| Throws (e : js_error).
Arguments Normal {A} a.
Arguments Throws {A} e.

(** [s === ''] on strings. *)
Definition is_empty (s : string) : bool :=
  match s with EmptyString => true | String _ _ => false end.

(** ToBoolean. *)
Definition truthy (v : jsval) : bool :=
  match v with
  | JUndefined | JNull => false
  | JBool b => b
  | JNum n => negb (Z.eqb n 0)
  | JStr s => negb (is_empty s)
  | JArr _ | JObj _ => true
  end.

(** [a || b]. *)
Definition or_else (a b : jsval) : jsval := if truthy a then a else b.

(** [a ?? b]. *)
Definition nullish (a b : jsval) : jsval :=
  match a with JUndefined | JNull => b | _ => a end.

Fixpoint assoc (k : string) (fields : list (string * jsval)) : option jsval :=
  match fields with
  | [] => None
  | (k', v) :: rest => if String.eqb k k' then Some v else assoc k rest
  end.

(** [k in v] for an object [v]. *)
Definition has (k : string) (v : jsval) : bool :=
  match v with
  | JObj fields => match assoc k fields with Some _ => true | None => false end
  | _ => false
  end.

(** [v.k] where [v] is neither [undefined] nor [null]: own data properties
    of objects; the property names read by the source ([type], [payload],
    [text], [id], ...) are [undefined] on primitives and arrays. *)
Definition get (k : string) (v : jsval) : jsval :=
  match v with
  | JObj fields => match assoc k fields with Some x => x | None => JUndefined end
  | _ => JUndefined
  end.

(** [v?.k]. *)
Definition opt_get (k : string) (v : jsval) : jsval := get k v.

(** [v.k] with the [TypeError] of reading a property of [undefined]/[null]. *)
Definition prop (k : string) (v : jsval) : outcome jsval :=
  match v with
  | JUndefined => Throws (ErrorObj ("Cannot read properties of undefined (reading '" ++ k ++ "')"))
  | JNull => Throws (ErrorObj ("Cannot read properties of null (reading '" ++ k ++ "')"))
  | _ => Normal (get k v)
  end.

(** [typeof v === 'object']. *)
Definition typeof_object (v : jsval) : bool :=
  match v with JNull | JArr _ | JObj _ => true | _ => false end.

(** A field read at its declared TypeScript type [string]: the string it
    holds, [None] for [undefined].  The declared chunk types exclude any
    other value there; such a value reads as [undefined]. *)
Definition as_string (v : jsval) : option string :=
  match v with JStr s => Some s | _ => None end.

(** [v === lit] for a string literal [lit]. *)
Definition is_string (lit : string) (v : jsval) : bool :=
  match v with JStr s => String.eqb s lit | _ => false end.

(** [s.startsWith(p)]. *)
Fixpoint startsWith (p s : string) : bool :=
  match p, s with
  | EmptyString, _ => true
  | String a p', String b s' => Ascii.eqb a b && startsWith p' s'
  | String _ _, EmptyString => false
  end.

(** [s.includes(p)]. *)
Fixpoint includes (p s : string) : bool :=
  startsWith p s ||
  match s with
  | EmptyString => false
  | String _ s' => includes p s'
  end.

(** [s.split(c)] for a one-character separator: never the empty list. *)
Fixpoint split_on (sep : ascii -> bool) (s : string) : list string :=
  match s with
  | EmptyString => [EmptyString]
  | String a s' =>
      if sep a then EmptyString :: split_on sep s'
      else match split_on sep s' with
           | [] => [String a EmptyString]
           | w :: ws => String a w :: ws
           end
  end.

(** [words.join(' ')]. *)
Definition join_space (words : list string) : string := String.concat " " words.

Definition is_lower (a : ascii) : bool :=
  let n := nat_of_ascii a in (97 <=? n)%nat && (n <=? 122)%nat.
Definition is_upper (a : ascii) : bool :=
  let n := nat_of_ascii a in (65 <=? n)%nat && (n <=? 90)%nat.

(** [toUpperCase] on a character of ASCII. *)
Definition upper (a : ascii) : ascii :=
  if is_lower a then ascii_of_nat (nat_of_ascii a - 32) else a.

(** What [toUpperCase] makes of the characters outside ASCII that one
    UTF-16 code unit holds (U+0080 to U+FFFF), as UTF-8 strings: the
    characters that it changes, each with its image under the full case
    mapping of the Unicode Character Database 14.0 ([UnicodeData.txt] and
    the unconditional entries of [SpecialCasing.txt]), in the order of the
    code points.  An image can be longer than one character. *)
Definition upper_case_table : list (string * string) :=
  [
    ("µ", "Μ"); ("ß", "SS"); ("à", "À"); ("á", "Á"); ("â", "Â"); ("ã", "Ã");
    ("ä", "Ä"); ("å", "Å"); ("æ", "Æ"); ("ç", "Ç"); ("è", "È"); ("é", "É");
    ("ê", "Ê"); ("ë", "Ë"); ("ì", "Ì"); ("í", "Í"); ("î", "Î"); ("ï", "Ï");
    ("ð", "Ð"); ("ñ", "Ñ"); ("ò", "Ò"); ("ó", "Ó"); ("ô", "Ô"); ("õ", "Õ");
    ("ö", "Ö"); ("ø", "Ø"); ("ù", "Ù"); ("ú", "Ú"); ("û", "Û"); ("ü", "Ü");
    ("ý", "Ý"); ("þ", "Þ"); ("ÿ", "Ÿ"); ("ā", "Ā"); ("ă", "Ă"); ("ą", "Ą");
    ("ć", "Ć"); ("ĉ", "Ĉ"); ("ċ", "Ċ"); ("č", "Č"); ("ď", "Ď"); ("đ", "Đ");
    ("ē", "Ē"); ("ĕ", "Ĕ"); ("ė", "Ė"); ("ę", "Ę"); ("ě", "Ě"); ("ĝ", "Ĝ");
    ("ğ", "Ğ"); ("ġ", "Ġ"); ("ģ", "Ģ"); ("ĥ", "Ĥ"); ("ħ", "Ħ"); ("ĩ", "Ĩ");
    ("ī", "Ī"); ("ĭ", "Ĭ"); ("į", "Į"); ("ı", "I"); ("ĳ", "Ĳ"); ("ĵ", "Ĵ");
    ("ķ", "Ķ"); ("ĺ", "Ĺ"); ("ļ", "Ļ"); ("ľ", "Ľ"); ("ŀ", "Ŀ"); ("ł", "Ł");
    ("ń", "Ń"); ("ņ", "Ņ"); ("ň", "Ň"); ("ŉ", "ʼN"); ("ŋ", "Ŋ"); ("ō", "Ō");
    ("ŏ", "Ŏ"); ("ő", "Ő"); ("œ", "Œ"); ("ŕ", "Ŕ"); ("ŗ", "Ŗ"); ("ř", "Ř");
    ("ś", "Ś"); ("ŝ", "Ŝ"); ("ş", "Ş"); ("š", "Š"); ("ţ", "Ţ"); ("ť", "Ť");
    ("ŧ", "Ŧ"); ("ũ", "Ũ"); ("ū", "Ū"); ("ŭ", "Ŭ"); ("ů", "Ů"); ("ű", "Ű");
    ("ų", "Ų"); ("ŵ", "Ŵ"); ("ŷ", "Ŷ"); ("ź", "Ź"); ("ż", "Ż"); ("ž", "Ž");
    ("ſ", "S"); ("ƀ", "Ƀ"); ("ƃ", "Ƃ"); ("ƅ", "Ƅ"); ("ƈ", "Ƈ"); ("ƌ", "Ƌ");
    ("ƒ", "Ƒ"); ("ƕ", "Ƕ"); ("ƙ", "Ƙ"); ("ƚ", "Ƚ"); ("ƞ", "Ƞ"); ("ơ", "Ơ");
    ("ƣ", "Ƣ"); ("ƥ", "Ƥ"); ("ƨ", "Ƨ"); ("ƭ", "Ƭ"); ("ư", "Ư"); ("ƴ", "Ƴ");
    ("ƶ", "Ƶ"); ("ƹ", "Ƹ"); ("ƽ", "Ƽ"); ("ƿ", "Ƿ"); ("ǅ", "Ǆ"); ("ǆ", "Ǆ");
    ("ǈ", "Ǉ"); ("ǉ", "Ǉ"); ("ǋ", "Ǌ"); ("ǌ", "Ǌ"); ("ǎ", "Ǎ"); ("ǐ", "Ǐ");
    ("ǒ", "Ǒ"); ("ǔ", "Ǔ"); ("ǖ", "Ǖ"); ("ǘ", "Ǘ"); ("ǚ", "Ǚ"); ("ǜ", "Ǜ");
    ("ǝ", "Ǝ"); ("ǟ", "Ǟ"); ("ǡ", "Ǡ"); ("ǣ", "Ǣ"); ("ǥ", "Ǥ"); ("ǧ", "Ǧ");
    ("ǩ", "Ǩ"); ("ǫ", "Ǫ"); ("ǭ", "Ǭ"); ("ǯ", "Ǯ"); ("ǰ", "J̌"); ("ǲ", "Ǳ");
    ("ǳ", "Ǳ"); ("ǵ", "Ǵ"); ("ǹ", "Ǹ"); ("ǻ", "Ǻ"); ("ǽ", "Ǽ"); ("ǿ", "Ǿ");
    ("ȁ", "Ȁ"); ("ȃ", "Ȃ"); ("ȅ", "Ȅ"); ("ȇ", "Ȇ"); ("ȉ", "Ȉ"); ("ȋ", "Ȋ");
    ("ȍ", "Ȍ"); ("ȏ", "Ȏ"); ("ȑ", "Ȑ"); ("ȓ", "Ȓ"); ("ȕ", "Ȕ"); ("ȗ", "Ȗ");
    ("ș", "Ș"); ("ț", "Ț"); ("ȝ", "Ȝ"); ("ȟ", "Ȟ"); ("ȣ", "Ȣ"); ("ȥ", "Ȥ");
    ("ȧ", "Ȧ"); ("ȩ", "Ȩ"); ("ȫ", "Ȫ"); ("ȭ", "Ȭ"); ("ȯ", "Ȯ"); ("ȱ", "Ȱ");
    ("ȳ", "Ȳ"); ("ȼ", "Ȼ"); ("ȿ", "Ȿ"); ("ɀ", "Ɀ"); ("ɂ", "Ɂ"); ("ɇ", "Ɇ");
    ("ɉ", "Ɉ"); ("ɋ", "Ɋ"); ("ɍ", "Ɍ"); ("ɏ", "Ɏ"); ("ɐ", "Ɐ"); ("ɑ", "Ɑ");
    ("ɒ", "Ɒ"); ("ɓ", "Ɓ"); ("ɔ", "Ɔ"); ("ɖ", "Ɖ"); ("ɗ", "Ɗ"); ("ə", "Ə");
    ("ɛ", "Ɛ"); ("ɜ", "Ɜ"); ("ɠ", "Ɠ"); ("ɡ", "Ɡ"); ("ɣ", "Ɣ"); ("ɥ", "Ɥ");
    ("ɦ", "Ɦ"); ("ɨ", "Ɨ"); ("ɩ", "Ɩ"); ("ɪ", "Ɪ"); ("ɫ", "Ɫ"); ("ɬ", "Ɬ");
    ("ɯ", "Ɯ"); ("ɱ", "Ɱ"); ("ɲ", "Ɲ"); ("ɵ", "Ɵ"); ("ɽ", "Ɽ"); ("ʀ", "Ʀ");
    ("ʂ", "Ʂ"); ("ʃ", "Ʃ"); ("ʇ", "Ʇ"); ("ʈ", "Ʈ"); ("ʉ", "Ʉ"); ("ʊ", "Ʊ");
    ("ʋ", "Ʋ"); ("ʌ", "Ʌ"); ("ʒ", "Ʒ"); ("ʝ", "Ʝ"); ("ʞ", "Ʞ"); ("ͅ", "Ι");
    ("ͱ", "Ͱ"); ("ͳ", "Ͳ"); ("ͷ", "Ͷ"); ("ͻ", "Ͻ"); ("ͼ", "Ͼ"); ("ͽ", "Ͽ");
    ("ΐ", "Ϊ́"); ("ά", "Ά"); ("έ", "Έ"); ("ή", "Ή"); ("ί", "Ί"); ("ΰ", "Ϋ́");
    ("α", "Α"); ("β", "Β"); ("γ", "Γ"); ("δ", "Δ"); ("ε", "Ε"); ("ζ", "Ζ");
    ("η", "Η"); ("θ", "Θ"); ("ι", "Ι"); ("κ", "Κ"); ("λ", "Λ"); ("μ", "Μ");
    ("ν", "Ν"); ("ξ", "Ξ"); ("ο", "Ο"); ("π", "Π"); ("ρ", "Ρ"); ("ς", "Σ");
    ("σ", "Σ"); ("τ", "Τ"); ("υ", "Υ"); ("φ", "Φ"); ("χ", "Χ"); ("ψ", "Ψ");
    ("ω", "Ω"); ("ϊ", "Ϊ"); ("ϋ", "Ϋ"); ("ό", "Ό"); ("ύ", "Ύ"); ("ώ", "Ώ");
    ("ϐ", "Β"); ("ϑ", "Θ"); ("ϕ", "Φ"); ("ϖ", "Π"); ("ϗ", "Ϗ"); ("ϙ", "Ϙ");
    ("ϛ", "Ϛ"); ("ϝ", "Ϝ"); ("ϟ", "Ϟ"); ("ϡ", "Ϡ"); ("ϣ", "Ϣ"); ("ϥ", "Ϥ");
    ("ϧ", "Ϧ"); ("ϩ", "Ϩ"); ("ϫ", "Ϫ"); ("ϭ", "Ϭ"); ("ϯ", "Ϯ"); ("ϰ", "Κ");
    ("ϱ", "Ρ"); ("ϲ", "Ϲ"); ("ϳ", "Ϳ"); ("ϵ", "Ε"); ("ϸ", "Ϸ"); ("ϻ", "Ϻ");
    ("а", "А"); ("б", "Б"); ("в", "В"); ("г", "Г"); ("д", "Д"); ("е", "Е");
    ("ж", "Ж"); ("з", "З"); ("и", "И"); ("й", "Й"); ("к", "К"); ("л", "Л");
    ("м", "М"); ("н", "Н"); ("о", "О"); ("п", "П"); ("р", "Р"); ("с", "С");
    ("т", "Т"); ("у", "У"); ("ф", "Ф"); ("х", "Х"); ("ц", "Ц"); ("ч", "Ч");
    ("ш", "Ш"); ("щ", "Щ"); ("ъ", "Ъ"); ("ы", "Ы"); ("ь", "Ь"); ("э", "Э");
    ("ю", "Ю"); ("я", "Я"); ("ѐ", "Ѐ"); ("ё", "Ё"); ("ђ", "Ђ"); ("ѓ", "Ѓ");
    ("є", "Є"); ("ѕ", "Ѕ"); ("і", "І"); ("ї", "Ї"); ("ј", "Ј"); ("љ", "Љ");
    ("њ", "Њ"); ("ћ", "Ћ"); ("ќ", "Ќ"); ("ѝ", "Ѝ"); ("ў", "Ў"); ("џ", "Џ");
    ("ѡ", "Ѡ"); ("ѣ", "Ѣ"); ("ѥ", "Ѥ"); ("ѧ", "Ѧ"); ("ѩ", "Ѩ"); ("ѫ", "Ѫ");
    ("ѭ", "Ѭ"); ("ѯ", "Ѯ"); ("ѱ", "Ѱ"); ("ѳ", "Ѳ"); ("ѵ", "Ѵ"); ("ѷ", "Ѷ");
    ("ѹ", "Ѹ"); ("ѻ", "Ѻ"); ("ѽ", "Ѽ"); ("ѿ", "Ѿ"); ("ҁ", "Ҁ"); ("ҋ", "Ҋ");
    ("ҍ", "Ҍ"); ("ҏ", "Ҏ"); ("ґ", "Ґ"); ("ғ", "Ғ"); ("ҕ", "Ҕ"); ("җ", "Җ");
    ("ҙ", "Ҙ"); ("қ", "Қ"); ("ҝ", "Ҝ"); ("ҟ", "Ҟ"); ("ҡ", "Ҡ"); ("ң", "Ң");
    ("ҥ", "Ҥ"); ("ҧ", "Ҧ"); ("ҩ", "Ҩ"); ("ҫ", "Ҫ"); ("ҭ", "Ҭ"); ("ү", "Ү");
    ("ұ", "Ұ"); ("ҳ", "Ҳ"); ("ҵ", "Ҵ"); ("ҷ", "Ҷ"); ("ҹ", "Ҹ"); ("һ", "Һ");
    ("ҽ", "Ҽ"); ("ҿ", "Ҿ"); ("ӂ", "Ӂ"); ("ӄ", "Ӄ"); ("ӆ", "Ӆ"); ("ӈ", "Ӈ");
    ("ӊ", "Ӊ"); ("ӌ", "Ӌ"); ("ӎ", "Ӎ"); ("ӏ", "Ӏ"); ("ӑ", "Ӑ"); ("ӓ", "Ӓ");
    ("ӕ", "Ӕ"); ("ӗ", "Ӗ"); ("ә", "Ә"); ("ӛ", "Ӛ"); ("ӝ", "Ӝ"); ("ӟ", "Ӟ");
    ("ӡ", "Ӡ"); ("ӣ", "Ӣ"); ("ӥ", "Ӥ"); ("ӧ", "Ӧ"); ("ө", "Ө"); ("ӫ", "Ӫ");
    ("ӭ", "Ӭ"); ("ӯ", "Ӯ"); ("ӱ", "Ӱ"); ("ӳ", "Ӳ"); ("ӵ", "Ӵ"); ("ӷ", "Ӷ");
    ("ӹ", "Ӹ"); ("ӻ", "Ӻ"); ("ӽ", "Ӽ"); ("ӿ", "Ӿ"); ("ԁ", "Ԁ"); ("ԃ", "Ԃ");
    ("ԅ", "Ԅ"); ("ԇ", "Ԇ"); ("ԉ", "Ԉ"); ("ԋ", "Ԋ"); ("ԍ", "Ԍ"); ("ԏ", "Ԏ");
    ("ԑ", "Ԑ"); ("ԓ", "Ԓ"); ("ԕ", "Ԕ"); ("ԗ", "Ԗ"); ("ԙ", "Ԙ"); ("ԛ", "Ԛ");
    ("ԝ", "Ԝ"); ("ԟ", "Ԟ"); ("ԡ", "Ԡ"); ("ԣ", "Ԣ"); ("ԥ", "Ԥ"); ("ԧ", "Ԧ");
    ("ԩ", "Ԩ"); ("ԫ", "Ԫ"); ("ԭ", "Ԭ"); ("ԯ", "Ԯ"); ("ա", "Ա"); ("բ", "Բ");
    ("գ", "Գ"); ("դ", "Դ"); ("ե", "Ե"); ("զ", "Զ"); ("է", "Է"); ("ը", "Ը");
    ("թ", "Թ"); ("ժ", "Ժ"); ("ի", "Ի"); ("լ", "Լ"); ("խ", "Խ"); ("ծ", "Ծ");
    ("կ", "Կ"); ("հ", "Հ"); ("ձ", "Ձ"); ("ղ", "Ղ"); ("ճ", "Ճ"); ("մ", "Մ");
    ("յ", "Յ"); ("ն", "Ն"); ("շ", "Շ"); ("ո", "Ո"); ("չ", "Չ"); ("պ", "Պ");
    ("ջ", "Ջ"); ("ռ", "Ռ"); ("ս", "Ս"); ("վ", "Վ"); ("տ", "Տ"); ("ր", "Ր");
    ("ց", "Ց"); ("ւ", "Ւ"); ("փ", "Փ"); ("ք", "Ք"); ("օ", "Օ"); ("ֆ", "Ֆ");
    ("և", "ԵՒ"); ("ა", "Ა"); ("ბ", "Ბ"); ("გ", "Გ"); ("დ", "Დ"); ("ე", "Ე");
    ("ვ", "Ვ"); ("ზ", "Ზ"); ("თ", "Თ"); ("ი", "Ი"); ("კ", "Კ"); ("ლ", "Ლ");
    ("მ", "Მ"); ("ნ", "Ნ"); ("ო", "Ო"); ("პ", "Პ"); ("ჟ", "Ჟ"); ("რ", "Რ");
    ("ს", "Ს"); ("ტ", "Ტ"); ("უ", "Უ"); ("ფ", "Ფ"); ("ქ", "Ქ"); ("ღ", "Ღ");
    ("ყ", "Ყ"); ("შ", "Შ"); ("ჩ", "Ჩ"); ("ც", "Ც"); ("ძ", "Ძ"); ("წ", "Წ");
    ("ჭ", "Ჭ"); ("ხ", "Ხ"); ("ჯ", "Ჯ"); ("ჰ", "Ჰ"); ("ჱ", "Ჱ"); ("ჲ", "Ჲ");
    ("ჳ", "Ჳ"); ("ჴ", "Ჴ"); ("ჵ", "Ჵ"); ("ჶ", "Ჶ"); ("ჷ", "Ჷ"); ("ჸ", "Ჸ");
    ("ჹ", "Ჹ"); ("ჺ", "Ჺ"); ("ჽ", "Ჽ"); ("ჾ", "Ჾ"); ("ჿ", "Ჿ"); ("ᏸ", "Ᏸ");
    ("ᏹ", "Ᏹ"); ("ᏺ", "Ᏺ"); ("ᏻ", "Ᏻ"); ("ᏼ", "Ᏼ"); ("ᏽ", "Ᏽ"); ("ᲀ", "В");
    ("ᲁ", "Д"); ("ᲂ", "О"); ("ᲃ", "С"); ("ᲄ", "Т"); ("ᲅ", "Т"); ("ᲆ", "Ъ");
    ("ᲇ", "Ѣ"); ("ᲈ", "Ꙋ"); ("ᵹ", "Ᵹ"); ("ᵽ", "Ᵽ"); ("ᶎ", "Ᶎ"); ("ḁ", "Ḁ");
    ("ḃ", "Ḃ"); ("ḅ", "Ḅ"); ("ḇ", "Ḇ"); ("ḉ", "Ḉ"); ("ḋ", "Ḋ"); ("ḍ", "Ḍ");
    ("ḏ", "Ḏ"); ("ḑ", "Ḑ"); ("ḓ", "Ḓ"); ("ḕ", "Ḕ"); ("ḗ", "Ḗ"); ("ḙ", "Ḙ");
    ("ḛ", "Ḛ"); ("ḝ", "Ḝ"); ("ḟ", "Ḟ"); ("ḡ", "Ḡ"); ("ḣ", "Ḣ"); ("ḥ", "Ḥ");
    ("ḧ", "Ḧ"); ("ḩ", "Ḩ"); ("ḫ", "Ḫ"); ("ḭ", "Ḭ"); ("ḯ", "Ḯ"); ("ḱ", "Ḱ");
    ("ḳ", "Ḳ"); ("ḵ", "Ḵ"); ("ḷ", "Ḷ"); ("ḹ", "Ḹ"); ("ḻ", "Ḻ"); ("ḽ", "Ḽ");
    ("ḿ", "Ḿ"); ("ṁ", "Ṁ"); ("ṃ", "Ṃ"); ("ṅ", "Ṅ"); ("ṇ", "Ṇ"); ("ṉ", "Ṉ");
    ("ṋ", "Ṋ"); ("ṍ", "Ṍ"); ("ṏ", "Ṏ"); ("ṑ", "Ṑ"); ("ṓ", "Ṓ"); ("ṕ", "Ṕ");
    ("ṗ", "Ṗ"); ("ṙ", "Ṙ"); ("ṛ", "Ṛ"); ("ṝ", "Ṝ"); ("ṟ", "Ṟ"); ("ṡ", "Ṡ");
    ("ṣ", "Ṣ"); ("ṥ", "Ṥ"); ("ṧ", "Ṧ"); ("ṩ", "Ṩ"); ("ṫ", "Ṫ"); ("ṭ", "Ṭ");
    ("ṯ", "Ṯ"); ("ṱ", "Ṱ"); ("ṳ", "Ṳ"); ("ṵ", "Ṵ"); ("ṷ", "Ṷ"); ("ṹ", "Ṹ");
    ("ṻ", "Ṻ"); ("ṽ", "Ṽ"); ("ṿ", "Ṿ"); ("ẁ", "Ẁ"); ("ẃ", "Ẃ"); ("ẅ", "Ẅ");
    ("ẇ", "Ẇ"); ("ẉ", "Ẉ"); ("ẋ", "Ẋ"); ("ẍ", "Ẍ"); ("ẏ", "Ẏ"); ("ẑ", "Ẑ");
    ("ẓ", "Ẓ"); ("ẕ", "Ẕ"); ("ẖ", "H̱"); ("ẗ", "T̈"); ("ẘ", "W̊"); ("ẙ", "Y̊");
    ("ẚ", "Aʾ"); ("ẛ", "Ṡ"); ("ạ", "Ạ"); ("ả", "Ả"); ("ấ", "Ấ"); ("ầ", "Ầ");
    ("ẩ", "Ẩ"); ("ẫ", "Ẫ"); ("ậ", "Ậ"); ("ắ", "Ắ"); ("ằ", "Ằ"); ("ẳ", "Ẳ");
    ("ẵ", "Ẵ"); ("ặ", "Ặ"); ("ẹ", "Ẹ"); ("ẻ", "Ẻ"); ("ẽ", "Ẽ"); ("ế", "Ế");
    ("ề", "Ề"); ("ể", "Ể"); ("ễ", "Ễ"); ("ệ", "Ệ"); ("ỉ", "Ỉ"); ("ị", "Ị");
    ("ọ", "Ọ"); ("ỏ", "Ỏ"); ("ố", "Ố"); ("ồ", "Ồ"); ("ổ", "Ổ"); ("ỗ", "Ỗ");
    ("ộ", "Ộ"); ("ớ", "Ớ"); ("ờ", "Ờ"); ("ở", "Ở"); ("ỡ", "Ỡ"); ("ợ", "Ợ");
    ("ụ", "Ụ"); ("ủ", "Ủ"); ("ứ", "Ứ"); ("ừ", "Ừ"); ("ử", "Ử"); ("ữ", "Ữ");
    ("ự", "Ự"); ("ỳ", "Ỳ"); ("ỵ", "Ỵ"); ("ỷ", "Ỷ"); ("ỹ", "Ỹ"); ("ỻ", "Ỻ");
    ("ỽ", "Ỽ"); ("ỿ", "Ỿ"); ("ἀ", "Ἀ"); ("ἁ", "Ἁ"); ("ἂ", "Ἂ"); ("ἃ", "Ἃ");
    ("ἄ", "Ἄ"); ("ἅ", "Ἅ"); ("ἆ", "Ἆ"); ("ἇ", "Ἇ"); ("ἐ", "Ἐ"); ("ἑ", "Ἑ");
    ("ἒ", "Ἒ"); ("ἓ", "Ἓ"); ("ἔ", "Ἔ"); ("ἕ", "Ἕ"); ("ἠ", "Ἠ"); ("ἡ", "Ἡ");
    ("ἢ", "Ἢ"); ("ἣ", "Ἣ"); ("ἤ", "Ἤ"); ("ἥ", "Ἥ"); ("ἦ", "Ἦ"); ("ἧ", "Ἧ");
    ("ἰ", "Ἰ"); ("ἱ", "Ἱ"); ("ἲ", "Ἲ"); ("ἳ", "Ἳ"); ("ἴ", "Ἴ"); ("ἵ", "Ἵ");
    ("ἶ", "Ἶ"); ("ἷ", "Ἷ"); ("ὀ", "Ὀ"); ("ὁ", "Ὁ"); ("ὂ", "Ὂ"); ("ὃ", "Ὃ");
    ("ὄ", "Ὄ"); ("ὅ", "Ὅ"); ("ὐ", "Υ̓"); ("ὑ", "Ὑ"); ("ὒ", "Υ̓̀"); ("ὓ", "Ὓ");
    ("ὔ", "Υ̓́"); ("ὕ", "Ὕ"); ("ὖ", "Υ̓͂"); ("ὗ", "Ὗ"); ("ὠ", "Ὠ"); ("ὡ", "Ὡ");
    ("ὢ", "Ὢ"); ("ὣ", "Ὣ"); ("ὤ", "Ὤ"); ("ὥ", "Ὥ"); ("ὦ", "Ὦ"); ("ὧ", "Ὧ");
    ("ὰ", "Ὰ"); ("ά", "Ά"); ("ὲ", "Ὲ"); ("έ", "Έ"); ("ὴ", "Ὴ"); ("ή", "Ή");
    ("ὶ", "Ὶ"); ("ί", "Ί"); ("ὸ", "Ὸ"); ("ό", "Ό"); ("ὺ", "Ὺ"); ("ύ", "Ύ");
    ("ὼ", "Ὼ"); ("ώ", "Ώ"); ("ᾀ", "ἈΙ"); ("ᾁ", "ἉΙ"); ("ᾂ", "ἊΙ"); ("ᾃ", "ἋΙ");
    ("ᾄ", "ἌΙ"); ("ᾅ", "ἍΙ"); ("ᾆ", "ἎΙ"); ("ᾇ", "ἏΙ"); ("ᾈ", "ἈΙ"); ("ᾉ", "ἉΙ");
    ("ᾊ", "ἊΙ"); ("ᾋ", "ἋΙ"); ("ᾌ", "ἌΙ"); ("ᾍ", "ἍΙ"); ("ᾎ", "ἎΙ"); ("ᾏ", "ἏΙ");
    ("ᾐ", "ἨΙ"); ("ᾑ", "ἩΙ"); ("ᾒ", "ἪΙ"); ("ᾓ", "ἫΙ"); ("ᾔ", "ἬΙ"); ("ᾕ", "ἭΙ");
    ("ᾖ", "ἮΙ"); ("ᾗ", "ἯΙ"); ("ᾘ", "ἨΙ"); ("ᾙ", "ἩΙ"); ("ᾚ", "ἪΙ"); ("ᾛ", "ἫΙ");
    ("ᾜ", "ἬΙ"); ("ᾝ", "ἭΙ"); ("ᾞ", "ἮΙ"); ("ᾟ", "ἯΙ"); ("ᾠ", "ὨΙ"); ("ᾡ", "ὩΙ");
    ("ᾢ", "ὪΙ"); ("ᾣ", "ὫΙ"); ("ᾤ", "ὬΙ"); ("ᾥ", "ὭΙ"); ("ᾦ", "ὮΙ"); ("ᾧ", "ὯΙ");
    ("ᾨ", "ὨΙ"); ("ᾩ", "ὩΙ"); ("ᾪ", "ὪΙ"); ("ᾫ", "ὫΙ"); ("ᾬ", "ὬΙ"); ("ᾭ", "ὭΙ");
    ("ᾮ", "ὮΙ"); ("ᾯ", "ὯΙ"); ("ᾰ", "Ᾰ"); ("ᾱ", "Ᾱ"); ("ᾲ", "ᾺΙ"); ("ᾳ", "ΑΙ");
    ("ᾴ", "ΆΙ"); ("ᾶ", "Α͂"); ("ᾷ", "Α͂Ι"); ("ᾼ", "ΑΙ"); ("ι", "Ι"); ("ῂ", "ῊΙ");
    ("ῃ", "ΗΙ"); ("ῄ", "ΉΙ"); ("ῆ", "Η͂"); ("ῇ", "Η͂Ι"); ("ῌ", "ΗΙ"); ("ῐ", "Ῐ");
    ("ῑ", "Ῑ"); ("ῒ", "Ϊ̀"); ("ΐ", "Ϊ́"); ("ῖ", "Ι͂"); ("ῗ", "Ϊ͂"); ("ῠ", "Ῠ");
    ("ῡ", "Ῡ"); ("ῢ", "Ϋ̀"); ("ΰ", "Ϋ́"); ("ῤ", "Ρ̓"); ("ῥ", "Ῥ"); ("ῦ", "Υ͂");
    ("ῧ", "Ϋ͂"); ("ῲ", "ῺΙ"); ("ῳ", "ΩΙ"); ("ῴ", "ΏΙ"); ("ῶ", "Ω͂"); ("ῷ", "Ω͂Ι");
    ("ῼ", "ΩΙ"); ("ⅎ", "Ⅎ"); ("ⅰ", "Ⅰ"); ("ⅱ", "Ⅱ"); ("ⅲ", "Ⅲ"); ("ⅳ", "Ⅳ");
    ("ⅴ", "Ⅴ"); ("ⅵ", "Ⅵ"); ("ⅶ", "Ⅶ"); ("ⅷ", "Ⅷ"); ("ⅸ", "Ⅸ"); ("ⅹ", "Ⅹ");
    ("ⅺ", "Ⅺ"); ("ⅻ", "Ⅻ"); ("ⅼ", "Ⅼ"); ("ⅽ", "Ⅽ"); ("ⅾ", "Ⅾ"); ("ⅿ", "Ⅿ");
    ("ↄ", "Ↄ"); ("ⓐ", "Ⓐ"); ("ⓑ", "Ⓑ"); ("ⓒ", "Ⓒ"); ("ⓓ", "Ⓓ"); ("ⓔ", "Ⓔ");
    ("ⓕ", "Ⓕ"); ("ⓖ", "Ⓖ"); ("ⓗ", "Ⓗ"); ("ⓘ", "Ⓘ"); ("ⓙ", "Ⓙ"); ("ⓚ", "Ⓚ");
    ("ⓛ", "Ⓛ"); ("ⓜ", "Ⓜ"); ("ⓝ", "Ⓝ"); ("ⓞ", "Ⓞ"); ("ⓟ", "Ⓟ"); ("ⓠ", "Ⓠ");
    ("ⓡ", "Ⓡ"); ("ⓢ", "Ⓢ"); ("ⓣ", "Ⓣ"); ("ⓤ", "Ⓤ"); ("ⓥ", "Ⓥ"); ("ⓦ", "Ⓦ");
    ("ⓧ", "Ⓧ"); ("ⓨ", "Ⓨ"); ("ⓩ", "Ⓩ"); ("ⰰ", "Ⰰ"); ("ⰱ", "Ⰱ"); ("ⰲ", "Ⰲ");
    ("ⰳ", "Ⰳ"); ("ⰴ", "Ⰴ"); ("ⰵ", "Ⰵ"); ("ⰶ", "Ⰶ"); ("ⰷ", "Ⰷ"); ("ⰸ", "Ⰸ");
    ("ⰹ", "Ⰹ"); ("ⰺ", "Ⰺ"); ("ⰻ", "Ⰻ"); ("ⰼ", "Ⰼ"); ("ⰽ", "Ⰽ"); ("ⰾ", "Ⰾ");
    ("ⰿ", "Ⰿ"); ("ⱀ", "Ⱀ"); ("ⱁ", "Ⱁ"); ("ⱂ", "Ⱂ"); ("ⱃ", "Ⱃ"); ("ⱄ", "Ⱄ");
    ("ⱅ", "Ⱅ"); ("ⱆ", "Ⱆ"); ("ⱇ", "Ⱇ"); ("ⱈ", "Ⱈ"); ("ⱉ", "Ⱉ"); ("ⱊ", "Ⱊ");
    ("ⱋ", "Ⱋ"); ("ⱌ", "Ⱌ"); ("ⱍ", "Ⱍ"); ("ⱎ", "Ⱎ"); ("ⱏ", "Ⱏ"); ("ⱐ", "Ⱐ");
    ("ⱑ", "Ⱑ"); ("ⱒ", "Ⱒ"); ("ⱓ", "Ⱓ"); ("ⱔ", "Ⱔ"); ("ⱕ", "Ⱕ"); ("ⱖ", "Ⱖ");
    ("ⱗ", "Ⱗ"); ("ⱘ", "Ⱘ"); ("ⱙ", "Ⱙ"); ("ⱚ", "Ⱚ"); ("ⱛ", "Ⱛ"); ("ⱜ", "Ⱜ");
    ("ⱝ", "Ⱝ"); ("ⱞ", "Ⱞ"); ("ⱟ", "Ⱟ"); ("ⱡ", "Ⱡ"); ("ⱥ", "Ⱥ"); ("ⱦ", "Ⱦ");
    ("ⱨ", "Ⱨ"); ("ⱪ", "Ⱪ"); ("ⱬ", "Ⱬ"); ("ⱳ", "Ⱳ"); ("ⱶ", "Ⱶ"); ("ⲁ", "Ⲁ");
    ("ⲃ", "Ⲃ"); ("ⲅ", "Ⲅ"); ("ⲇ", "Ⲇ"); ("ⲉ", "Ⲉ"); ("ⲋ", "Ⲋ"); ("ⲍ", "Ⲍ");
    ("ⲏ", "Ⲏ"); ("ⲑ", "Ⲑ"); ("ⲓ", "Ⲓ"); ("ⲕ", "Ⲕ"); ("ⲗ", "Ⲗ"); ("ⲙ", "Ⲙ");
    ("ⲛ", "Ⲛ"); ("ⲝ", "Ⲝ"); ("ⲟ", "Ⲟ"); ("ⲡ", "Ⲡ"); ("ⲣ", "Ⲣ"); ("ⲥ", "Ⲥ");
    ("ⲧ", "Ⲧ"); ("ⲩ", "Ⲩ"); ("ⲫ", "Ⲫ"); ("ⲭ", "Ⲭ"); ("ⲯ", "Ⲯ"); ("ⲱ", "Ⲱ");
    ("ⲳ", "Ⲳ"); ("ⲵ", "Ⲵ"); ("ⲷ", "Ⲷ"); ("ⲹ", "Ⲹ"); ("ⲻ", "Ⲻ"); ("ⲽ", "Ⲽ");
    ("ⲿ", "Ⲿ"); ("ⳁ", "Ⳁ"); ("ⳃ", "Ⳃ"); ("ⳅ", "Ⳅ"); ("ⳇ", "Ⳇ"); ("ⳉ", "Ⳉ");
    ("ⳋ", "Ⳋ"); ("ⳍ", "Ⳍ"); ("ⳏ", "Ⳏ"); ("ⳑ", "Ⳑ"); ("ⳓ", "Ⳓ"); ("ⳕ", "Ⳕ");
    ("ⳗ", "Ⳗ"); ("ⳙ", "Ⳙ"); ("ⳛ", "Ⳛ"); ("ⳝ", "Ⳝ"); ("ⳟ", "Ⳟ"); ("ⳡ", "Ⳡ");
    ("ⳣ", "Ⳣ"); ("ⳬ", "Ⳬ"); ("ⳮ", "Ⳮ"); ("ⳳ", "Ⳳ"); ("ⴀ", "Ⴀ"); ("ⴁ", "Ⴁ");
    ("ⴂ", "Ⴂ"); ("ⴃ", "Ⴃ"); ("ⴄ", "Ⴄ"); ("ⴅ", "Ⴅ"); ("ⴆ", "Ⴆ"); ("ⴇ", "Ⴇ");
    ("ⴈ", "Ⴈ"); ("ⴉ", "Ⴉ"); ("ⴊ", "Ⴊ"); ("ⴋ", "Ⴋ"); ("ⴌ", "Ⴌ"); ("ⴍ", "Ⴍ");
    ("ⴎ", "Ⴎ"); ("ⴏ", "Ⴏ"); ("ⴐ", "Ⴐ"); ("ⴑ", "Ⴑ"); ("ⴒ", "Ⴒ"); ("ⴓ", "Ⴓ");
    ("ⴔ", "Ⴔ"); ("ⴕ", "Ⴕ"); ("ⴖ", "Ⴖ"); ("ⴗ", "Ⴗ"); ("ⴘ", "Ⴘ"); ("ⴙ", "Ⴙ");
    ("ⴚ", "Ⴚ"); ("ⴛ", "Ⴛ"); ("ⴜ", "Ⴜ"); ("ⴝ", "Ⴝ"); ("ⴞ", "Ⴞ"); ("ⴟ", "Ⴟ");
    ("ⴠ", "Ⴠ"); ("ⴡ", "Ⴡ"); ("ⴢ", "Ⴢ"); ("ⴣ", "Ⴣ"); ("ⴤ", "Ⴤ"); ("ⴥ", "Ⴥ");
    ("ⴧ", "Ⴧ"); ("ⴭ", "Ⴭ"); ("ꙁ", "Ꙁ"); ("ꙃ", "Ꙃ"); ("ꙅ", "Ꙅ"); ("ꙇ", "Ꙇ");
    ("ꙉ", "Ꙉ"); ("ꙋ", "Ꙋ"); ("ꙍ", "Ꙍ"); ("ꙏ", "Ꙏ"); ("ꙑ", "Ꙑ"); ("ꙓ", "Ꙓ");
    ("ꙕ", "Ꙕ"); ("ꙗ", "Ꙗ"); ("ꙙ", "Ꙙ"); ("ꙛ", "Ꙛ"); ("ꙝ", "Ꙝ"); ("ꙟ", "Ꙟ");
    ("ꙡ", "Ꙡ"); ("ꙣ", "Ꙣ"); ("ꙥ", "Ꙥ"); ("ꙧ", "Ꙧ"); ("ꙩ", "Ꙩ"); ("ꙫ", "Ꙫ");
    ("ꙭ", "Ꙭ"); ("ꚁ", "Ꚁ"); ("ꚃ", "Ꚃ"); ("ꚅ", "Ꚅ"); ("ꚇ", "Ꚇ"); ("ꚉ", "Ꚉ");
    ("ꚋ", "Ꚋ"); ("ꚍ", "Ꚍ"); ("ꚏ", "Ꚏ"); ("ꚑ", "Ꚑ"); ("ꚓ", "Ꚓ"); ("ꚕ", "Ꚕ");
    ("ꚗ", "Ꚗ"); ("ꚙ", "Ꚙ"); ("ꚛ", "Ꚛ"); ("ꜣ", "Ꜣ"); ("ꜥ", "Ꜥ"); ("ꜧ", "Ꜧ");
    ("ꜩ", "Ꜩ"); ("ꜫ", "Ꜫ"); ("ꜭ", "Ꜭ"); ("ꜯ", "Ꜯ"); ("ꜳ", "Ꜳ"); ("ꜵ", "Ꜵ");
    ("ꜷ", "Ꜷ"); ("ꜹ", "Ꜹ"); ("ꜻ", "Ꜻ"); ("ꜽ", "Ꜽ"); ("ꜿ", "Ꜿ"); ("ꝁ", "Ꝁ");
    ("ꝃ", "Ꝃ"); ("ꝅ", "Ꝅ"); ("ꝇ", "Ꝇ"); ("ꝉ", "Ꝉ"); ("ꝋ", "Ꝋ"); ("ꝍ", "Ꝍ");
    ("ꝏ", "Ꝏ"); ("ꝑ", "Ꝑ"); ("ꝓ", "Ꝓ"); ("ꝕ", "Ꝕ"); ("ꝗ", "Ꝗ"); ("ꝙ", "Ꝙ");
    ("ꝛ", "Ꝛ"); ("ꝝ", "Ꝝ"); ("ꝟ", "Ꝟ"); ("ꝡ", "Ꝡ"); ("ꝣ", "Ꝣ"); ("ꝥ", "Ꝥ");
    ("ꝧ", "Ꝧ"); ("ꝩ", "Ꝩ"); ("ꝫ", "Ꝫ"); ("ꝭ", "Ꝭ"); ("ꝯ", "Ꝯ"); ("ꝺ", "Ꝺ");
    ("ꝼ", "Ꝼ"); ("ꝿ", "Ꝿ"); ("ꞁ", "Ꞁ"); ("ꞃ", "Ꞃ"); ("ꞅ", "Ꞅ"); ("ꞇ", "Ꞇ");
    ("ꞌ", "Ꞌ"); ("ꞑ", "Ꞑ"); ("ꞓ", "Ꞓ"); ("ꞔ", "Ꞔ"); ("ꞗ", "Ꞗ"); ("ꞙ", "Ꞙ");
    ("ꞛ", "Ꞛ"); ("ꞝ", "Ꞝ"); ("ꞟ", "Ꞟ"); ("ꞡ", "Ꞡ"); ("ꞣ", "Ꞣ"); ("ꞥ", "Ꞥ");
    ("ꞧ", "Ꞧ"); ("ꞩ", "Ꞩ"); ("ꞵ", "Ꞵ"); ("ꞷ", "Ꞷ"); ("ꞹ", "Ꞹ"); ("ꞻ", "Ꞻ");
    ("ꞽ", "Ꞽ"); ("ꞿ", "Ꞿ"); ("ꟁ", "Ꟁ"); ("ꟃ", "Ꟃ"); ("ꟈ", "Ꟈ"); ("ꟊ", "Ꟊ");
    ("ꟑ", "Ꟑ"); ("ꟗ", "Ꟗ"); ("ꟙ", "Ꟙ"); ("ꟶ", "Ꟶ"); ("ꭓ", "Ꭓ"); ("ꭰ", "Ꭰ");
    ("ꭱ", "Ꭱ"); ("ꭲ", "Ꭲ"); ("ꭳ", "Ꭳ"); ("ꭴ", "Ꭴ"); ("ꭵ", "Ꭵ"); ("ꭶ", "Ꭶ");
    ("ꭷ", "Ꭷ"); ("ꭸ", "Ꭸ"); ("ꭹ", "Ꭹ"); ("ꭺ", "Ꭺ"); ("ꭻ", "Ꭻ"); ("ꭼ", "Ꭼ");
    ("ꭽ", "Ꭽ"); ("ꭾ", "Ꭾ"); ("ꭿ", "Ꭿ"); ("ꮀ", "Ꮀ"); ("ꮁ", "Ꮁ"); ("ꮂ", "Ꮂ");
    ("ꮃ", "Ꮃ"); ("ꮄ", "Ꮄ"); ("ꮅ", "Ꮅ"); ("ꮆ", "Ꮆ"); ("ꮇ", "Ꮇ"); ("ꮈ", "Ꮈ");
    ("ꮉ", "Ꮉ"); ("ꮊ", "Ꮊ"); ("ꮋ", "Ꮋ"); ("ꮌ", "Ꮌ"); ("ꮍ", "Ꮍ"); ("ꮎ", "Ꮎ");
    ("ꮏ", "Ꮏ"); ("ꮐ", "Ꮐ"); ("ꮑ", "Ꮑ"); ("ꮒ", "Ꮒ"); ("ꮓ", "Ꮓ"); ("ꮔ", "Ꮔ");
    ("ꮕ", "Ꮕ"); ("ꮖ", "Ꮖ"); ("ꮗ", "Ꮗ"); ("ꮘ", "Ꮘ"); ("ꮙ", "Ꮙ"); ("ꮚ", "Ꮚ");
    ("ꮛ", "Ꮛ"); ("ꮜ", "Ꮜ"); ("ꮝ", "Ꮝ"); ("ꮞ", "Ꮞ"); ("ꮟ", "Ꮟ"); ("ꮠ", "Ꮠ");
    ("ꮡ", "Ꮡ"); ("ꮢ", "Ꮢ"); ("ꮣ", "Ꮣ"); ("ꮤ", "Ꮤ"); ("ꮥ", "Ꮥ"); ("ꮦ", "Ꮦ");
    ("ꮧ", "Ꮧ"); ("ꮨ", "Ꮨ"); ("ꮩ", "Ꮩ"); ("ꮪ", "Ꮪ"); ("ꮫ", "Ꮫ"); ("ꮬ", "Ꮬ");
    ("ꮭ", "Ꮭ"); ("ꮮ", "Ꮮ"); ("ꮯ", "Ꮯ"); ("ꮰ", "Ꮰ"); ("ꮱ", "Ꮱ"); ("ꮲ", "Ꮲ");
    ("ꮳ", "Ꮳ"); ("ꮴ", "Ꮴ"); ("ꮵ", "Ꮵ"); ("ꮶ", "Ꮶ"); ("ꮷ", "Ꮷ"); ("ꮸ", "Ꮸ");
    ("ꮹ", "Ꮹ"); ("ꮺ", "Ꮺ"); ("ꮻ", "Ꮻ"); ("ꮼ", "Ꮼ"); ("ꮽ", "Ꮽ"); ("ꮾ", "Ꮾ");
    ("ꮿ", "Ꮿ"); ("ﬀ", "FF"); ("ﬁ", "FI"); ("ﬂ", "FL"); ("ﬃ", "FFI"); ("ﬄ", "FFL");
    ("ﬅ", "ST"); ("ﬆ", "ST"); ("ﬓ", "ՄՆ"); ("ﬔ", "ՄԵ"); ("ﬕ", "ՄԻ"); ("ﬖ", "ՎՆ");
    ("ﬗ", "ՄԽ"); ("ａ", "Ａ"); ("ｂ", "Ｂ"); ("ｃ", "Ｃ"); ("ｄ", "Ｄ"); ("ｅ", "Ｅ");
    ("ｆ", "Ｆ"); ("ｇ", "Ｇ"); ("ｈ", "Ｈ"); ("ｉ", "Ｉ"); ("ｊ", "Ｊ"); ("ｋ", "Ｋ");
    ("ｌ", "Ｌ"); ("ｍ", "Ｍ"); ("ｎ", "Ｎ"); ("ｏ", "Ｏ"); ("ｐ", "Ｐ"); ("ｑ", "Ｑ");
    ("ｒ", "Ｒ"); ("ｓ", "Ｓ"); ("ｔ", "Ｔ"); ("ｕ", "Ｕ"); ("ｖ", "Ｖ"); ("ｗ", "Ｗ");
    ("ｘ", "Ｘ"); ("ｙ", "Ｙ"); ("ｚ", "Ｚ")
  ].

Fixpoint upper_case_of (c : string) (table : list (string * string)) : option string :=
  match table with
  | [] => None
  | (c', u) :: table' => if String.eqb c c' then Some u else upper_case_of c table'
  end.

(** The number of bytes of the UTF-8 sequence that the byte [a] starts;
    0 for a byte that starts none. *)
Definition sequence_length (a : ascii) : nat :=
  let n := nat_of_ascii a in
  if (n <? 128)%nat then 1
  else if (n <? 192)%nat then 0
  else if (n <? 224)%nat then 2
  else if (n <? 240)%nat then 3
  else if (n <? 248)%nat then 4
  else 0.

(** The first [n] bytes of [s] and what follows them. *)
Fixpoint split_at (n : nat) (s : string) : option (string * string) :=
  match n with
  | O => Some (EmptyString, s)
  | Datatypes.S n' =>
      match s with
      | EmptyString => None
      | String a s' =>
          match split_at n' s' with
          | Some (first, rest) => Some (String a first, rest)
          | None => None
          end
      end
  end.

(** [w.charAt(0).toUpperCase() + w.slice(1)].  [charAt(0)] is the first
    UTF-16 code unit: a character of one, two or three bytes here.  A
    character of four bytes is a surrogate pair there, whose first half
    [toUpperCase] leaves alone, as it leaves what is no character. *)
Definition capitalize (w : string) : string :=
  match w with
  | EmptyString => EmptyString
  | String a w' =>
      match sequence_length a with
      | 1 => String (upper a) w'
      | 2 | 3 =>
          match split_at (sequence_length a) w with
          | Some (first, rest) =>
              match upper_case_of first upper_case_table with
              | Some image => image ++ rest
              | None => w
              end
          | None => w
          end
      | _ => w
      end
  end.

(** UTF-8 encodings of the characters that [trim] removes and [parseInt]
    skips: white space and line terminators. *)
Definition white_space : list (list nat) :=
  [ [9]; [10]; [11]; [12]; [13]; [32];
    [194; 160];
    [225; 154; 128];
    [226; 128; 128]; [226; 128; 129]; [226; 128; 130]; [226; 128; 131];
    [226; 128; 132]; [226; 128; 133]; [226; 128; 134]; [226; 128; 135];
    [226; 128; 136]; [226; 128; 137]; [226; 128; 138];
    [226; 128; 168]; [226; 128; 169]; [226; 128; 175];
    [226; 129; 159];
    [227; 128; 128];
    [239; 187; 191] ].

Fixpoint strip_bytes (bytes : list nat) (s : string) : option string :=
  match bytes with
  | [] => Some s
  | b :: bytes' =>
      match s with
      | String a s' => if (nat_of_ascii a =? b)%nat then strip_bytes bytes' s' else None
      | EmptyString => None
      end
  end.

Fixpoint strip_any (encodings : list (list nat)) (s : string) : option string :=
  match encodings with
  | [] => None
  | enc :: rest =>
      match strip_bytes enc s with
      | Some s' => Some s'
      | None => strip_any rest s
      end
  end.

Fixpoint trim_start_fuel (fuel : nat) (s : string) : string :=
  match fuel with
  | O => s
  | Datatypes.S fuel' =>
      match strip_any white_space s with
      | Some s' => trim_start_fuel fuel' s'
      | None => s
      end
  end.

(** [s.trimStart()]. *)
Definition trim_start (s : string) : string := trim_start_fuel (String.length s) s.

(** [!s.trim()]: nothing is left once the white space is removed. *)
Definition is_blank (s : string) : bool := is_empty (trim_start s).

End Js.
Import Js.

(* ===================================================================== *)
(** * utils.ts and constants.ts                                           *)
(* ===================================================================== *)

(** [id.replace(/([a-z])([A-Z])/g, '$1 $2')]: every match consumes the two
    characters and the scan resumes after them. *)
Fixpoint camel_to_spaced (s : string) : string :=
  match s with
  | EmptyString => EmptyString
  | String a rest =>
      match rest with
      | EmptyString => String a EmptyString
      | String b rest' =>
          if is_lower a && is_upper b
          then String a (String " " (String b (camel_to_spaced rest')))
          else String a (camel_to_spaced rest)
      end
  end.

Definition is_dash_or_underscore (a : ascii) : bool :=
  Ascii.eqb a "-" || Ascii.eqb a "_".

Definition formatName (id : string) : string :=
  join_space (map capitalize (split_on is_dash_or_underscore (camel_to_spaced id))).

(** [formatName(v)] for a dynamic argument: [v.replace] is not a function
    unless [v] is a string. *)
Definition formatName_js (v : jsval) : outcome string :=
  match v with
  | JStr s => Normal (formatName s)
  | JUndefined => Throws (ErrorObj "Cannot read properties of undefined (reading 'replace')")
  | JNull => Throws (ErrorObj "Cannot read properties of null (reading 'replace')")
  | _ => Throws (ErrorObj "id.replace is not a function")
  end.

Definition SPINNER : list string :=
  ["⠋"; "⠙"; "⠹"; "⠸"; "⠼"; "⠴"; "⠦"; "⠧"; "⠇"; "⠏"].
Definition TOOL_ICONS : list string := ["🔄"; "⚙️"; "🔧"; "⚡"].
Definition WORKFLOW_ICONS : list string := ["📋"; "⚡"; "🔄"; "✨"].

Definition ANIMATION_INTERVAL : nat := 300.
Definition TOOL_DISPLAY_DELAY : nat := 300.
Definition STEP_DISPLAY_DELAY : nat := 300.

(* ===================================================================== *)
(** * types.ts: StreamState                                               *)
(* ===================================================================== *)

Record StreamState : Type := mkState {
  text : string;
  chunkType : string;
  toolName : option string;
  workflowName : option string;
  stepName : option string;
  agentName : option string
}.

(** [{ text: '', chunkType: 'start' }]. *)
Definition initialState : StreamState :=
  mkState "" "start" None None None None.

Definition set_text (t : string) (s : StreamState) : StreamState :=
  mkState t (chunkType s) (toolName s) (workflowName s) (stepName s) (agentName s).
Definition set_chunkType (t : string) (s : StreamState) : StreamState :=
  mkState (text s) t (toolName s) (workflowName s) (stepName s) (agentName s).
Definition set_toolName (n : string) (s : StreamState) : StreamState :=
  mkState (text s) (chunkType s) (Some n) (workflowName s) (stepName s) (agentName s).
Definition set_workflowName (n : string) (s : StreamState) : StreamState :=
  mkState (text s) (chunkType s) (toolName s) (Some n) (stepName s) (agentName s).
Definition set_stepName (n : string) (s : StreamState) : StreamState :=
  mkState (text s) (chunkType s) (toolName s) (workflowName s) (Some n) (agentName s).

(** Truthiness of an optional string field ([state.toolName] and the like). *)
Definition present (o : option string) : bool :=
  match o with Some s => negb (is_empty s) | None => false end.

(** [`${o}`] for an optional string field. *)
Definition shown (o : option string) : string :=
  match o with Some s => s | None => "undefined" end.

(* ===================================================================== *)
(** * status.ts                                                           *)
(* ===================================================================== *)

Definition is_dash (a : ascii) : bool := Ascii.eqb a "-".

Definition formatChunkType (type : string) : string :=
  join_space (map capitalize (split_on is_dash type)).

(** [icons[frame % icons.length]] inside a template literal. *)
Definition icon_at (icons : list string) (frame : nat) : string :=
  nth (frame mod length icons) icons "undefined".

(** [frame] is the counter of the closure: it starts at 0 and is only ever
    incremented. *)
Definition getStatusText (state : StreamState) (frame : nat) : string :=
  let spinner := icon_at SPINNER frame in
  let toolIcon := icon_at TOOL_ICONS frame in
  let workflowIcon := icon_at WORKFLOW_ICONS frame in
  let type := chunkType state in
  let label := formatChunkType type in
  if startsWith "tool-" type && present (toolName state) then
    toolIcon ++ " " ++ label ++ ": " ++ shown (toolName state) ++ "..."
  else if startsWith "workflow-" type && present (stepName state) then
    workflowIcon ++ " " ++ label ++ ": " ++ shown (stepName state) ++ "..."
  else if includes "agent" type && present (agentName state) then
    spinner ++ " " ++ label ++ ": " ++ shown (agentName state) ++ "..."
  else
    spinner ++ " " ++ label ++ "...".

(* ===================================================================== *)
(** * Chunks, observable events, and the effect monad                     *)
(* ===================================================================== *)

(** A chunk of [stream.fullStream]: its [type] tag and, for the kinds that
    carry one, its [payload] ([None] when ['payload' in chunk] is false). *)
Record chunk : Type := mkChunk {
  type : string;
  payload : option jsval
}.

(** [chunk.payload] as an expression. *)
Definition payload_value (c : chunk) : jsval :=
  match payload c with Some v => v | None => JUndefined end.

Inductive log_line : Type :=
| LogResponseSent                                   (* '✅ Response sent to Slack' *)
| LogStreamError (e : js_error)                     (* '❌ Error streaming to Slack:', error *)
| LogAttemptFailed (attempt : nat) (err : js_error) (* `❌ Final message attempt ${attempt + 1} failed:`, err *)
| LogGaveUp (maxAttempts : nat)                     (* `❌ Failed to send final message after ${maxAttempts} attempts` *)
| LogTerminalError (e : js_error).                  (* '\n❌ Error:', message of the error *)

(** Calls that leave the process, in program order.  The channel is the same
    in every call of a session and is not recorded. *)
Inductive event : Type :=
| PostMessage (thread_ts text : string) (rejected : option js_error)
| ChatUpdate (ts : option string) (text : string) (rejected : option js_error)
| Sleep (ms : nat)
| SetInterval (ms : nat)
| ClearInterval
| Console (line : log_line)
| StdoutWrite (s : string).

Definition trace : Type := list event.

(** A computation over mutable state [S]: its completion, the state it
    leaves (also when it throws) and the calls it made. *)
Definition M (S A : Type) : Type := S -> outcome A * S * trace.

Section MonadOps.
Context {S : Type}.

Definition ret {A} (a : A) : M S A := fun s => (Normal a, s, []).

Definition bind {A B} (m : M S A) (k : A -> M S B) : M S B :=
  fun s =>
    match m s with
    | (Normal a, s1, t1) => let '(o, s2, t2) := k a s1 in (o, s2, (t1 ++ t2)%list)
    | (Throws e, s1, t1) => (Throws e, s1, t1)
    end.

Definition throw {A} (e : js_error) : M S A := fun s => (Throws e, s, []).

(** A pure sub-expression that may throw. *)
Definition eval {A} (o : outcome A) : M S A := fun s => (o, s, []).

Definition emit (e : event) : M S unit := fun s => (Normal tt, s, [e]).

Definition gets {A} (f : S -> A) : M S A := fun s => (Normal (f s), s, []).

Definition modify (f : S -> S) : M S unit := fun s => (Normal tt, f s, []).

(** [try { body } catch (e) { handler e }]. *)
Definition try_catch {A} (body : M S A) (handler : js_error -> M S A) : M S A :=
  fun s =>
    match body s with
    | (Normal a, s1, t1) => (Normal a, s1, t1)
    | (Throws e, s1, t1) => let '(o, s2, t2) := handler e s1 in (o, s2, (t1 ++ t2)%list)
    end.

Fixpoint times (n : nat) (m : M S unit) : M S unit :=
  match n with
  | O => ret tt
  | Datatypes.S k => bind m (fun _ => times k m)
  end.

End MonadOps.

Notation "x <- m ;; k" := (bind m (fun x => k))
  (at level 61, m at next level, right associativity).
Notation "m ;; k" := (bind m (fun _ => k))
  (at level 61, right associativity).

Definition outcome_of {S A} (r : outcome A * S * trace) : outcome A := fst (fst r).
Definition state_of {S A} (r : outcome A * S * trace) : S := snd (fst r).
Definition trace_of {S A} (r : outcome A * S * trace) : trace := snd r.
Arguments outcome_of {S A} !r /.
Arguments state_of {S A} !r /.
Arguments trace_of {S A} !r /.

(* ===================================================================== *)
(** * chunks.ts: handleNestedChunkEvents                                  *)
(* ===================================================================== *)

(** [innerChunk && typeof innerChunk === 'object' && 'type' in innerChunk
     && innerChunk.type === kind]. *)
Definition inner_is (kind : string) (innerChunk : jsval) : bool :=
  truthy innerChunk && typeof_object innerChunk && has "type" innerChunk &&
  is_string kind (get "type" innerChunk).

Definition handleNestedChunkEvents (chunk : chunk) : M StreamState unit :=
  match payload chunk with
  | None => ret tt
  | Some innerChunk =>
      if startsWith "agent-execution-event-" (type chunk) then
        if inner_is "text-delta" innerChunk then
          let payload := get "payload" innerChunk in
          match as_string (opt_get "text" payload) with
          | Some t =>
              if is_empty t then ret tt
              else modify (fun state => set_text (text state ++ t) state) ;;
                   modify (set_chunkType "text-delta")
          | None => ret tt
          end
        else ret tt
      else if startsWith "workflow-execution-event-" (type chunk) then
        if inner_is "workflow-step-start" innerChunk then
          let payload := get "payload" innerChunk in
          modify (set_chunkType "workflow-step-start") ;;
          name <- eval (formatName_js (nullish (opt_get "id" payload) (JStr "step"))) ;;
          modify (set_stepName name)
        else ret tt
      else ret tt
  end.

(* ===================================================================== *)
(** * streaming.ts: retrySlackUpdate                                      *)
(* ===================================================================== *)

(** [await client.chat.update({ channel, ts, text })]: the call is made, the
    caller is suspended while it is in flight ([suspend] is what the runtime
    does meanwhile), then it resolves or rejects as the client decides. *)
Definition chat_update {S} (suspend : M S unit) (ts : option string) (text : string)
    (rejected : option js_error) : M S unit :=
  emit (ChatUpdate ts text rejected) ;;
  suspend ;;
  match rejected with
  | None => ret tt
  | Some err => throw err
  end.

Section Retry.
Context {S : Type}.
Variable suspend : M S unit.
(** [update k] is what the client answers to the call of iteration [k]. *)
Variable update : nat -> option js_error.
Variables (ts : option string) (text : string) (maxAttempts : nat).

(** The [for] loop from iteration [attempt] on, with
    [remaining = maxAttempts - attempt] iterations left.  The result says
    whether the function has returned from inside the loop. *)
Fixpoint retry_loop (attempt remaining : nat) : M S bool :=
  match remaining with
  | O => ret false
  | Datatypes.S remaining' =>
      returned <-
        try_catch
          (chat_update suspend ts text (update attempt) ;; ret true)
          (fun err =>
             emit (Console (LogAttemptFailed (attempt + 1) err)) ;;
             (if (attempt <? maxAttempts - 1)%nat
              then emit (Sleep 500) ;; suspend
              else ret tt) ;;
             ret false) ;;
      if returned then ret true
      else retry_loop (attempt + 1) remaining'
  end.

Definition retrySlackUpdate : M S unit :=
  returned <- retry_loop 0 maxAttempts ;;
  if returned then ret tt
  else emit (Console (LogGaveUp maxAttempts)).

End Retry.

(** The helper on its own: nothing else runs while it is suspended. *)
Definition retrySlackUpdate_alone (update : nat -> option js_error)
    (ts : option string) (text : string) (maxAttempts : nat) : outcome unit * trace :=
  let '(o, _, t) := retrySlackUpdate (ret tt) update ts text maxAttempts tt in (o, t).

(* ===================================================================== *)
(** * streaming.ts: the closure of streamToSlack                          *)
(* ===================================================================== *)

(** The variables captured by the helpers of [streamToSlack], followed by
    the bookkeeping of the runtime: whether [setInterval] has been called,
    how many render updates were issued, and how many suspension points the
    main flow has passed. *)
Record sess : Type := mkSess {
  state : StreamState;
  messageTs : option string;
  frame : nat;
  animationTimer : bool;
  isFinished : bool;
  intervalCreated : bool;
  renders : nat;
  awaits : nat
}.

Definition initialSess : sess :=
  mkSess initialState None 0 false false false 0 0.

Definition with_state (f : StreamState -> StreamState) (s : sess) : sess :=
  mkSess (f (state s)) (messageTs s) (frame s) (animationTimer s) (isFinished s)
         (intervalCreated s) (renders s) (awaits s).
Definition set_messageTs (ts : option string) (s : sess) : sess :=
  mkSess (state s) ts (frame s) (animationTimer s) (isFinished s)
         (intervalCreated s) (renders s) (awaits s).
Definition incr_frame (s : sess) : sess :=
  mkSess (state s) (messageTs s) (Datatypes.S (frame s)) (animationTimer s) (isFinished s)
         (intervalCreated s) (renders s) (awaits s).
Definition set_animationTimer (b : bool) (s : sess) : sess :=
  mkSess (state s) (messageTs s) (frame s) b (isFinished s)
         (intervalCreated s) (renders s) (awaits s).
Definition set_isFinished (b : bool) (s : sess) : sess :=
  mkSess (state s) (messageTs s) (frame s) (animationTimer s) b
         (intervalCreated s) (renders s) (awaits s).
Definition mark_intervalCreated (s : sess) : sess :=
  mkSess (state s) (messageTs s) (frame s) (animationTimer s) (isFinished s)
         true (renders s) (awaits s).
Definition incr_renders (s : sess) : sess :=
  mkSess (state s) (messageTs s) (frame s) (animationTimer s) (isFinished s)
         (intervalCreated s) (Datatypes.S (renders s)) (awaits s).
Definition incr_awaits (s : sess) : sess :=
  mkSess (state s) (messageTs s) (frame s) (animationTimer s) (isFinished s)
         (intervalCreated s) (renders s) (Datatypes.S (awaits s)).

(** [agent.stream(...)] resolves to a stream that yields [chunks] and then
    ends, normally or by throwing [failure]. *)
Record agent_stream : Type := mkStream {
  chunks : list chunk;
  failure : option js_error
}.

(** The collaborators of one session and the options it was started with. *)
Record env : Type := mkEnv {
  threadTs : string;
  (* [options.agentName] *)
  options_agentName : string;
  (* [slackClient.chat.postMessage] of the placeholder: [initial.ts] or a rejection *)
  initialPost : outcome (option string);
  (* [mastra.getAgent(agentName)], and whether [agent.stream] resolves *)
  getAgent : option (outcome agent_stream);
  (* answer to the k-th [chat.update] issued by [updateSlack] *)
  renderUpdate : nat -> option js_error;
  (* answer to the [chat.update] of attempt k of the final write *)
  finalUpdate : nat -> option js_error;
  (* answer to the [postMessage] of the error report *)
  errorPost : option js_error;
  (* timer callbacks that run while the main flow is suspended for the k-th time *)
  ticks : nat -> nat
}.

Definition fallbackText : string := "Sorry, I couldn't generate a response.".

(** [`❌ Error: ${error instanceof Error ? error.message : String(error)}`]. *)
Definition errorTextOf (error : js_error) : string :=
  "❌ Error: " ++ match error with ErrorObj message => message | Thrown rendering => rendering end.

Definition dquote : string := String "034"%char EmptyString.

Section Session.
Variable E : env.

(** [stopAnimation]. *)
Definition stopAnimation : M sess unit :=
  modify (set_isFinished true) ;;
  timer <- gets animationTimer ;;
  if timer then emit ClearInterval ;; modify (set_animationTimer false)
  else ret tt.

(** [updateSlack(text?)].  [suspend] is what happens while the update is
    in flight: the main flow awaits [updateSlack], the timer callback
    does not. *)
Definition updateSlack (suspend : M sess unit) (text : option string) : M sess unit :=
  ts <- gets messageTs ;;
  finished <- gets isFinished ;;
  if negb (present ts) || finished then ret tt
  else
    st <- gets state ;;
    f <- gets frame ;;
    k <- gets renders ;;
    modify incr_renders ;;
    try_catch
      (chat_update suspend ts
         (match text with Some t => t | None => getStatusText st f end)
         (renderUpdate E k))
      (fun _ => ret tt).

(** The callback given to [setInterval]. *)
Definition tick : M sess unit :=
  finished <- gets isFinished ;;
  if negb finished then modify incr_frame ;; updateSlack (ret tt) None
  else ret tt.

(** A suspension point of the main flow: the runtime runs the timer
    callbacks that are due.  Callbacks exist once [setInterval] has been
    called; one that was already queued may still run after
    [clearInterval]. *)
Definition await : M sess unit :=
  k <- gets awaits ;;
  modify incr_awaits ;;
  created <- gets intervalCreated ;;
  if created then times (ticks E k) tick else ret tt.

(** [await sleep(ms)]. *)
Definition sleep (ms : nat) : M sess unit := emit (Sleep ms) ;; await.

(** [sendFinalMessage(text)]. *)
Definition sendFinalMessage (text : string) : M sess unit :=
  ts <- gets messageTs ;;
  retrySlackUpdate await (finalUpdate E) ts text 3.

(** The body of the [for await] loop. *)
Definition processChunk (chunk : chunk) : M sess unit :=
  modify (with_state (set_chunkType (type chunk))) ;;
  if type chunk =? "text-delta" then
    t <- eval (prop "text" (payload_value chunk)) ;;
    match as_string t with
    | Some t =>
        if is_empty t then ret tt
        else modify (with_state (fun state => set_text (text state ++ t) state))
    | None => ret tt
    end
  else if type chunk =? "tool-call" then
    v <- eval (prop "toolName" (payload_value chunk)) ;;
    name <- eval (formatName_js v) ;;
    modify (with_state (set_toolName name)) ;;
    modify incr_frame ;;
    updateSlack await None ;;
    sleep TOOL_DISPLAY_DELAY
  else if type chunk =? "tool-output" then
    output <- eval (prop "output" (payload_value chunk)) ;;
    if truthy output && typeof_object output then
      (match as_string (get "type" output) with
       | Some t => if is_empty t then ret tt else modify (with_state (set_chunkType t))
       | None => ret tt
       end) ;;
      if is_string "workflow-step-start" (get "type" output) then
        name <- eval (formatName_js
                        (or_else (opt_get "id" (get "payload" output))
                           (or_else (opt_get "stepId" (get "payload" output))
                                    (JStr "step")))) ;;
        modify (with_state (set_stepName name)) ;;
        modify incr_frame ;;
        updateSlack await None ;;
        sleep STEP_DISPLAY_DELAY
      else ret tt
    else ret tt
  else if type chunk =? "workflow-execution-start" then
    name <- eval (prop "name" (payload_value chunk)) ;;
    wf <- eval (formatName_js (or_else name (get "workflowId" (payload_value chunk)))) ;;
    modify (with_state (set_workflowName wf)) ;;
    modify (with_state (set_stepName "Starting"))
  else ret tt.

(** [for await (const chunk of stream.fullStream) { ... }]. *)
Fixpoint forAwait (cs : list chunk) (failure : option js_error) : M sess unit :=
  match cs with
  | [] =>
      await ;;
      match failure with
      | Some e => throw e
      | None => ret tt
      end
  | c :: cs' => await ;; processChunk c ;; forAwait cs' failure
  end.

(** The [try] block up to the end of the [for await] loop. *)
Definition consumeStream : M sess unit :=
  st <- gets state ;;
  emit (PostMessage (threadTs E) (getStatusText st 0)
          (match initialPost E with Normal _ => None | Throws e => Some e end)) ;;
  await ;;
  ts <- eval (initialPost E) ;;
  modify (set_messageTs ts) ;;
  emit (SetInterval ANIMATION_INTERVAL) ;;
  modify mark_intervalCreated ;;
  modify (set_animationTimer true) ;;
  agent <- match getAgent E with
           | None =>
               throw (ErrorObj ("Agent " ++ dquote ++ options_agentName E ++ dquote
                                 ++ " not found"))
           | Some agent => ret agent
           end ;;
  await ;;
  stream <- eval agent ;;
  forAwait (chunks stream) (failure stream).

(** [state.text || "Sorry, I couldn't generate a response."]. *)
Definition finalText (st : StreamState) : string :=
  if is_empty (text st) then fallbackText else text st.

(** The [try] block. *)
Definition streamBody : M sess unit :=
  consumeStream ;;
  stopAnimation ;;
  st <- gets state ;;
  sendFinalMessage (finalText st) ;;
  emit (Console LogResponseSent).

(** The [catch] block. *)
Definition reportFailure (error : js_error) : M sess unit :=
  emit (Console (LogStreamError error)) ;;
  stopAnimation ;;
  let errorText := errorTextOf error in
  ts <- gets messageTs ;;
  (if present ts then sendFinalMessage errorText
   else
     try_catch
       (emit (PostMessage (threadTs E) errorText (errorPost E)) ;;
        await ;;
        match errorPost E with Some e => throw e | None => ret tt end)
       (fun _ => ret tt)) ;;
  throw error.

Definition streamToSlack : M sess unit := try_catch streamBody reportFailure.

End Session.

(* ===================================================================== *)
(** * terminal/streaming.ts: streamToTerminal                             *)
(* ===================================================================== *)

(** The body of the [for await] loop of [streamToTerminal]. *)
Definition terminalChunk (chunk : chunk) : M StreamState unit :=
  modify (set_chunkType (type chunk)) ;;
  handleNestedChunkEvents chunk ;;
  if type chunk =? "text-delta" then
    t <- eval (prop "text" (payload_value chunk)) ;;
    match as_string t with
    | Some t =>
        if is_empty t then ret tt
        else modify (fun state => set_text (text state ++ t) state) ;;
             emit (StdoutWrite t)
    | None => ret tt
    end
  else if type chunk =? "tool-call" then
    v <- eval (prop "toolName" (payload_value chunk)) ;;
    name <- eval (formatName_js v) ;;
    modify (set_toolName name)
  else if type chunk =? "tool-output" then
    output <- eval (prop "output" (payload_value chunk)) ;;
    if truthy output && typeof_object output then
      (match as_string (get "type" output) with
       | Some t => if is_empty t then ret tt else modify (set_chunkType t)
       | None => ret tt
       end) ;;
      if is_string "workflow-step-start" (get "type" output) then
        name <- eval (formatName_js
                        (or_else (opt_get "id" (get "payload" output))
                           (or_else (opt_get "stepId" (get "payload" output))
                                    (JStr "step")))) ;;
        modify (set_stepName name)
      else ret tt
    else ret tt
  else if type chunk =? "workflow-execution-start" then
    name <- eval (prop "name" (payload_value chunk)) ;;
    wf <- eval (formatName_js (or_else name (get "workflowId" (payload_value chunk)))) ;;
    modify (set_workflowName wf) ;;
    modify (set_stepName "Starting")
  else ret tt.

Fixpoint terminalLoop (cs : list chunk) (failure : option js_error) : M StreamState unit :=
  match cs with
  | [] => match failure with Some e => throw e | None => ret tt end
  | c :: cs' => terminalChunk c ;; terminalLoop cs' failure
  end.

Definition newline : string := String "010"%char EmptyString.

(** [streamToTerminal]: the session starts from [{ text: '', chunkType: 'start' }]. *)
Definition streamToTerminal (E : env) : M StreamState unit :=
  try_catch
    (agent <- match getAgent E with
              | None =>
                  throw (ErrorObj ("Agent " ++ dquote ++ options_agentName E ++ dquote
                                    ++ " not found"))
              | Some agent => ret agent
              end ;;
     stream <- eval agent ;;
     terminalLoop (chunks stream) (failure stream) ;;
     st <- gets (fun st => st) ;;
     if is_blank (text st)
     then emit (StdoutWrite (newline ++ "⚠️  No response generated." ++ newline))
     else emit (StdoutWrite newline))
    (fun error => emit (Console (LogTerminalError error)) ;; throw error).

(* ===================================================================== *)
(** * verify.ts: verifySlackRequest                                       *)
(* ===================================================================== *)

Module Verify.

Local Open Scope Z_scope.

(** Value of a digit in the given radix (10 or 16). *)
Definition digit_value (radix : Z) (a : ascii) : option Z :=
  let n := Z.of_nat (nat_of_ascii a) in
  let v := if (48 <=? n) && (n <=? 57) then Some (n - 48)
           else if (97 <=? n) && (n <=? 122) then Some (n - 87)
           else if (65 <=? n) && (n <=? 90) then Some (n - 55)
           else None in
  match v with
  | Some d => if d <? radix then Some d else None
  | None => None
  end.

(** The value of the longest prefix of digits; [acc] is [None] until a
    digit has been read. *)
Fixpoint digits (radix : Z) (s : string) (acc : option Z) : option Z :=
  match s with
  | EmptyString => acc
  | String a s' =>
      match digit_value radix a with
      | Some d =>
          digits radix s' (Some (match acc with Some v => v * radix + d | None => d end))
      | None => acc
      end
  end.

(** [parseInt(s)] with no radix; [None] is [NaN].  The integer is the
    mathematical value of the digits: JavaScript rounds it to a double,
    which changes no comparison with an integer below 2^53. *)
Definition parseInt (s : string) : option Z :=
  let s1 := trim_start s in
  let '(sign, s2) :=
    match s1 with
    | String "-" r => (-1, r)
    | String "+" r => (1, r)
    | _ => (1, s1)
    end in
  let '(radix, s3) :=
    match s2 with
    | String "0" (String "x" r) => (16, r)
    | String "0" (String "X" r) => (16, r)
    | _ => (10, s2)
    end in
  match digits radix s3 None with
  | Some v => Some (sign * v)
  | None => None
  end.

(** [a < b] where [a] may be [NaN]. *)
Definition number_lt (a : option Z) (b : Z) : bool :=
  match a with
  | Some n => n <? b
  | None => false
  end.

Section Request.
(** [crypto.createHmac('sha256', key).update(data, 'utf8').digest('hex')]. *)
Variable hmac_sha256_hex : string -> string -> string.
(** [Date.now()], in milliseconds. *)
Variable now : Z.

(** ['v0=' + hmac of `v0:${timestamp}:${body}`]. *)
Definition mySignature (signingSecret timestamp body : string) : string :=
  let sigBasestring := ("v0:" ++ timestamp ++ ":" ++ body)%string in
  ("v0=" ++ hmac_sha256_hex signingSecret sigBasestring)%string.

(** The length guard followed by [crypto.timingSafeEqual] on the UTF-8
    bytes. *)
Definition signatures_equal (mine requestSignature : string) : bool :=
  if negb (String.length requestSignature =? String.length mine)%nat then false
  else String.eqb mine requestSignature.

(** [Date.now()] is a whole number of milliseconds, for which the floor of
    the floating-point quotient by 1000 is the integer quotient.
    [requestSignature] is a string by its type, so the [typeof] test of the
    guard never fires. *)
Definition verifySlackRequest
    (signingSecret requestSignature timestamp body : string) : bool :=
  let fiveMinutesAgo := now / 1000 - 60 * 5 in
  if number_lt (parseInt timestamp) fiveMinutesAgo then false
  else signatures_equal (mySignature signingSecret timestamp body) requestSignature.

End Request.

End Verify.

(* ===================================================================== *)
(** * More string operations                                              *)
(* ===================================================================== *)

Definition string_rev (s : string) : string :=
  string_of_list_ascii (rev (list_ascii_of_string s)).

Fixpoint strip_leading (encodings : list (list nat)) (fuel : nat) (s : string) : string :=
  match fuel with
  | O => s
  | Datatypes.S fuel' =>
      match strip_any encodings s with
      | Some s' => strip_leading encodings fuel' s'
      | None => s
      end
  end.

(** [s.trimEnd()]: the white space encodings are removed from the end. *)
Definition trim_end (s : string) : string :=
  string_rev (strip_leading (map (@rev nat) white_space) (String.length s) (string_rev s)).

(** [s.trim()]. *)
Definition trim (s : string) : string := trim_end (trim_start s).

Definition is_digit (a : ascii) : bool :=
  let n := nat_of_ascii a in (48 <=? n)%nat && (n <=? 57)%nat.

(** [toLowerCase] on a character of ASCII. *)
Definition lower (a : ascii) : ascii :=
  if is_upper a then ascii_of_nat (nat_of_ascii a + 32) else a.

Fixpoint lower_ascii (s : string) : string :=
  match s with
  | EmptyString => EmptyString
  | String a s' => String (lower a) (lower_ascii s')
  end.

(** [a.toLowerCase() === b.toLowerCase()] where [a] is a word of ASCII
    letters without [k]: [lucie], [exit], [quit].  The only character
    outside ASCII that [toLowerCase] turns into characters of ASCII alone
    is the Kelvin sign, into [k]; so the two sides are equal exactly when
    [b] is made of ASCII characters that are those of [a] up to case, and
    the bytes of any other character of [b] make the comparison fail here
    as the character does there. *)
Definition same_ignoring_case (a b : string) : bool :=
  String.eqb (lower_ascii a) (lower_ascii b).

(** A string that may be [undefined], when it is truthy. *)
Definition given (v : option string) : option string :=
  match v with
  | Some s => if is_empty s then None else Some s
  | None => None
  end.

(** [parseInt(s, 10)]; [None] is [NaN].  With the radix given, a [0x]
    prefix is not looked for. *)
Definition parseInt10 (s : string) : option Z :=
  let s1 := trim_start s in
  let '(sign, s2) :=
    match s1 with
    | String "-" r => ((-1)%Z, r)
    | String "+" r => (1%Z, r)
    | _ => (1%Z, s1)
    end in
  match Verify.digits 10 s2 None with
  | Some v => Some (sign * v)%Z
  | None => None
  end.

(* ===================================================================== *)
(** * slack/routes.ts — the events route                                  *)
(* ===================================================================== *)

Module Routes.

(** ** Text operations of the handler *)

(** The character class [[A-Z0-9]]. *)
Definition is_id_char (a : ascii) : bool := is_upper a || is_digit a.

(** Behind [<@]: what follows [[A-Z0-9]+>], when the text starts with it.
    [seen] tells that one character of the class has been read. *)
Fixpoint after_id (seen : bool) (s : string) : option string :=
  match s with
  | EmptyString => None
  | String a s' =>
      if is_id_char a then after_id true s'
      else if seen && Ascii.eqb a ">" then Some s'
      else None
  end.

(** A match of [/<@[A-Z0-9]+>/] at the start of [s]: the text behind it.
    The class holds neither [<] nor [>], so the greedy run of class
    characters is the only candidate; [<] is never a byte of a multi-byte
    UTF-8 sequence, so a match over bytes is a match over characters. *)
Definition after_mention (s : string) : option string :=
  match s with
  | String "<" (String "@" r) => after_id false r
  | _ => None
  end.

(** The scan of [replace] with a global pattern: matches are taken from the
    left, the scan goes on behind each match, and what was produced is not
    scanned again. *)
Fixpoint replace_mentions (fuel : nat) (s : string) : string :=
  match fuel with
  | O => s
  | Datatypes.S fuel' =>
      match after_mention s with
      | Some r => replace_mentions fuel' r
      | None =>
          match s with
          | EmptyString => EmptyString
          | String a s' => String a (replace_mentions fuel' s')
          end
      end
  end.

(** [s.replace(/<@[A-Z0-9]+>/g, '')]. *)
Definition strip_mentions (s : string) : string := replace_mentions (String.length s) s.

(** ** Requests, responses and what the handler does *)

(** [SlackAppConfig]; the two secrets come from [process.env] and are
    [undefined] ([None]) when the variable is not set. *)
Record SlackAppConfig : Type := mkConfig {
  name : string;
  botToken : option string;
  signingSecret : option string;
  agentName : string
}.

(** What the handler reads of the request: [c.req.text()], which may
    reject, and [c.req.header(name)]. *)
Record request : Type := mkRequest {
  req_text : outcome string;
  req_header : string -> option string
}.

(** [c.json(body, status)]; the status is 200 when none is given. *)
Record response : Type := mkResponse {
  status : nat;
  json : jsval
}.

(** The options object handed to [streamToSlack]; [slackClient] is the
    token the client is built from.  The fields read from the parsed body
    are whatever JSON value is there. *)
Record StreamingOptions : Type := mkOptions {
  slackClient : string;
  channel : jsval;
  threadTs : jsval;
  options_agent : string;
  message : string;
  resourceId : string;
  threadId : string
}.

Inductive console_line : Type :=
| LogUrlVerification (app : string)      (* `✅ [${config.name}] URL verification challenge received` *)
| LogMissingCredentials (app : string)   (* `❌ [${config.name}] Missing bot token or signing secret` *)
| LogInvalidSignature (app : string)     (* `❌ [${config.name}] Invalid Slack signature` *)
| LogMessageReceived (app agent : string) (text user : jsval)
                                         (* `📨 [${config.name}] Message received:`, { agent, text, user } *)
| LogHandlerError (app : string) (error : js_error).
                                         (* `Error handling Slack event [${config.name}]:`, error *)

(** What the handler does besides answering: console lines, and the
    detached call of [streamToSlack], whose completion it does not wait
    for and whose failure it only logs. *)
Inductive effect : Type :=
| ConsoleLine (line : console_line)
| StreamToSlack (options : StreamingOptions).

Definition ok_response : response := mkResponse 200 (JObj [("ok", JBool true)]).

Definition error_response (status : nat) (error : string) : response :=
  mkResponse status (JObj [("error", JStr error)]).

Section Handler.
(** [JSON.parse]. *)
Variable JSON_parse : string -> outcome jsval.
(** [crypto.createHmac('sha256', key).update(data, 'utf8').digest('hex')]. *)
Variable hmac_sha256_hex : string -> string -> string.
(** [Date.now()], in milliseconds. *)
Variable now : Z.
(** The decimal rendering of a number in a template literal. *)
Variable number_to_string : Z -> string.

(** [`${v}`] for a value that comes out of [JSON.parse]. *)
Fixpoint to_text (v : jsval) : string :=
  match v with
  | JUndefined => "undefined"
  | JNull => "null"
  | JBool true => "true"
  | JBool false => "false"
  | JNum n => number_to_string n
  | JStr s => s
  | JArr items =>
      String.concat ","
        (map (fun item => match item with
                          | JUndefined | JNull => EmptyString
                          | _ => to_text item
                          end) items)
  | JObj _ => "[object Object]"
  end.

(** The event branch of the handler, entered once the request is
    verified: [if (payload.event) { ... } return c.json({ ok: true })]. *)
Definition handleEvent (config : SlackAppConfig) (token : string) (payload : jsval)
  : outcome response * list effect :=
  if truthy (get "event" payload) then
    let event := get "event" payload in
    if truthy (or_else (get "bot_id" event) (get "subtype" event)) then
      (Normal ok_response, [])
    else if is_string "app_mention" (get "type" event)
            || is_string "message" (get "type" event) then
      let messageText := or_else (get "text" event) (JStr "") in
      let userId := get "user" event in
      let channelId := get "channel" event in
      let threadTs := or_else (get "thread_ts" event) (get "ts" event) in
      let teamId := get "team_id" payload in
      let received :=
        ConsoleLine (LogMessageReceived (name config) (agentName config) messageText userId) in
      match messageText with
      | JStr text =>
          let messageText := trim (strip_mentions text) in
          (Normal ok_response,
           [received;
            StreamToSlack
              (mkOptions token channelId threadTs (agentName config) messageText
                 ("slack-" ++ to_text teamId ++ "-" ++ to_text userId)
                 ("slack-" ++ to_text channelId ++ "-" ++ to_text threadTs))])
      | _ => (Throws (ErrorObj "messageText.replace is not a function"), [received])
      end
    else (Normal ok_response, [])
  else (Normal ok_response, []).

(** The body of the handler's [try]: the response it returns or the
    exception it throws, with what it did until then. *)
Definition handle (config : SlackAppConfig) (c : request) : outcome response * list effect :=
  match req_text c with
  | Throws e => (Throws e, [])
  | Normal body =>
  match JSON_parse body with
  | Throws e => (Throws e, [])
  | Normal payload =>
  match prop "type" payload with
  | Throws e => (Throws e, [])
  | Normal type =>
  if is_string "url_verification" type then
    (Normal (mkResponse 200 (JObj [("challenge", get "challenge" payload)])),
     [ConsoleLine (LogUrlVerification (name config))])
  else
  match given (botToken config), given (signingSecret config) with
  | Some token, Some secret =>
  match given (req_header c "x-slack-signature"),
        given (req_header c "x-slack-request-timestamp") with
  | Some slackSignature, Some slackTimestamp =>
  let isValid :=
    Verify.verifySlackRequest hmac_sha256_hex now secret slackSignature slackTimestamp body in
  if negb isValid then
    (Normal (error_response 401 "Invalid signature"),
     [ConsoleLine (LogInvalidSignature (name config))])
  else handleEvent config token payload
  | _, _ => (Normal (error_response 401 "Missing Slack signature headers"), [])
  end
  | _, _ =>
    (Normal (error_response 500 "Server misconfigured"),
     [ConsoleLine (LogMissingCredentials (name config))])
  end
  end
  end
  end.

(** The handler: whatever is thrown inside is logged and answered with
    status 500. *)
Definition handler (config : SlackAppConfig) (c : request) : response * list effect :=
  match handle config c with
  | (Normal r, effects) => (r, effects)
  | (Throws error, effects) =>
      (error_response 500 "Failed to handle event",
       (effects ++ [ConsoleLine (LogHandlerError (name config) error)])%list)
  end.

End Handler.

End Routes.

(* ===================================================================== *)
(** * terminal/cli.ts — the conversation loop                             *)
(* ===================================================================== *)

Module Cli.

Definition availableAgents : list string := ["lucie"].

(** [TerminalStreamingOptions] without the [mastra] instance. *)
Record TerminalStreamingOptions : Type := mkOptions {
  agentName : string;
  message : string;
  resourceId : string;
  threadId : string
}.

Inductive console_line : Type :=
| LineAvailableAgents                       (* '\n📋 Available Agents:\n' *)
| LineAgent (number : nat) (agent : string) (* `  ${index + 1}. ${agent}` *)
| LineEmpty                                 (* console.log() *)
| LineInvalidSelection (fallback : option string)
                                            (* `⚠️  Invalid selection, using ...\n` *)
| LineAgentNotFound (agentName : option string)
                                            (* `❌ Agent ... not found. Available agents: ...` *)
| LineUsingAgent (agentName : string)       (* `\n✅ Using agent: ${agentName}` *)
| LineHowToExit                             (* '💡 Type ... to end the conversation\n' *)
| LineGoodbye                               (* '\n👋 Goodbye!\n' *)
| LineError (error : js_error).             (* '\n❌ Error:', message of the error *)

(** What a run of the program does, in order: questions asked on the
    terminal, console lines, the sessions of [streamToTerminal] with what
    they wrote, the closing of the interface and the exit. *)
Inductive cli_event : Type :=
| Question (prompt : string)
| ConsoleOut (line : console_line)
| Streamed (options : TerminalStreamingOptions) (written : trace)
| CloseInterface
| Exit (code : nat).

(** [displayAgentMenu]. *)
Definition displayAgentMenu : list cli_event :=
  (ConsoleOut LineAvailableAgents ::
   map (fun entry => ConsoleOut (LineAgent (fst entry) (snd entry)))
       (combine (seq 1 (length availableAgents)) availableAgents)
   ++ [ConsoleOut LineEmpty])%list.

(** The callback of the question of [selectAgent]: what the promise
    resolves to, and what is logged. *)
Definition selectAgent (answer : string) : option string * list cli_event :=
  let trimmed := trim answer in
  let num := parseInt10 trimmed in
  let in_range :=
    match num with
    | Some n => (0 <? n)%Z && (n <=? Z.of_nat (length availableAgents))%Z
    | None => false
    end in
  if in_range then
    (nth_error availableAgents
       (Z.to_nat (match num with Some n => n - 1 | None => 0 end)%Z), [])
  else
    match given (find (fun agent => same_ignoring_case agent trimmed)
                      availableAgents) with
    | Some matched => (Some matched, [])
    | None =>
        (nth_error availableAgents 0,
         [ConsoleOut (LineInvalidSelection (nth_error availableAgents 0))])
    end.

(** The callback of the question of [getMessage]; [None] is [null]. *)
Definition getMessage (answer : string) : option string :=
  let trimmed := trim answer in
  if is_empty trimmed
     || same_ignoring_case "exit" trimmed
     || same_ignoring_case "quit" trimmed
  then None
  else Some trimmed.

(** [array.findIndex(p)]; [None] is [-1]. *)
Fixpoint findIndex (p : string -> bool) (items : list string) : option nat :=
  match items with
  | [] => None
  | item :: rest =>
      if p item then Some 0
      else match findIndex p rest with
           | Some i => Some (Datatypes.S i)
           | None => None
           end
  end.

(** The agent named on the command line: [--agent name] or
    [--agent=name]. *)
Definition agentArg (argv : list string) : option string :=
  match findIndex (String.eqb "--agent") argv with
  | Some agentIndex => nth_error argv (agentIndex + 1)
  | None =>
      match find (startsWith "--agent=") argv with
      | Some arg => nth_error (split_on (Ascii.eqb "=") arg) 1
      | None => None
      end
  end.

Section Main.
(** What [mastra.getAgent] and [agent.stream] give to the k-th session. *)
Variable mastra : nat -> TerminalStreamingOptions -> option (outcome agent_stream).
(** [process.pid]. *)
Variable pid : Z.
(** The k-th reading of [Date.now()]. *)
Variable Date_now : nat -> Z.
(** The decimal rendering of a number in a template literal. *)
Variable number_to_string : Z -> string.

(** The environment of one session: [streamToTerminal] reads the agent
    name and the agent; it makes no call to Slack. *)
Definition session_env (k : nat) (options : TerminalStreamingOptions) : env :=
  mkEnv "" (agentName options) (Normal None) (mastra k options)
        (fun _ => None) (fun _ => None) None (fun _ => 0).

(** [while (true) { ... }]: one question per round; the run is suspended
    for good at a question that gets no answer. *)
Fixpoint conversation (agentName resourceId threadId : string) (messageCount : nat)
    (answers : list string) : list cli_event :=
  Question (newline ++ "💬 [" ++ agentName ++ "] You: ") ::
  match answers with
  | [] => []
  | answer :: answers' =>
      match given (getMessage answer) with
      | None => [ConsoleOut LineGoodbye; CloseInterface; Exit 0]
      | Some message =>
          let threadId :=
            if (messageCount =? 0)%nat
            then "terminal-" ++ number_to_string (Date_now 2)
            else threadId in
          let messageCount := Datatypes.S messageCount in
          let options := mkOptions agentName message resourceId threadId in
          let session := streamToTerminal (session_env messageCount options) initialState in
          (Streamed options (trace_of session) ::
           match outcome_of session with
           | Normal _ => []
           | Throws error => [ConsoleOut (LineError error)]
           end ++
           conversation agentName resourceId threadId messageCount answers')%list
      end
  end.

(** What follows the choice of the agent. *)
Definition converse (agentName : option string) (answers : list string) : list cli_event :=
  match agentName with
  | Some name =>
      if existsb (String.eqb name) availableAgents then
        (ConsoleOut (LineUsingAgent name) :: ConsoleOut LineHowToExit ::
         conversation name
           ("terminal-" ++ number_to_string pid ++ "-" ++ number_to_string (Date_now 0))
           ("terminal-" ++ number_to_string (Date_now 1)) 0 answers)%list
      else [ConsoleOut (LineAgentNotFound agentName); Exit 1]
  | None => [ConsoleOut (LineAgentNotFound agentName); Exit 1]
  end.

(** [main], on the command line [argv] and the lines typed on the
    terminal. *)
Definition main (argv : list string) (answers : list string) : list cli_event :=
  match given (agentArg argv) with
  | Some agentName => converse (Some agentName) answers
  | None =>
      (displayAgentMenu ++ Question "Select an agent (number or name): " ::
       match answers with
       | [] => []
       | answer :: answers' =>
           (snd (selectAgent answer) ++ converse (fst (selectAgent answer)) answers')%list
       end)%list
  end.

End Main.

End Cli.

(* ===================================================================== *)
(** * Vocabulary of the statements                                        *)
(* ===================================================================== *)

(** ** Relations between the state before and after a computation *)

(** Every run of [m] relates the state it starts from to the state it
    leaves. *)
Definition keeps {S A} (R : S -> S -> Prop) (m : M S A) : Prop :=
  forall s, R s (state_of (m s)).

(** [m] cannot throw. *)
Definition returns {S A} (m : M S A) : Prop :=
  forall s, exists a, outcome_of (m s) = Normal a.

(** [before] is a prefix of [after]. *)
Definition extends (before after : string) : Prop :=
  exists suffix, after = before ++ suffix.

Definition text_grows (st st' : StreamState) : Prop := extends (text st) (text st').
Definition sess_text_grows (s s' : sess) : Prop := text_grows (state s) (state s').

(** The render path never writes the stream state. *)
Definition same_state (s s' : sess) : Prop := state s' = state s.

(** ** Shapes of chunks *)

(** A top-level text increment carrying [t]. *)
Definition carries_text (c : chunk) (t : string) : Prop :=
  type c = "text-delta" /\
  exists p, payload c = Some p /\ get "text" p = JStr t.

(** A nested agent event whose inner event is a text increment carrying [t]. *)
Definition carries_nested_text (c : chunk) (t : string) : Prop :=
  startsWith "agent-execution-event-" (type c) = true /\
  exists inner, payload c = Some inner /\
    get "type" inner = JStr "text-delta" /\
    get "text" (get "payload" inner) = JStr t.

(** A tool-output chunk whose [payload.output] is an object of type
    ["workflow-step-start"]. *)
Definition step_start_output (c : chunk) (output : jsval) : Prop :=
  type c = "tool-output" /\
  (exists p, payload c = Some p /\ get "output" p = output) /\
  get "type" output = JStr "workflow-step-start".

(** The smallest chunks of these shapes. *)
Definition text_delta (t : string) : chunk :=
  mkChunk "text-delta" (Some (JObj [("text", JStr t)])).

Definition nested_text_delta (t : string) : chunk :=
  mkChunk "agent-execution-event-text-delta"
    (Some (JObj [("type", JStr "text-delta");
                 ("payload", JObj [("text", JStr t)])])).

Definition tool_output (output : jsval) : chunk :=
  mkChunk "tool-output" (Some (JObj [("output", output)])).

Definition step_start (ids : list (string * jsval)) : jsval :=
  JObj [("type", JStr "workflow-step-start"); ("payload", JObj ids)].

(** ** Traces *)

(** Number of [chat.update] calls in a trace. *)
Fixpoint update_calls (t : trace) : nat :=
  match t with
  | [] => 0
  | ChatUpdate _ _ _ :: t' => Datatypes.S (update_calls t')
  | _ :: t' => update_calls t'
  end.

(** The text of the last [chat.update] call of a trace. *)
Fixpoint last_update_text (t : trace) : option string :=
  match t with
  | [] => None
  | e :: t' =>
      match last_update_text t' with
      | Some text => Some text
      | None => match e with ChatUpdate _ text _ => Some text | _ => None end
      end
  end.

(** The calls of the helper with the default of 3 attempts. *)
Definition three_attempts (update : nat -> option js_error)
    (ts : option string) (text : string) : trace :=
  let call k := ChatUpdate ts text (update k) in
  match update 0, update 1, update 2 with
  | None, _, _ => [call 0]
  | Some e0, None, _ =>
      [call 0; Console (LogAttemptFailed 1 e0); Sleep 500; call 1]
  | Some e0, Some e1, None =>
      [call 0; Console (LogAttemptFailed 1 e0); Sleep 500;
       call 1; Console (LogAttemptFailed 2 e1); Sleep 500; call 2]
  | Some e0, Some e1, Some e2 =>
      [call 0; Console (LogAttemptFailed 1 e0); Sleep 500;
       call 1; Console (LogAttemptFailed 2 e1); Sleep 500;
       call 2; Console (LogAttemptFailed 3 e2); Console (LogGaveUp 3)]
  end.

(** ** Sessions after cancellation *)

(** [k] further suspension points passed, nothing else changed. *)
Definition later (k : nat) (s : sess) : sess := Nat.iter k incr_awaits s.

(** The closure after [stopAnimation], and the call it makes. *)
Definition stopped (s : sess) : sess := set_animationTimer false (set_isFinished true s).
Definition stop_events (s : sess) : trace :=
  if animationTimer s then [ClearInterval] else [].

(** The calls of the error report. *)
Definition report_events (E : env) (s : sess) (error : js_error) : trace :=
  if present (messageTs s)
  then snd (retrySlackUpdate_alone (finalUpdate E) (messageTs s) (errorTextOf error) 3)
  else [PostMessage (threadTs E) (errorTextOf error) (errorPost E)].

(** ** Sample collaborators and states for concrete runs *)

(** A Slack client that accepts the placeholder post, an agent, the answers
    to the final write and the timer schedule. *)
Definition sample_env (agent : option (outcome agent_stream))
    (final : nat -> option js_error) (schedule : nat -> nat) : env :=
  mkEnv "1700000000.000100" "lucie" (Normal (Some "1700000000.000200"))
        agent (fun _ => None) final None schedule.

Definition streaming (cs : list chunk) : option (outcome agent_stream) :=
  Some (Normal (mkStream cs None)).

Definition always_ok : nat -> option js_error := fun _ => None.
Definition rate_limited : nat -> option js_error := fun _ => Some (ErrorObj "ratelimited").
Definition every_suspension (n : nat) : nat -> nat := fun _ => n.

Definition step_name_after (ids : list (string * jsval)) : option string :=
  stepName (state (state_of
    (processChunk (sample_env None always_ok (every_suspension 1))
                  (tool_output (step_start ids)) initialSess))).

(** A session whose agent is not registered. *)
Definition unregistered_agent : env := sample_env None rate_limited (every_suspension 2).
Definition agent_not_found : js_error :=
  ErrorObj ("Agent " ++ dquote ++ "lucie" ++ dquote ++ " not found").

(** An agent that streams nothing, and one that streams a single blank. *)
Definition silent_agent : env := sample_env (streaming []) always_ok (every_suspension 1).
Definition blank_agent : env :=
  sample_env (streaming [text_delta " "]) always_ok (every_suspension 1).

Definition tool_state : StreamState :=
  set_toolName (formatName "reverseText") (set_chunkType "tool-call" initialState).
Definition workflow_state : StreamState :=
  set_stepName "Starting" (set_chunkType "workflow-execution-start" initialState).

(** A stand-in for the MAC in concrete runs. *)
Definition sample_mac (key data : string) : string := "00".

(** ** Further vocabulary *)

(** Every character of [s] satisfies [p]. *)
Fixpoint every_char (p : ascii -> bool) (s : string) : bool :=
  match s with
  | EmptyString => true
  | String a s' => p a && every_char p s'
  end.

(** The smallest tool-call and workflow-start chunks. *)
Definition tool_call (n : string) : chunk :=
  mkChunk "tool-call" (Some (JObj [("toolName", JStr n)])).

Definition workflow_start (fields : list (string * jsval)) : chunk :=
  mkChunk "workflow-execution-start" (Some (JObj fields)).

(** A session whose placeholder has been posted and whose timer runs. *)
Definition live_session : sess :=
  set_animationTimer true
    (mark_intervalCreated (set_messageTs (Some "1700000000.000200") initialSess)).

Definition ticking_env : env := sample_env None always_ok (every_suspension 1).

(** What chunk processing and timer callbacks leave alone in the closure:
    the placeholder handle, the finished flag and the timer handle; the
    frame counter and the number of renders never decrease. *)
Definition closure_stable (s s' : sess) : Prop :=
  messageTs s' = messageTs s /\
  isFinished s' = isFinished s /\
  animationTimer s' = animationTimer s /\
  intervalCreated s' = intervalCreated s /\
  frame s <= frame s' /\
  renders s <= renders s'.

(** While no usable placeholder handle exists, [m] keeps it so and issues
    no [chat.update]. *)
Definition quiet {A} (m : M sess A) : Prop :=
  forall s, present (messageTs s) = false ->
            present (messageTs (state_of (m s))) = false /\
            update_calls (trace_of (m s)) = 0.

(** A Slack client whose answer to the placeholder post carries no [ts]. *)
Definition no_ts_env (cs : list chunk) : env :=
  mkEnv "1700000000.000100" "lucie" (Normal None) (streaming cs)
        (fun _ => None) (fun _ => None) None (every_suspension 2).

(** A workflow step start nested under the workflow prefix. *)
Definition nested_step_start (ids : list (string * jsval)) : chunk :=
  mkChunk "workflow-execution-event-workflow-step-start" (Some (step_start ids)).

(** The closing line of a terminal session that said nothing. *)
Definition terminal_notice : string :=
  newline ++ "⚠️  No response generated." ++ newline.

Definition non_empty (t : string) : bool := negb (is_empty t).

(** A Slack client that rejects the placeholder post. *)
Definition rejecting_env (e : js_error) : env :=
  mkEnv "1700000000.000100" "lucie" (Throws e) (streaming [text_delta "Hello!"])
        (fun _ => None) (fun _ => None) (Some (ErrorObj "ratelimited")) (every_suspension 2).

(** An agent whose stream breaks after [cs]. *)
Definition breaking_env (cs : list chunk) (e : js_error) : env :=
  sample_env (Some (Normal (mkStream cs (Some e)))) always_ok (every_suspension 0).

(** ** The events route *)

(** The handler starts a session with the options [o]. *)
Definition starts (r : Routes.response * list Routes.effect) (o : Routes.StreamingOptions)
  : Prop :=
  In (Routes.StreamToSlack o) (snd r).

(** An application with both secrets set. *)
Definition sample_config : Routes.SlackAppConfig :=
  Routes.mkConfig "lucie" (Some "xoxb-1") (Some "secret") "lucie".

(** An application whose environment variables are not set. *)
Definition bare_config : Routes.SlackAppConfig :=
  Routes.mkConfig "lucie" None None "lucie".

(** A Slack event envelope. *)
Definition envelope (event : list (string * jsval)) : jsval :=
  JObj [("type", JStr "event_callback"); ("team_id", JStr "T1"); ("event", JObj event)].

(** A mention of the bot at the top of a channel. *)
Definition root_mention : jsval :=
  envelope [("type", JStr "app_mention"); ("text", JStr "<@U0BOT> hello");
            ("user", JStr "U7"); ("channel", JStr "C9"); ("ts", JStr "1700000000.000100")].

(** A later message in the thread under it. *)
Definition thread_reply : jsval :=
  envelope [("type", JStr "message"); ("text", JStr "and then?");
            ("user", JStr "U7"); ("channel", JStr "C9");
            ("thread_ts", JStr "1700000000.000100"); ("ts", JStr "1700000042.000200")].

(** The bot's own answer, as Slack reports it back. *)
Definition bot_message : jsval :=
  envelope [("type", JStr "message"); ("text", JStr "hello!"); ("bot_id", JStr "B1");
            ("channel", JStr "C9"); ("ts", JStr "1700000001.000100")].

(** The handshake Slack sends when the endpoint is registered. *)
Definition handshake : jsval :=
  JObj [("type", JStr "url_verification"); ("challenge", JStr "3eZbrw1aB")].

(** A parser that knows the bodies named after the payloads above. *)
Definition sample_parse (body : string) : outcome jsval :=
  if body =? "root_mention" then Normal root_mention
  else if body =? "thread_reply" then Normal thread_reply
  else if body =? "bot_message" then Normal bot_message
  else if body =? "handshake" then Normal handshake
  else Throws (ErrorObj "Unexpected token").

(** Headers signed as [sample_mac] signs, at second 1700000000. *)
Definition signed_headers (h : string) : option string :=
  if h =? "x-slack-signature" then Some "v0=00"
  else if h =? "x-slack-request-timestamp" then Some "1700000000"
  else None.

Definition no_headers (h : string) : option string := None.

Definition signed_request (body : string) : Routes.request :=
  Routes.mkRequest (Normal body) signed_headers.

Definition sample_handler : Routes.SlackAppConfig -> Routes.request ->
                            Routes.response * list Routes.effect :=
  Routes.handler sample_parse sample_mac 1700000000000%Z (fun _ => "0").

(** The session that [root_mention] starts under [sample_config]. *)
Definition root_session : Routes.StreamingOptions :=
  Routes.mkOptions "xoxb-1" (JStr "C9") (JStr "1700000000.000100") "lucie" "hello"
                   "slack-T1-U7" "slack-C9-1700000000.000100".

(** The session that [thread_reply] starts under [sample_config]. *)
Definition reply_session : Routes.StreamingOptions :=
  Routes.mkOptions "xoxb-1" (JStr "C9") (JStr "1700000000.000100") "lucie" "and then?"
                   "slack-T1-U7" "slack-C9-1700000000.000100".

(** Any character but [<]. *)
Definition not_open (a : ascii) : bool := negb (Ascii.eqb a "<").

(** ** The terminal program *)

(** An agent that answers every message with one increment. *)
Definition polite_mastra (k : nat) (o : Cli.TerminalStreamingOptions)
  : option (outcome agent_stream) :=
  streaming [text_delta "Hi!"].

(** An agent whose first session is refused. *)
Definition moody_mastra (k : nat) (o : Cli.TerminalStreamingOptions)
  : option (outcome agent_stream) :=
  if (k =? 1)%nat then Some (Throws (ErrorObj "overloaded")) else streaming [text_delta "Hi!"].

(** A clock that advances by one second per reading. *)
Definition sample_clock (k : nat) : Z := (1700000000000 + 1000 * Z.of_nat k)%Z.

(** A rendering of numbers that knows the third reading of [sample_clock]. *)
Definition sample_number (n : Z) : string :=
  if (n =? 1700000002000)%Z then "1700000002000" else "0".

(** The run of the program on [sample_clock] and process 1. *)
Definition sample_main (mastra : nat -> Cli.TerminalStreamingOptions ->
                                 option (outcome agent_stream))
  : list string -> list string -> list Cli.cli_event :=
  Cli.main mastra 1%Z sample_clock sample_number.


(* ===================================================================== *)
(** * Reasoning about computations                                        *)
(* ===================================================================== *)

Lemma run_bind {S A B} (m : M S A) (k : A -> M S B) (s : S) :
  bind m k s =
  match m s with
  | (Normal a, s1, t1) =>
      (outcome_of (k a s1), state_of (k a s1), (t1 ++ trace_of (k a s1))%list)
  | (Throws e, s1, t1) => (Throws e, s1, t1)
  end.
Proof.
  unfold bind, outcome_of, state_of, trace_of.
  destruct (m s) as [[[a|e] s1] t1]; [|reflexivity].
  destruct (k a s1) as [[o s2] t2]; reflexivity.
Qed.

Lemma run_eta {S A} (r : outcome A * S * trace) :
  r = (outcome_of r, state_of r, trace_of r).
Proof. destruct r as [[o s] t]; reflexivity. Qed.

(** A relation between the state before and the state after that every
    step of a computation respects. *)
Section Preservation.
Context {S : Type}.
Variable R : S -> S -> Prop.
Hypothesis R_refl : forall s, R s s.
Hypothesis R_trans : forall a b c, R a b -> R b c -> R a c.

Lemma keeps_ret {A} (a : A) : keeps R (ret a).
Proof. intro s; apply R_refl. Qed.

Lemma keeps_throw {A} (e : js_error) : keeps R (@throw S A e).
Proof. intro s; apply R_refl. Qed.

Lemma keeps_eval {A} (o : outcome A) : keeps R (@eval S A o).
Proof. intro s; apply R_refl. Qed.

Lemma keeps_emit (e : event) : keeps R (@emit S e).
Proof. intro s; apply R_refl. Qed.

Lemma keeps_gets {A} (f : S -> A) : keeps R (gets f).
Proof. intro s; apply R_refl. Qed.

Lemma keeps_modify (f : S -> S) : (forall s, R s (f s)) -> keeps R (modify f).
Proof. intros H s; apply H. Qed.

Lemma keeps_bind {A B} (m : M S A) (k : A -> M S B) :
  keeps R m -> (forall a, keeps R (k a)) -> keeps R (bind m k).
Proof.
  intros Hm Hk s. rewrite run_bind.
  specialize (Hm s). unfold state_of in Hm.
  destruct (m s) as [[[a|e] s1] t1]; simpl in *; [|exact Hm].
  eapply R_trans; [exact Hm|]. apply Hk.
Qed.

Lemma keeps_try_catch {A} (body : M S A) (handler : js_error -> M S A) :
  keeps R body -> (forall e, keeps R (handler e)) -> keeps R (try_catch body handler).
Proof.
  intros Hb Hh s. unfold try_catch.
  specialize (Hb s). unfold state_of in Hb.
  destruct (body s) as [[[a|e] s1] t1]; simpl in *; [exact Hb|].
  specialize (Hh e s1). unfold state_of in Hh.
  destruct (handler e s1) as [[o s2] t2]; simpl in *.
  eapply R_trans; eassumption.
Qed.

Lemma keeps_times (n : nat) (m : M S unit) : keeps R m -> keeps R (times n m).
Proof.
  intro Hm. induction n as [|n IH]; simpl.
  - apply keeps_ret.
  - apply keeps_bind; [exact Hm | intros _; exact IH].
Qed.

End Preservation.

(** Decompose a goal [keeps R m] along the structure of [m]. *)
Ltac keeps_step Hrefl Htrans :=
  lazymatch goal with
  | |- keeps _ (bind _ _) => apply (keeps_bind _ Htrans); [|intro]
  | |- keeps _ (try_catch _ _) => apply (keeps_try_catch _ Htrans); [|intro]
  | |- keeps _ (times _ _) => apply (keeps_times _ Hrefl Htrans)
  | |- keeps _ (ret _) => apply (keeps_ret _ Hrefl)
  | |- keeps _ (throw _) => apply (keeps_throw _ Hrefl)
  | |- keeps _ (eval _) => apply (keeps_eval _ Hrefl)
  | |- keeps _ (emit _) => apply (keeps_emit _ Hrefl)
  | |- keeps _ (gets _) => apply (keeps_gets _ Hrefl)
  | |- keeps _ (modify _) => apply keeps_modify; intro; simpl
  | |- keeps _ (if ?b then _ else _) => destruct b
  | |- keeps _ (match ?x with _ => _ end) => destruct x
  end.

(** ** The accumulated text only grows *)

Lemma append_empty_r (s : string) : s ++ "" = s.
Proof. induction s as [|a s IH]; simpl; [reflexivity | now rewrite IH]. Qed.

Lemma append_assoc (a b c : string) : (a ++ b) ++ c = a ++ (b ++ c).
Proof. induction a as [|x a IH]; simpl; [reflexivity | now rewrite IH]. Qed.

Lemma extends_refl (s : string) : extends s s.
Proof. exists "". now rewrite append_empty_r. Qed.

Lemma extends_trans (a b c : string) : extends a b -> extends b c -> extends a c.
Proof.
  intros [x ->] [y ->]. exists (x ++ y). apply append_assoc.
Qed.

Lemma extends_append (s t : string) : extends s (s ++ t).
Proof. now exists t. Qed.

Lemma text_grows_refl st : text_grows st st.
Proof. apply extends_refl. Qed.
Lemma text_grows_trans a b c : text_grows a b -> text_grows b c -> text_grows a c.
Proof. apply extends_trans. Qed.
Lemma sess_text_grows_refl s : sess_text_grows s s.
Proof. apply extends_refl. Qed.
Lemma sess_text_grows_trans a b c :
  sess_text_grows a b -> sess_text_grows b c -> sess_text_grows a c.
Proof. apply extends_trans. Qed.

Lemma same_state_refl s : same_state s s.
Proof. reflexivity. Qed.
Lemma same_state_trans a b c : same_state a b -> same_state b c -> same_state a c.
Proof. unfold same_state; congruence. Qed.

Ltac keeps_same := repeat keeps_step same_state_refl same_state_trans.
Ltac keeps_text := repeat keeps_step sess_text_grows_refl sess_text_grows_trans.
Ltac keeps_text_st := repeat keeps_step text_grows_refl text_grows_trans.

Lemma updateSlack_same_state E suspend text :
  keeps same_state suspend -> keeps same_state (updateSlack E suspend text).
Proof.
  intro Hs. unfold updateSlack, chat_update.
  keeps_same; try reflexivity; exact Hs.
Qed.

Lemma tick_same_state E : keeps same_state (tick E).
Proof.
  unfold tick. keeps_same; try reflexivity.
  apply updateSlack_same_state. keeps_same.
Qed.

Lemma await_same_state E : keeps same_state (await E).
Proof.
  unfold await. keeps_same; try reflexivity. apply tick_same_state.
Qed.

Lemma sleep_same_state E ms : keeps same_state (sleep E ms).
Proof. unfold sleep. keeps_same. apply await_same_state. Qed.

Lemma same_state_text_grows (m : M sess unit) :
  keeps same_state m -> keeps sess_text_grows m.
Proof.
  intros H s. unfold sess_text_grows. rewrite (H s). apply text_grows_refl.
Qed.

Lemma handleNested_text_grows c : keeps text_grows (handleNestedChunkEvents c).
Proof.
  unfold handleNestedChunkEvents.
  keeps_text_st; unfold text_grows; simpl;
    solve [apply extends_refl | apply extends_append].
Qed.

Lemma processChunk_text_grows E c : keeps sess_text_grows (processChunk E c).
Proof.
  unfold processChunk.
  keeps_text;
    try solve [unfold sess_text_grows, text_grows; simpl;
               first [apply extends_refl | apply extends_append]];
    apply same_state_text_grows;
    first [apply updateSlack_same_state; apply await_same_state
          | apply sleep_same_state].
Qed.

Lemma terminalChunk_text_grows c : keeps text_grows (terminalChunk c).
Proof.
  unfold terminalChunk.
  keeps_text_st;
    try solve [unfold text_grows; simpl;
               first [apply extends_refl | apply extends_append]];
    apply handleNested_text_grows.
Qed.

Lemma forAwait_text_grows E cs fl : keeps sess_text_grows (forAwait E cs fl).
Proof.
  induction cs as [|c cs IH]; simpl.
  - keeps_text. apply same_state_text_grows, await_same_state.
  - keeps_text; [apply same_state_text_grows, await_same_state
                | apply processChunk_text_grows | exact IH].
Qed.

(** ** Computations that cannot throw *)

Lemma returns_ret {S A} (a : A) : returns (@ret S A a).
Proof. intro s; now exists a. Qed.

Lemma returns_emit {S} (e : event) : returns (@emit S e).
Proof. intro s; now exists tt. Qed.

Lemma returns_gets {S A} (f : S -> A) : returns (gets f).
Proof. intro s; now exists (f s). Qed.

Lemma returns_modify {S} (f : S -> S) : returns (modify f).
Proof. intro s; now exists tt. Qed.

Lemma returns_bind {S A B} (m : M S A) (k : A -> M S B) :
  returns m -> (forall a, returns (k a)) -> returns (bind m k).
Proof.
  intros Hm Hk s. rewrite run_bind.
  destruct (Hm s) as [a Ha]. unfold outcome_of in Ha.
  destruct (m s) as [[o s1] t1]; simpl in Ha; subst o.
  destruct (Hk a s1) as [b Hb]. exists b. exact Hb.
Qed.

Lemma returns_try_catch {S A} (body : M S A) (handler : js_error -> M S A) :
  (forall e, returns (handler e)) -> returns (try_catch body handler).
Proof.
  intros Hh s. unfold try_catch.
  destruct (body s) as [[[a|e] s1] t1].
  - now exists a.
  - destruct (Hh e s1) as [b Hb]. unfold outcome_of in Hb.
    destruct (handler e s1) as [[o s2] t2]; simpl in Hb; subst o. now exists b.
Qed.

Lemma returns_times {S} (n : nat) (m : M S unit) : returns m -> returns (times n m).
Proof.
  intro Hm. induction n as [|n IH]; simpl.
  - apply returns_ret.
  - apply returns_bind; [exact Hm | intros _; exact IH].
Qed.

Ltac returns_step :=
  lazymatch goal with
  | |- returns (bind _ _) => apply returns_bind; [|intro]
  | |- returns (try_catch _ _) => apply returns_try_catch; intro
  | |- returns (times _ _) => apply returns_times
  | |- returns (ret _) => apply returns_ret
  | |- returns (emit _) => apply returns_emit
  | |- returns (gets _) => apply returns_gets
  | |- returns (modify _) => apply returns_modify
  | |- returns (if ?b then _ else _) => destruct b
  | |- returns (match ?x with _ => _ end) => destruct x
  end.

Lemma returns_unit {S} (m : M S unit) (s : S) :
  returns m -> m s = (Normal tt, state_of (m s), trace_of (m s)).
Proof.
  intro H. destruct (H s) as [[] Ha].
  rewrite (run_eta (m s)) at 1. now rewrite Ha.
Qed.

Lemma tick_returns E : returns (tick E).
Proof. unfold tick, updateSlack. repeat returns_step. Qed.

Lemma await_returns E : returns (await E).
Proof. unfold await. repeat returns_step. apply tick_returns. Qed.

(** What follows a step that returns, when the continuation leaves the
    stream state alone. *)
Lemma state_after_bind {A} (m : M sess A) (k : A -> M sess unit) (s s1 : sess) a t1 :
  m s = (Normal a, s1, t1) ->
  keeps same_state (k a) ->
  state (state_of (bind m k s)) = state s1.
Proof.
  intros Hm Hk. rewrite run_bind, Hm. simpl. apply Hk.
Qed.

Lemma await_run E s :
  exists s1 t1, await E s = (Normal tt, s1, t1) /\ state s1 = state s.
Proof.
  exists (state_of (await E s)), (trace_of (await E s)). split.
  - apply returns_unit, await_returns.
  - apply await_same_state.
Qed.

(** ** Shapes of chunks *)

Lemma text_delta_carries t : carries_text (text_delta t) t.
Proof. split; [reflexivity|]. eexists; split; reflexivity. Qed.

Lemma nested_text_delta_carries t : carries_nested_text (nested_text_delta t) t.
Proof. split; [reflexivity|]. eexists; repeat split; reflexivity. Qed.

Lemma get_string_object k v s : get k v = JStr s -> exists fields, v = JObj fields.
Proof. destruct v; simpl; try discriminate. intros _. now eexists. Qed.

Lemma startsWith_inv p s : startsWith p s = true -> exists r, s = p ++ r.
Proof.
  revert s. induction p as [|a p IH]; intros s H.
  - now exists s.
  - destruct s as [|b s]; [discriminate|]. simpl in H.
    apply andb_true_iff in H as [Hab Hp].
    apply Ascii.eqb_eq in Hab. subst b.
    destruct (IH s Hp) as [r ->]. now exists r.
Qed.

(** One top-level text increment through the Slack consumer. *)
Lemma processChunk_text_delta E c t s :
  carries_text c t ->
  exists s', processChunk E c s = (Normal tt, s', []) /\
             text (state s') = text (state s) ++ t.
Proof.
  intros [Hty [p [Hp Hget]]].
  destruct (get_string_object _ _ _ Hget) as [fields ->].
  unfold processChunk, payload_value. rewrite Hty, Hp. simpl String.eqb. cbv iota.
  unfold prop. rewrite run_bind. simpl.
  rewrite run_bind. unfold eval at 1. cbv iota beta. simpl in Hget. rewrite Hget. simpl as_string.
  destruct t as [|a t]; simpl.
  - eexists; split; [reflexivity|]. simpl. now rewrite append_empty_r.
  - eexists; split; [reflexivity|]. reflexivity.
Qed.

(** One top-level text increment through the terminal consumer. *)
Lemma terminalChunk_text_delta c t st :
  carries_text c t ->
  exists st' tr, terminalChunk c st = (Normal tt, st', tr) /\
                 text st' = text st ++ t.
Proof.
  intros [Hty [p [Hp Hget]]].
  destruct (get_string_object _ _ _ Hget) as [fields ->].
  unfold terminalChunk, handleNestedChunkEvents, payload_value.
  rewrite Hty, Hp. simpl startsWith. simpl String.eqb. cbv iota.
  unfold prop. rewrite !run_bind. simpl.
  simpl in Hget. rewrite Hget. simpl as_string.
  destruct t as [|a t]; simpl.
  - do 2 eexists; split; [reflexivity|]. simpl. now rewrite append_empty_r.
  - do 2 eexists; split; [reflexivity|]. reflexivity.
Qed.

(** ** The consumer loops on text increments *)

Lemma forAwait_text_deltas E cs texts fl s :
  Forall2 carries_text cs texts ->
  text (state (state_of (forAwait E cs fl s))) = text (state s) ++ String.concat "" texts.
Proof.
  intro H. revert s. induction H as [|c t cs texts Hc _ IH]; intro s.
  - simpl String.concat. rewrite append_empty_r.
    assert (K : keeps same_state (forAwait E [] fl)).
    { simpl. keeps_same. apply await_same_state. }
    now rewrite (K s).
  - simpl forAwait. rewrite run_bind.
    destruct (await_run E s) as [s1 [t1 [Ha Hs1]]]. rewrite Ha. simpl.
    rewrite run_bind.
    destruct (processChunk_text_delta E c t s1 Hc) as [s2 [Hp Ht2]]. rewrite Hp. simpl.
    rewrite IH, Ht2, Hs1, append_assoc. f_equal.
    destruct texts as [|u us]; simpl; [now rewrite append_empty_r | reflexivity].
Qed.

Lemma terminalLoop_text_deltas cs texts fl st :
  Forall2 carries_text cs texts ->
  text (state_of (terminalLoop cs fl st)) = text st ++ String.concat "" texts.
Proof.
  intro H. revert st. induction H as [|c t cs texts Hc _ IH]; intro st.
  - simpl String.concat. rewrite append_empty_r. simpl. now destruct fl.
  - simpl terminalLoop. rewrite run_bind.
    destruct (terminalChunk_text_delta c t st Hc) as [st2 [tr [Hp Ht2]]]. rewrite Hp. simpl.
    rewrite IH, Ht2, append_assoc. f_equal.
    destruct texts as [|u us]; simpl; [now rewrite append_empty_r | reflexivity].
Qed.

(** ** Nested agent events *)

Lemma agent_prefix_not_dispatched t :
  startsWith "agent-execution-event-" t = true ->
  (t =? "text-delta") = false /\ (t =? "tool-call") = false /\
  (t =? "tool-output") = false /\ (t =? "workflow-execution-start") = false.
Proof.
  intro H. destruct (startsWith_inv _ _ H) as [r ->]. repeat split; reflexivity.
Qed.

(** The Slack loop body has no case for a nested agent event: only the
    current kind changes. *)
Lemma processChunk_nested_agent E c s :
  startsWith "agent-execution-event-" (type c) = true ->
  processChunk E c s = (Normal tt, with_state (set_chunkType (type c)) s, []).
Proof.
  intro H. destruct (agent_prefix_not_dispatched _ H) as [H1 [H2 [H3 H4]]].
  unfold processChunk. rewrite H1, H2, H3, H4. reflexivity.
Qed.

(** The unwrapper folds the inner text increment into the accumulated text. *)
Lemma handleNested_agent_text c t st :
  carries_nested_text c t ->
  exists st', handleNestedChunkEvents c st = (Normal tt, st', []) /\
              text st' = text st ++ t.
Proof.
  intros [Hty [inner [Hp [Hin Hget]]]].
  destruct (get_string_object _ _ _ Hin) as [fields ->].
  unfold handleNestedChunkEvents. rewrite Hp, Hty.
  assert (Hinner : inner_is "text-delta" (JObj fields) = true).
  { unfold inner_is, has. simpl in Hin |- *.
    destruct (assoc "type" fields); [|discriminate]. subst j. reflexivity. }
  rewrite Hinner. unfold opt_get. rewrite Hget. simpl as_string.
  destruct t as [|a t]; simpl.
  - eexists; split; [reflexivity|]. now rewrite append_empty_r.
  - eexists; split; [reflexivity|]. reflexivity.
Qed.

(** The terminal loop body runs the unwrapper first and has no case of its
    own for the nested kind. *)
Lemma terminalChunk_nested_agent c t st :
  carries_nested_text c t ->
  exists st', terminalChunk c st = (Normal tt, st', []) /\
              text st' = text st ++ t.
Proof.
  intro H.
  destruct (handleNested_agent_text c t (set_chunkType (type c) st) H) as [st' [Hn Ht]].
  destruct H as [Hty _].
  destruct (agent_prefix_not_dispatched _ Hty) as [H1 [H2 [H3 H4]]].
  unfold terminalChunk. rewrite H1, H2, H3, H4.
  rewrite run_bind. simpl. rewrite run_bind, Hn. simpl.
  exists st'. split; [reflexivity | exact Ht].
Qed.

(** ** The rest of the session leaves the stream state alone *)

Lemma stopAnimation_same_state : keeps same_state stopAnimation.
Proof. unfold stopAnimation. keeps_same; reflexivity. Qed.

Lemma retry_loop_keeps {S} (R : S -> S -> Prop)
    (R_refl : forall s, R s s) (R_trans : forall a b c, R a b -> R b c -> R a c)
    suspend update ts text maxAttempts attempt remaining :
  keeps R suspend ->
  keeps R (retry_loop suspend update ts text maxAttempts attempt remaining).
Proof.
  intro Hs. revert attempt.
  induction remaining as [|r IH]; intro attempt; simpl.
  - apply (keeps_ret _ R_refl).
  - unfold chat_update. repeat keeps_step R_refl R_trans; try exact Hs. apply IH.
Qed.

Lemma sendFinalMessage_same_state E text : keeps same_state (sendFinalMessage E text).
Proof.
  unfold sendFinalMessage, retrySlackUpdate. keeps_same.
  apply (retry_loop_keeps _ same_state_refl same_state_trans), await_same_state.
Qed.

Lemma reportFailure_same_state E e : keeps same_state (reportFailure E e).
Proof.
  unfold reportFailure. keeps_same;
    first [apply stopAnimation_same_state | apply sendFinalMessage_same_state
          | apply await_same_state].
Qed.

Lemma consumeStream_text_grows E : keeps sess_text_grows (consumeStream E).
Proof.
  unfold consumeStream. keeps_text;
    try solve [unfold sess_text_grows, text_grows; simpl; apply extends_refl];
    try solve [apply same_state_text_grows, await_same_state].
  apply forAwait_text_grows.
Qed.

Lemma streamToSlack_text_grows E : keeps sess_text_grows (streamToSlack E).
Proof.
  unfold streamToSlack, streamBody. keeps_text;
    try solve [unfold sess_text_grows, text_grows; simpl; apply extends_refl].
  - apply consumeStream_text_grows.
  - apply same_state_text_grows, stopAnimation_same_state.
  - apply same_state_text_grows, sendFinalMessage_same_state.
  - apply same_state_text_grows, reportFailure_same_state.
Qed.

(* ===================================================================== *)
(** * Accumulated text is append-only                                     *)
(* ===================================================================== *)

(** C9.  Accumulated text is append-only: the text before a chunk is a
    prefix of the text after it, for the loop body of the Slack consumer
    (with the renders and timer callbacks it triggers), for the loop body of
    the terminal consumer and for the nested-event unwrapper; timer
    callbacks leave it as it is; and so the text at the end of a whole
    session extends the text at its start. *)
Theorem accumulated_text_append_only :
  (forall E c s, extends (text (state s)) (text (state (state_of (processChunk E c s))))) /\
  (forall c st, extends (text st) (text (state_of (handleNestedChunkEvents c st)))) /\
  (forall c st, extends (text st) (text (state_of (terminalChunk c st)))) /\
  (forall E s, text (state (state_of (await E s))) = text (state s)) /\
  (forall E s, extends (text (state s)) (text (state (state_of (streamToSlack E s))))).
Proof.
  repeat split.
  - intros E c s. apply (processChunk_text_grows E c s).
  - intros c st. apply (handleNested_text_grows c st).
  - intros c st. apply (terminalChunk_text_grows c st).
  - intros E s. now rewrite (await_same_state E s).
  - intros E s. apply (streamToSlack_text_grows E s).
Qed.

(* ===================================================================== *)
(** * Nested agent events in the two consumers                            *)
(* ===================================================================== *)

Lemma length_append (a b : string) :
  String.length (a ++ b) = String.length a + String.length b.
Proof. induction a as [|x a IH]; simpl; [reflexivity | now rewrite IH]. Qed.

(** The unwrapper and the terminal consumer treat a nested agent text
    increment like a top-level one carrying the same text. *)
Lemma nested_text_equivalence_unwrapper_terminal c c' t st :
  carries_nested_text c t -> carries_text c' t ->
  text (state_of (handleNestedChunkEvents c st)) = text st ++ t /\
  text (state_of (terminalChunk c st)) = text (state_of (terminalChunk c' st)).
Proof.
  intros Hn Ht.
  destruct (handleNested_agent_text c t st Hn) as [st1 [H1 E1]].
  destruct (terminalChunk_nested_agent c t st Hn) as [st2 [H2 E2]].
  destruct (terminalChunk_text_delta c' t st Ht) as [st3 [tr [H3 E3]]].
  rewrite H1, H2, H3. simpl. split; congruence.
Qed.

(** C3, on the code.  The loop body of [streamToSlack] does not call
    [handleNestedChunkEvents]: a chunk of kind
    ["agent-execution-event-text-delta"] whose inner event is a text-delta
    carrying ["hi"] only changes the current kind and leaves the accumulated
    text as it was, whereas a top-level text-delta carrying ["hi"] appends
    it; the unwrapper and the loop body of [streamToTerminal] do append it. *)
Theorem slack_consumer_drops_nested_agent_text (E : env) (s : sess) (st : StreamState) :
  processChunk E (nested_text_delta "hi") s
  = (Normal tt, with_state (set_chunkType "agent-execution-event-text-delta") s, []) /\
  text (state (state_of (processChunk E (nested_text_delta "hi") s))) = text (state s) /\
  text (state (state_of (processChunk E (text_delta "hi") s))) = text (state s) ++ "hi" /\
  text (state (state_of (processChunk E (nested_text_delta "hi") s)))
  <> text (state (state_of (processChunk E (text_delta "hi") s))) /\
  text (state_of (handleNestedChunkEvents (nested_text_delta "hi") st)) = text st ++ "hi" /\
  text (state_of (terminalChunk (nested_text_delta "hi") st)) = text st ++ "hi".
Proof.
  assert (Hn : processChunk E (nested_text_delta "hi") s
               = (Normal tt, with_state (set_chunkType "agent-execution-event-text-delta") s, []))
    by (apply (processChunk_nested_agent E (nested_text_delta "hi") s); reflexivity).
  assert (Ht : text (state (state_of (processChunk E (text_delta "hi") s)))
               = text (state s) ++ "hi").
  { destruct (processChunk_text_delta E _ "hi" s (text_delta_carries "hi")) as [s' [H1 H2]].
    now rewrite H1. }
  split; [exact Hn|]. split; [now rewrite Hn|]. split; [exact Ht|].
  split.
  - rewrite Hn, Ht. simpl. intro H.
    assert (L : String.length (text (state s)) = String.length (text (state s) ++ "hi"))
      by now rewrite <- H.
    rewrite length_append in L. simpl in L. lia.
  - split.
    + destruct (handleNested_agent_text _ "hi" st (nested_text_delta_carries "hi"))
        as [st' [H1 H2]]. now rewrite H1.
    + destruct (terminalChunk_nested_agent _ "hi" st (nested_text_delta_carries "hi"))
        as [st' [H1 H2]]. now rewrite H1.
Qed.

(** A Slack session whose agent only speaks through nested events ends on
    the fallback text. *)
Example nested_only_session :
  text (state (state_of
    (streamToSlack (sample_env (streaming [nested_text_delta "hi"]) always_ok
                               (every_suspension 0))
                   initialSess))) = "" /\
  last_update_text (trace_of
    (streamToSlack (sample_env (streaming [nested_text_delta "hi"]) always_ok
                               (every_suspension 0))
                   initialSess)) = Some fallbackText /\
  text (state_of
    (streamToTerminal (sample_env (streaming [nested_text_delta "hi"]) always_ok
                                  (every_suspension 0))
                      initialState)) = "hi".
Proof. repeat split. Qed.

(* ===================================================================== *)
(** * Workflow steps wrapped in tool-output chunks                        *)
(* ===================================================================== *)

Lemma tool_output_step_start ids :
  step_start_output (tool_output (step_start ids)) (step_start ids).
Proof. split; [reflexivity|]. split; [|reflexivity]. eexists; split; reflexivity. Qed.

Lemma render_pulse_same_state E delay :
  keeps same_state (modify incr_frame ;; updateSlack E (await E) None ;; sleep E delay).
Proof.
  keeps_same; [reflexivity | | apply sleep_same_state].
  apply updateSlack_same_state, await_same_state.
Qed.

Ltac run_step :=
  rewrite run_bind;
  cbn [modify eval gets emit ret throw prop outcome_of state_of trace_of fst snd].

(** The stream state after a wrapped step start: the current kind is set
    before the step name is computed; when the [||] chain evaluates to a
    string the step name is set from it and the render pulse follows. *)
Lemma processChunk_step_start E c output s :
  step_start_output c output ->
  let chain := or_else (opt_get "id" (get "payload" output))
                  (or_else (opt_get "stepId" (get "payload" output)) (JStr "step")) in
  let kinded := set_chunkType "workflow-step-start"
                  (set_chunkType "tool-output" (state s)) in
  state (state_of (processChunk E c s))
  = match formatName_js chain with
    | Normal name => set_stepName name kinded
    | Throws _ => kinded
    end.
Proof.
  intros [Hty [[p [Hp Hout]] Htype]] chain kinded.
  destruct (get_string_object _ _ _ Htype) as [ofields Ho].
  assert (Hpobj : exists pf, p = JObj pf).
  { destruct p; simpl in Hout; try (rewrite Ho in Hout; discriminate). now eexists. }
  destruct Hpobj as [pf ->].
  unfold processChunk, payload_value. rewrite Hty, Hp. simpl String.eqb. cbv iota.
  run_step. run_step. rewrite Hout.
  assert (Hobj : truthy output && typeof_object output = true) by (rewrite Ho; reflexivity).
  rewrite Hobj, Htype. cbn [as_string is_empty is_string String.eqb Ascii.eqb Bool.eqb].
  run_step. fold chain.
  destruct (formatName_js chain) as [name|e].
  - run_step.
    erewrite state_after_bind; [| reflexivity | apply render_pulse_same_state].
    reflexivity.
  - run_step. reflexivity.
Qed.

(** C4, as stated, fails on the code.  With neither [id] nor [stepId] the
    step name is ["Step"], not the literal word ["step"]: whatever source is
    chosen goes through [formatName].  And an [id] that is present but is
    the empty string is passed over for [stepId]: the choice is made by
    [||], on truthiness, not on presence. *)
Lemma step_name_literal_counterexample :
  step_name_after [] = Some "Step" /\
  step_name_after [] <> Some "step" /\
  step_name_after [("id", JStr ""); ("stepId", JStr "analyzeText")] = Some "Analyze Text" /\
  step_name_after [("id", JStr ""); ("stepId", JStr "analyzeText")] <> Some "" /\
  step_name_after [("id", JStr "fetch-data"); ("stepId", JStr "other")] = Some "Fetch Data" /\
  step_name_after [("id", JStr "fetch-data"); ("stepId", JStr "other")] <> Some "fetch-data".
Proof.
  split; [reflexivity|]. split; [discriminate|].
  split; [reflexivity|]. split; [discriminate|].
  split; [reflexivity | discriminate].
Qed.

(** C4, amended.  For every tool-output chunk whose [payload.output] object
    has type ["workflow-step-start"], the Slack consumer sets the current
    kind to that type and the step name to [formatName] of
    [output.payload.id] when that is a non-empty string; else (no usable
    [id]: absent or falsy) to [formatName] of [output.payload.stepId] when
    that is a non-empty string; else to [formatName] of the literal word
    ["step"], which is ["Step"]. *)
Theorem step_name_priority (E : env) (s : sess) (c : chunk) (output : jsval) :
  step_start_output c output ->
  let id_ := get "id" (get "payload" output) in
  let stepId_ := get "stepId" (get "payload" output) in
  let after := state (state_of (processChunk E c s)) in
  chunkType after = "workflow-step-start" /\
  (forall a, id_ = JStr a -> a <> "" -> stepName after = Some (formatName a)) /\
  (forall b, truthy id_ = false -> stepId_ = JStr b -> b <> "" ->
             stepName after = Some (formatName b)) /\
  (truthy id_ = false -> truthy stepId_ = false ->
   stepName after = Some (formatName "step") /\ stepName after = Some "Step").
Proof.
  intros H id_ stepId_ after.
  pose proof (processChunk_step_start E c output s H) as Hrun.
  cbv zeta in Hrun. unfold opt_get in Hrun. fold id_ stepId_ after in Hrun.
  assert (Hne : forall x, x <> "" -> truthy (JStr x) = true).
  { intros [|a x] Hx; [congruence | reflexivity]. }
  split; [|split; [|split]].
  - rewrite Hrun. now destruct (formatName_js _).
  - intros a Ha Hnon. rewrite Hrun. unfold or_else. rewrite Ha, (Hne a Hnon). reflexivity.
  - intros b Hid Hb Hnon. rewrite Hrun. unfold or_else. rewrite Hid, Hb, (Hne b Hnon). reflexivity.
  - intros Hid Hsid. rewrite Hrun. unfold or_else. rewrite Hid, Hsid. split; reflexivity.
Qed.

Lemma step_name_priority_witness :
  step_name_after [("id", JStr "fetch-data"); ("stepId", JStr "other")] = Some "Fetch Data" /\
  step_name_after [("id", JStr ""); ("stepId", JStr "analyzeText")] = Some "Analyze Text" /\
  step_name_after [("stepId", JStr "analyze_text")] = Some "Analyze Text" /\
  step_name_after [] = Some "Step".
Proof.
  pose proof (fun ids =>
    step_name_priority (sample_env None always_ok (every_suspension 1)) initialSess _ _
      (tool_output_step_start ids)) as P.
  cbv zeta in P. unfold step_name_after.
  split; [|split; [|split]].
  - apply (proj1 (proj2 (P [("id", JStr "fetch-data"); ("stepId", JStr "other")])) "fetch-data");
      [reflexivity | discriminate].
  - apply (proj1 (proj2 (proj2 (P [("id", JStr ""); ("stepId", JStr "analyzeText")])))
             "analyzeText"); [reflexivity | reflexivity | discriminate].
  - apply (proj1 (proj2 (proj2 (P [("stepId", JStr "analyze_text")]))) "analyze_text");
      [reflexivity | reflexivity | discriminate].
  - apply (proj2 (proj2 (proj2 (proj2 (P []))) eq_refl eq_refl)).
Defined.

(** The first letter of a word is capitalised whatever its alphabet. *)
Example step_name_accented :
  step_name_after [("id", JStr "étape-un")] = Some "Étape Un" /\
  formatName "été" = "Été" /\
  formatName "straße_ßeta" = "Straße SSeta".
Proof. repeat split; reflexivity. Qed.

(* ===================================================================== *)
(** * The final-write retry helper                                        *)
(* ===================================================================== *)

(** The loop on its own: it never throws, and it makes at most [remaining]
    calls. *)
Lemma retry_loop_alone update ts text maxAttempts attempt remaining :
  exists returned t,
    retry_loop (ret tt) update ts text maxAttempts attempt remaining tt
    = (Normal returned, tt, t) /\
    update_calls t <= remaining.
Proof.
  revert attempt. induction remaining as [|r IH]; intro attempt.
  - exists false, []. split; [reflexivity | simpl; lia].
  - simpl retry_loop. unfold chat_update.
    destruct (IH (attempt + 1)) as [b [t [Hrun Hle]]]. unfold ret in Hrun.
    unfold bind, try_catch, emit, ret, throw; simpl.
    destruct (update attempt) as [err|]; simpl.
    + destruct (attempt <? maxAttempts - 1)%nat; simpl; rewrite Hrun; simpl;
        do 2 eexists; (split; [reflexivity | simpl; lia]).
    + do 2 eexists; split; [reflexivity | simpl; lia].
Qed.

(** For every [maxAttempts], the helper returns normally after at most
    [maxAttempts] calls. *)
Lemma retrySlackUpdate_alone_bounded update ts text maxAttempts :
  fst (retrySlackUpdate_alone update ts text maxAttempts) = Normal tt /\
  update_calls (snd (retrySlackUpdate_alone update ts text maxAttempts)) <= maxAttempts.
Proof.
  unfold retrySlackUpdate_alone, retrySlackUpdate.
  destruct (retry_loop_alone update ts text maxAttempts 0 maxAttempts) as [b [t [Hrun Hle]]].
  rewrite run_bind, Hrun. destruct b; simpl.
  - split; [reflexivity|]. rewrite app_nil_r. exact Hle.
  - split; [reflexivity|].
    assert (K : forall u, update_calls (u ++ [Console (LogGaveUp maxAttempts)])%list = update_calls u).
    { induction u as [|e u IHu]; simpl; [reflexivity|]. destruct e; simpl; now rewrite IHu. }
    rewrite K. exact Hle.
Qed.

Lemma retrySlackUpdate_alone_three update ts text :
  snd (retrySlackUpdate_alone update ts text 3) = three_attempts update ts text.
Proof.
  unfold three_attempts, retrySlackUpdate_alone, retrySlackUpdate, retry_loop, chat_update,
    bind, try_catch, emit, ret, throw.
  simpl.
  destruct (update 0) as [e0|]; simpl; [|reflexivity].
  destruct (update 1) as [e1|]; simpl; [|reflexivity].
  destruct (update 2) as [e2|]; simpl; reflexivity.
Qed.

(** C5.  With the default of 3 attempts the helper, whatever the update
    operation answers, returns normally (it never raises), makes at most 3
    update calls, and its calls are exactly: one call when the first
    succeeds; on each failure a log line, then the fixed 500 ms wait if and
    only if another attempt follows; it stops at the first success (a
    failure, a failure, a success: exactly 3 calls and no give-up line);
    after 3 failures it logs that it gives up. *)
Theorem retry_helper_behaviour (update : nat -> option js_error)
    (ts : option string) (text : string) :
  fst (retrySlackUpdate_alone update ts text 3) = Normal tt /\
  update_calls (snd (retrySlackUpdate_alone update ts text 3)) <= 3 /\
  snd (retrySlackUpdate_alone update ts text 3) =
    match update 0, update 1, update 2 with
    | None, _, _ => [ChatUpdate ts text None]
    | Some e0, None, _ =>
        [ChatUpdate ts text (Some e0); Console (LogAttemptFailed 1 e0); Sleep 500;
         ChatUpdate ts text None]
    | Some e0, Some e1, None =>
        [ChatUpdate ts text (Some e0); Console (LogAttemptFailed 1 e0); Sleep 500;
         ChatUpdate ts text (Some e1); Console (LogAttemptFailed 2 e1); Sleep 500;
         ChatUpdate ts text None]
    | Some e0, Some e1, Some e2 =>
        [ChatUpdate ts text (Some e0); Console (LogAttemptFailed 1 e0); Sleep 500;
         ChatUpdate ts text (Some e1); Console (LogAttemptFailed 2 e1); Sleep 500;
         ChatUpdate ts text (Some e2); Console (LogAttemptFailed 3 e2);
         Console (LogGaveUp 3)]
    end.
Proof.
  split; [apply retrySlackUpdate_alone_bounded|].
  split; [apply retrySlackUpdate_alone_bounded|].
  rewrite retrySlackUpdate_alone_three. unfold three_attempts.
  destruct (update 0); [|reflexivity].
  destruct (update 1); [|reflexivity].
  destruct (update 2); reflexivity.
Qed.

Example retry_fails_twice_then_succeeds :
  let update k := if (k <? 2)%nat then Some (ErrorObj "ratelimited") else None in
  retrySlackUpdate_alone update (Some "1700000000.000200") "Hello!" 3
  = (Normal tt,
     [ChatUpdate (Some "1700000000.000200") "Hello!" (Some (ErrorObj "ratelimited"));
      Console (LogAttemptFailed 1 (ErrorObj "ratelimited")); Sleep 500;
      ChatUpdate (Some "1700000000.000200") "Hello!" (Some (ErrorObj "ratelimited"));
      Console (LogAttemptFailed 2 (ErrorObj "ratelimited")); Sleep 500;
      ChatUpdate (Some "1700000000.000200") "Hello!" None]).
Proof. reflexivity. Qed.

(* ===================================================================== *)
(** * After cancellation                                                  *)
(* ===================================================================== *)

Lemma later_isFinished k s : isFinished (later k s) = isFinished s.
Proof. induction k as [|k IH]; simpl; [reflexivity | exact IH]. Qed.

Lemma later_state k s : state (later k s) = state s.
Proof. induction k as [|k IH]; simpl; [reflexivity | exact IH]. Qed.

Lemma later_succ k s : later k (incr_awaits s) = later (S k) s.
Proof. unfold later. now rewrite Nat.iter_succ_r. Qed.

Lemma stopAnimation_run s :
  stopAnimation s
  = (Normal tt,
     set_animationTimer false (set_isFinished true s),
     if animationTimer s then [ClearInterval] else []).
Proof.
  unfold stopAnimation. repeat run_step.
  destruct s as [st ts f timer fin created r a]. simpl.
  destruct timer; reflexivity.
Qed.

Lemma tick_finished E s : isFinished s = true -> tick E s = (Normal tt, s, []).
Proof. intro H. unfold tick. run_step. rewrite H. reflexivity. Qed.

Lemma ticks_finished E n s :
  isFinished s = true -> times n (tick E) s = (Normal tt, s, []).
Proof.
  intro H. induction n as [|n IH]; simpl; [reflexivity|].
  rewrite run_bind, tick_finished by exact H. rewrite IH. reflexivity.
Qed.

Lemma updateSlack_finished E suspend text s :
  isFinished s = true -> updateSlack E suspend text s = (Normal tt, s, []).
Proof.
  intro H. unfold updateSlack. do 2 run_step. rewrite H, orb_true_r. reflexivity.
Qed.

Lemma await_finished E s :
  isFinished s = true -> await E s = (Normal tt, incr_awaits s, []).
Proof.
  intro H. unfold await. do 3 run_step.
  destruct (intervalCreated (incr_awaits s)); [|reflexivity].
  rewrite ticks_finished by exact H. reflexivity.
Qed.

(** Once the session is finished, the retry loop run inside it makes
    exactly the calls it makes on its own, whatever the timer delivers. *)
Lemma retry_loop_finished E update ts text maxAttempts attempt remaining s :
  isFinished s = true ->
  exists k,
    retry_loop (await E) update ts text maxAttempts attempt remaining s
    = (outcome_of (retry_loop (ret tt) update ts text maxAttempts attempt remaining tt),
       later k s,
       trace_of (retry_loop (ret tt) update ts text maxAttempts attempt remaining tt)).
Proof.
  revert attempt s. induction remaining as [|r IH]; intros attempt s H.
  - exists 0. reflexivity.
  - destruct (retry_loop_alone update ts text maxAttempts (attempt + 1) r) as [b [t [Hal _]]].
    simpl retry_loop. unfold chat_update, try_catch.
    rewrite !run_bind. cbn [emit outcome_of state_of trace_of fst snd].
    rewrite !run_bind. cbn [ret outcome_of state_of trace_of fst snd].
    rewrite await_finished by exact H.
    destruct (update attempt) as [err|].
    + cbn [throw ret outcome_of state_of trace_of fst snd].
      rewrite !run_bind. cbn [emit outcome_of state_of trace_of fst snd].
      rewrite !run_bind.
      destruct (attempt <? maxAttempts - 1)%nat.
      * rewrite !run_bind. cbn [emit ret outcome_of state_of trace_of fst snd].
        rewrite await_finished by exact H.
        cbn [ret outcome_of state_of trace_of fst snd].
        destruct (IH (attempt + 1) (incr_awaits (incr_awaits s))) as [k Hk]; [exact H|].
        rewrite Hk, Hal. cbn [outcome_of state_of trace_of fst snd].
        exists (S (S k)). rewrite !later_succ. reflexivity.
      * cbn [ret outcome_of state_of trace_of fst snd].
        destruct (IH (attempt + 1) (incr_awaits s)) as [k Hk]; [exact H|].
        rewrite Hk, Hal. cbn [outcome_of state_of trace_of fst snd].
        exists (S k). rewrite !later_succ. reflexivity.
    + cbn [ret outcome_of state_of trace_of fst snd]. exists 1. reflexivity.
Qed.

Lemma sendFinalMessage_finished E text s :
  isFinished s = true ->
  exists k,
    sendFinalMessage E text s
    = (Normal tt, later k s,
       snd (retrySlackUpdate_alone (finalUpdate E) (messageTs s) text 3)).
Proof.
  intro H. unfold sendFinalMessage. run_step.
  unfold retrySlackUpdate_alone, retrySlackUpdate.
  destruct (retry_loop_finished E (finalUpdate E) (messageTs s) text 3 0 3 s H) as [k Hk].
  destruct (retry_loop_alone (finalUpdate E) (messageTs s) text 3 0 3) as [b [t [Hal _]]].
  rewrite Hal in Hk. cbn [outcome_of state_of trace_of fst snd] in Hk.
  rewrite !run_bind, Hk, Hal. exists k.
  destruct b; reflexivity.
Qed.

Lemma stopped_finished s : isFinished (stopped s) = true.
Proof. reflexivity. Qed.

Lemma stopped_idempotent s : stopped (stopped s) = stopped s.
Proof. reflexivity. Qed.

(** The [catch] block always ends by throwing the error it was given. *)
Lemma reportFailure_run E error s :
  exists k,
    reportFailure E error s
    = (Throws error, later k (stopped s),
       (Console (LogStreamError error) :: stop_events s ++ report_events E s error)%list).
Proof.
  unfold reportFailure. run_step. rewrite run_bind, stopAnimation_run.
  cbn [outcome_of state_of trace_of fst snd]. fold (stopped s). fold (stop_events s).
  run_step. rewrite run_bind. unfold report_events.
  change (messageTs (stopped s)) with (messageTs s).
  destruct (present (messageTs s)).
  - destruct (sendFinalMessage_finished E (errorTextOf error) (stopped s)
                (stopped_finished s)) as [k Hk].
    rewrite Hk. cbn [throw outcome_of state_of trace_of fst snd].
    exists k. rewrite app_nil_r. reflexivity.
  - unfold try_catch. rewrite !run_bind.
    cbn [emit outcome_of state_of trace_of fst snd].
    rewrite !run_bind, await_finished by apply stopped_finished.
    cbn [outcome_of state_of trace_of fst snd].
    exists 1. destruct (errorPost E); reflexivity.
Qed.

(** The [try] block: it throws exactly when the part up to the end of the
    loop throws; otherwise the final write follows the cancellation. *)
Lemma streamBody_run E s :
  match consumeStream E s with
  | (Normal _, s1, t1) =>
      exists k,
        streamBody E s
        = (Normal tt, later k (stopped s1),
           (t1 ++ stop_events s1 ++
            snd (retrySlackUpdate_alone (finalUpdate E) (messageTs s1)
                   (finalText (state s1)) 3) ++
            [Console LogResponseSent])%list)
  | (Throws e, s1, t1) => streamBody E s = (Throws e, s1, t1)
  end.
Proof.
  unfold streamBody. rewrite run_bind.
  destruct (consumeStream E s) as [[[[]|e] s1] t1]; [|reflexivity].
  rewrite run_bind, stopAnimation_run.
  cbn [outcome_of state_of trace_of fst snd]. fold (stopped s1). fold (stop_events s1).
  run_step. rewrite run_bind.
  destruct (sendFinalMessage_finished E (finalText (state (stopped s1))) (stopped s1)
              (stopped_finished s1)) as [k Hk].
  rewrite Hk. cbn [emit outcome_of state_of trace_of fst snd].
  exists k. rewrite app_nil_l. reflexivity.
Qed.

(** The whole session, by the way the part up to the end of the loop ends. *)
Lemma streamToSlack_run E s :
  match consumeStream E s with
  | (Normal _, s1, t1) =>
      exists k,
        streamToSlack E s
        = (Normal tt, later k (stopped s1),
           (t1 ++ stop_events s1 ++
            snd (retrySlackUpdate_alone (finalUpdate E) (messageTs s1)
                   (finalText (state s1)) 3) ++
            [Console LogResponseSent])%list)
  | (Throws e, s1, t1) =>
      exists k,
        streamToSlack E s
        = (Throws e, later k (stopped s1),
           (t1 ++ Console (LogStreamError e) :: stop_events s1 ++ report_events E s1 e)%list)
  end.
Proof.
  pose proof (streamBody_run E s) as Hb. unfold streamToSlack, try_catch.
  destruct (consumeStream E s) as [[[[]|e] s1] t1].
  - destruct Hb as [k Hb]. rewrite Hb. now exists k.
  - rewrite Hb. destruct (reportFailure_run E e s1) as [k Hk]. rewrite Hk. now exists k.
Qed.

(** C6.  Once [stopAnimation] has run, whatever the state before: the
    session is finished; every timer callback that still runs, however many
    and at whatever later suspension point, makes no call and changes
    nothing; every [updateSlack] returns at its guard; a second
    [stopAnimation] is a no-op; and the calls made during the final write
    are exactly those of the retry helper, whatever the timer delivers
    meanwhile.  Every session ends finished, with the timer cleared. *)
Theorem no_render_after_cancellation (E : env) (s : sess) :
  let s' := state_of (stopAnimation s) in
  isFinished s' = true /\
  (forall n, times n (tick E) s' = (Normal tt, s', [])) /\
  (forall k, await E (later k s') = (Normal tt, later (S k) s', [])) /\
  (forall suspend text, updateSlack E suspend text s' = (Normal tt, s', [])) /\
  stopAnimation s' = (Normal tt, s', []) /\
  (forall text,
     trace_of (sendFinalMessage E text s')
     = snd (retrySlackUpdate_alone (finalUpdate E) (messageTs s') text 3)) /\
  isFinished (state_of (streamToSlack E s)) = true /\
  animationTimer (state_of (streamToSlack E s)) = false.
Proof.
  intro s'. subst s'. rewrite stopAnimation_run. cbn [state_of fst snd]. fold (stopped s).
  split; [reflexivity|].
  split; [intro n; apply ticks_finished; reflexivity|].
  split.
  { intro k. apply await_finished. now rewrite later_isFinished. }
  split; [intros; apply updateSlack_finished; reflexivity|].
  split; [apply (stopAnimation_run (stopped s))|].
  split.
  { intro text.
    destruct (sendFinalMessage_finished E text (stopped s) (stopped_finished s)) as [k Hk].
    now rewrite Hk. }
  pose proof (streamToSlack_run E s) as H.
  assert (Ht : forall k s1, animationTimer (later k (stopped s1)) = false).
  { intros k s1. induction k as [|k IH]; [reflexivity | exact IH]. }
  destruct (consumeStream E s) as [[[[]|e] s1] t1]; destruct H as [k Hk]; rewrite Hk;
    cbn [state_of fst snd]; now rewrite later_isFinished, Ht.
Qed.

(* ===================================================================== *)
(** * Text increments through a whole session                             *)
(* ===================================================================== *)

Lemma consumeStream_text_deltas E cs fl ts texts s :
  initialPost E = Normal ts ->
  getAgent E = Some (Normal (mkStream cs fl)) ->
  Forall2 carries_text cs texts ->
  text (state (state_of (consumeStream E s))) = text (state s) ++ String.concat "" texts.
Proof.
  intros Hpost Hagent Hcs. unfold consumeStream. rewrite Hpost, Hagent.
  do 2 run_step.
  rewrite run_bind. destruct (await_run E s) as [s1 [t1 [Ha Hs1]]]. rewrite Ha.
  cbn [outcome_of state_of trace_of fst snd].
  do 6 run_step.
  rewrite run_bind.
  destruct (await_run E (set_animationTimer true (mark_intervalCreated (set_messageTs ts s1))))
    as [s2 [t2 [Ha2 Hs2]]].
  rewrite Ha2. cbn [outcome_of state_of trace_of fst snd].
  run_step. cbn [chunks failure].
  rewrite (forAwait_text_deltas E cs texts fl s2 Hcs), Hs2. simpl. now rewrite Hs1.
Qed.

Lemma streamToSlack_final_text E s :
  text (state (state_of (streamToSlack E s))) = text (state (state_of (consumeStream E s))).
Proof.
  pose proof (streamToSlack_run E s) as H.
  destruct (consumeStream E s) as [[[[]|e] s1] t1]; destruct H as [k Hk]; rewrite Hk;
    cbn [state_of fst snd]; now rewrite later_state.
Qed.

(** C2.  For every ordered finite sequence of top-level text-delta chunks
    processed by the stream consumer, the accumulated text after processing
    equals the text before followed by the concatenation of the chunks'
    payload texts in arrival order.  This holds for the [for await] loop of
    the Slack host from any session state, whatever the timer does meanwhile
    and however the stream ends; for a whole Slack session, which starts
    from the empty text; and for the loop of the terminal host. *)
Theorem text_deltas_concatenate (cs : list chunk) (texts : list string) :
  Forall2 carries_text cs texts ->
  (forall E fl s,
     text (state (state_of (forAwait E cs fl s)))
     = text (state s) ++ String.concat "" texts) /\
  (forall E fl ts,
     initialPost E = Normal ts ->
     getAgent E = Some (Normal (mkStream cs fl)) ->
     text (state (state_of (streamToSlack E initialSess))) = String.concat "" texts) /\
  (forall fl st,
     text (state_of (terminalLoop cs fl st)) = text st ++ String.concat "" texts).
Proof.
  intro H. split; [|split].
  - intros E fl s. now apply forAwait_text_deltas.
  - intros E fl ts Hpost Hagent.
    rewrite streamToSlack_final_text.
    now rewrite (consumeStream_text_deltas E cs fl ts texts initialSess Hpost Hagent H).
  - intros fl st. now apply terminalLoop_text_deltas.
Qed.

Lemma text_deltas_concatenate_witness :
  Forall2 carries_text [text_delta "Hel"; text_delta "lo!"] ["Hel"; "lo!"] /\
  text (state (state_of
    (streamToSlack (sample_env (streaming [text_delta "Hel"; text_delta "lo!"])
                               rate_limited (every_suspension 3))
                   initialSess)))
  = "Hello!".
Proof.
  assert (H : Forall2 carries_text [text_delta "Hel"; text_delta "lo!"] ["Hel"; "lo!"]).
  { repeat constructor; apply text_delta_carries. }
  split; [exact H|].
  exact (proj1 (proj2 (text_deltas_concatenate _ _ H))
           (sample_env (streaming [text_delta "Hel"; text_delta "lo!"])
                       rate_limited (every_suspension 3))
           None (Some "1700000000.000200") eq_refl eq_refl).
Defined.

(* ===================================================================== *)
(** * Failures                                                            *)
(* ===================================================================== *)

(** C8.  For every failure [e] raised in the [try] block of a session, the
    consumer throws [e] itself to its caller after the report: it logs,
    cancels the animation, then writes the error text to the placeholder
    through the retry helper when a handle exists, and otherwise attempts
    one new post of the error text, whose own failure changes nothing.
    Conversely the session completes exactly as its [try] block does: the
    report never replaces or suppresses the failure and never adds one. *)
Theorem failure_reported_then_reraised (E : env) (s s1 : sess) (t1 : trace)
    (e : js_error) :
  streamBody E s = (Throws e, s1, t1) ->
  (exists k,
     streamToSlack E s
     = (Throws e, later k (stopped s1),
        (t1 ++ Console (LogStreamError e) :: stop_events s1 ++ report_events E s1 e)%list)) /\
  (present (messageTs s1) = true ->
   report_events E s1 e
   = snd (retrySlackUpdate_alone (finalUpdate E) (messageTs s1) (errorTextOf e) 3) /\
   exists rest,
     report_events E s1 e
     = ChatUpdate (messageTs s1) (errorTextOf e) (finalUpdate E 0) :: rest) /\
  (present (messageTs s1) = false ->
   report_events E s1 e = [PostMessage (threadTs E) (errorTextOf e) (errorPost E)]) /\
  (forall E', outcome_of (streamToSlack E' s) = outcome_of (streamBody E' s)).
Proof.
  intro Hbody. split; [|split; [|split]].
  - unfold streamToSlack, try_catch. rewrite Hbody.
    destruct (reportFailure_run E e s1) as [k Hk]. rewrite Hk. now exists k.
  - intro Hts. unfold report_events. rewrite Hts. split; [reflexivity|].
    rewrite retrySlackUpdate_alone_three. unfold three_attempts.
    destruct (finalUpdate E 0); [|now eexists].
    destruct (finalUpdate E 1); [|now eexists].
    destruct (finalUpdate E 2); now eexists.
  - intro Hts. unfold report_events. now rewrite Hts.
  - intro E'. unfold streamToSlack, try_catch.
    destruct (streamBody E' s) as [[[[]|e'] s2] t2]; [reflexivity|].
    destruct (reportFailure_run E' e' s2) as [k Hk]. now rewrite Hk.
Qed.

Lemma failure_reported_then_reraised_witness :
  streamBody unregistered_agent initialSess
  = (Throws agent_not_found,
     state_of (streamBody unregistered_agent initialSess),
     trace_of (streamBody unregistered_agent initialSess)) /\
  exists k,
    streamToSlack unregistered_agent initialSess
    = (Throws agent_not_found,
       later k (stopped (state_of (streamBody unregistered_agent initialSess))),
       (trace_of (streamBody unregistered_agent initialSess) ++
        Console (LogStreamError agent_not_found) ::
        stop_events (state_of (streamBody unregistered_agent initialSess)) ++
        report_events unregistered_agent
          (state_of (streamBody unregistered_agent initialSess)) agent_not_found)%list).
Proof.
  assert (H : streamBody unregistered_agent initialSess
              = (Throws agent_not_found,
                 state_of (streamBody unregistered_agent initialSess),
                 trace_of (streamBody unregistered_agent initialSess))) by reflexivity.
  split; [exact H|].
  exact (proj1 (failure_reported_then_reraised unregistered_agent initialSess _ _
                  agent_not_found H)).
Defined.

Example unregistered_agent_session :
  streamToSlack unregistered_agent initialSess
  = (Throws agent_not_found,
     mkSess initialState (Some "1700000000.000200") 0 false true true 0 6,
     [PostMessage "1700000000.000100" "⠋ Start..." None;
      SetInterval 300;
      Console (LogStreamError agent_not_found);
      ClearInterval;
      ChatUpdate (Some "1700000000.000200") (errorTextOf agent_not_found)
        (Some (ErrorObj "ratelimited"));
      Console (LogAttemptFailed 1 (ErrorObj "ratelimited")); Sleep 500;
      ChatUpdate (Some "1700000000.000200") (errorTextOf agent_not_found)
        (Some (ErrorObj "ratelimited"));
      Console (LogAttemptFailed 2 (ErrorObj "ratelimited")); Sleep 500;
      ChatUpdate (Some "1700000000.000200") (errorTextOf agent_not_found)
        (Some (ErrorObj "ratelimited"));
      Console (LogAttemptFailed 3 (ErrorObj "ratelimited"));
      Console (LogGaveUp 3)]).
Proof. reflexivity. Qed.

(* ===================================================================== *)
(** * The final text                                                      *)
(* ===================================================================== *)

Lemma last_update_text_app (a b : trace) :
  last_update_text (a ++ b)%list
  = match last_update_text b with
    | Some text => Some text
    | None => last_update_text a
    end.
Proof.
  induction a as [|e a IH]; simpl.
  - now destruct (last_update_text b).
  - rewrite IH. now destruct (last_update_text b).
Qed.

Lemma last_update_text_three update ts text :
  last_update_text (three_attempts update ts text) = Some text.
Proof.
  unfold three_attempts.
  destruct (update 0); [|reflexivity].
  destruct (update 1); [|reflexivity].
  destruct (update 2); reflexivity.
Qed.

(** The last update of a session that ends normally carries
    [state.text || fallback]. *)
Lemma normal_session_final_text E s s1 t1 :
  consumeStream E s = (Normal tt, s1, t1) ->
  (exists k,
     streamToSlack E s
     = (Normal tt, later k (stopped s1),
        (t1 ++ stop_events s1 ++
         snd (retrySlackUpdate_alone (finalUpdate E) (messageTs s1)
                (finalText (state s1)) 3) ++
         [Console LogResponseSent])%list)) /\
  last_update_text (trace_of (streamToSlack E s)) = Some (finalText (state s1)).
Proof.
  intro Hc. pose proof (streamToSlack_run E s) as H. rewrite Hc in H.
  destruct H as [k Hk]. split; [now exists k|].
  rewrite Hk. cbn [trace_of snd].
  rewrite retrySlackUpdate_alone_three, !last_update_text_app.
  cbn [last_update_text]. now rewrite last_update_text_three.
Qed.

(** C1, as stated, fails on the code.  When the agent streams nothing the
    final write carries ["Sorry, I couldn't generate a response."], which is
    not the string ["no response generated"]; and when the accumulated text
    is the single blank [" "] the final write carries that blank, not a
    fallback. *)
Lemma fallback_string_counterexample :
  text (state (state_of (consumeStream silent_agent initialSess))) = "" /\
  last_update_text (trace_of (streamToSlack silent_agent initialSess))
  = Some "Sorry, I couldn't generate a response." /\
  last_update_text (trace_of (streamToSlack silent_agent initialSess))
  <> Some "no response generated" /\
  text (state (state_of (consumeStream blank_agent initialSess))) = " " /\
  last_update_text (trace_of (streamToSlack blank_agent initialSess)) = Some " ".
Proof.
  split; [reflexivity|]. split; [reflexivity|]. split; [discriminate|].
  split; reflexivity.
Qed.

(** C1, amended.  For every chunk sequence whose accumulated text at stream
    end is empty, the final write carries the fixed fallback string
    ["Sorry, I couldn't generate a response."], never an empty string: the
    calls after the stream are the cancellation, the retry helper on the
    fallback string, and the success log line. *)
Theorem empty_text_falls_back (E : env) (s s1 : sess) (t1 : trace) :
  consumeStream E s = (Normal tt, s1, t1) ->
  text (state s1) = "" ->
  (exists k,
     streamToSlack E s
     = (Normal tt, later k (stopped s1),
        (t1 ++ stop_events s1 ++
         snd (retrySlackUpdate_alone (finalUpdate E) (messageTs s1) fallbackText 3) ++
         [Console LogResponseSent])%list)) /\
  last_update_text (trace_of (streamToSlack E s)) = Some fallbackText /\
  fallbackText = "Sorry, I couldn't generate a response." /\
  fallbackText <> "".
Proof.
  intros Hc Hempty.
  destruct (normal_session_final_text E s s1 t1 Hc) as [Hrun Hlast].
  assert (Hf : finalText (state s1) = fallbackText) by (unfold finalText; now rewrite Hempty).
  rewrite Hf in Hrun, Hlast.
  split; [exact Hrun|]. split; [exact Hlast|]. split; [reflexivity | discriminate].
Qed.

Lemma empty_text_falls_back_witness :
  consumeStream silent_agent initialSess
  = (Normal tt, state_of (consumeStream silent_agent initialSess),
     trace_of (consumeStream silent_agent initialSess)) /\
  text (state (state_of (consumeStream silent_agent initialSess))) = "" /\
  last_update_text (trace_of (streamToSlack silent_agent initialSess)) = Some fallbackText.
Proof.
  assert (H : consumeStream silent_agent initialSess
              = (Normal tt, state_of (consumeStream silent_agent initialSess),
                 trace_of (consumeStream silent_agent initialSess))) by reflexivity.
  assert (H0 : text (state (state_of (consumeStream silent_agent initialSess))) = "")
    by reflexivity.
  split; [exact H|]. split; [exact H0|].
  exact (proj1 (proj2 (empty_text_falls_back silent_agent initialSess _ _ H H0))).
Defined.

(** The terminal host does trim before it decides that nothing was said. *)
Example terminal_blank_session :
  streamToTerminal blank_agent initialState
  = (Normal tt,
     set_text " " (set_chunkType "text-delta" initialState),
     [StdoutWrite " ";
      StdoutWrite (newline ++ "⚠️  No response generated." ++ newline)]).
Proof. reflexivity. Qed.

Example hello_session :
  trace_of (streamToSlack
              (sample_env (streaming [text_delta "Hel"; text_delta "lo!"])
                          always_ok (every_suspension 0))
              initialSess)
  = [PostMessage "1700000000.000100" "⠋ Start..." None;
     SetInterval 300;
     ClearInterval;
     ChatUpdate (Some "1700000000.000200") "Hello!" None;
     Console LogResponseSent].
Proof. reflexivity. Qed.

(* ===================================================================== *)
(** * The status renderer                                                 *)
(* ===================================================================== *)

Example formatName_camel : formatName "reverseText" = "Reverse Text".
Proof. reflexivity. Qed.

Example formatName_kebab : formatName "analyze_text-now" = "Analyze Text Now".
Proof. reflexivity. Qed.

Example formatChunkType_tool : formatChunkType "tool-call" = "Tool Call".
Proof. reflexivity. Qed.

Example status_start : getStatusText initialState 0 = "⠋ Start...".
Proof. reflexivity. Qed.

Example status_tool :
  getStatusText (set_toolName (formatName "reverseText") (set_chunkType "tool-call" initialState)) 5
  = "⚙️ Tool Call: Reverse Text...".
Proof. reflexivity. Qed.

Lemma icon_at_period icons n f :
  length icons = n -> icon_at icons (f + n) = icon_at icons f.
Proof.
  intros <-. unfold icon_at. f_equal.
  rewrite <- (Nat.Div0.mod_add f 1 (length icons)). f_equal. lia.
Qed.

Lemma icon_at_period_mult icons f k :
  icon_at icons (f + k * length icons) = icon_at icons f.
Proof. unfold icon_at. now rewrite Nat.Div0.mod_add. Qed.

(** Icons of one set are told apart by the text that starts with them. *)
Tactic Notation "distinct_icons" integer(n) :=
  let H := fresh "H" in
  intros i j r Hi Hj;
  do n (destruct i as [|i];
        [ do n (destruct j as [|j];
                [ simpl; intro H; first [reflexivity | discriminate H] | ]);
          exfalso; lia
        | ]);
  exfalso; lia.

Lemma spinner_distinct : forall i j r, i < 10 -> j < 10 ->
  nth i SPINNER "undefined" ++ " " ++ r = nth j SPINNER "undefined" ++ " " ++ r -> i = j.
Proof. distinct_icons 10. Qed.

Lemma tool_icons_distinct : forall i j r, i < 4 -> j < 4 ->
  nth i TOOL_ICONS "undefined" ++ " " ++ r = nth j TOOL_ICONS "undefined" ++ " " ++ r -> i = j.
Proof. distinct_icons 4. Qed.

Lemma workflow_icons_distinct : forall i j r, i < 4 -> j < 4 ->
  nth i WORKFLOW_ICONS "undefined" ++ " " ++ r
  = nth j WORKFLOW_ICONS "undefined" ++ " " ++ r -> i = j.
Proof. distinct_icons 4. Qed.

Lemma mod_shift_differs f k n : 0 < k < n -> (f + k) mod n <> f mod n.
Proof.
  intros Hk Heq.
  pose proof (Nat.div_mod_eq f n) as Hf.
  pose proof (Nat.div_mod_eq (f + k) n) as Hfk.
  pose proof (Nat.mod_upper_bound f n ltac:(lia)) as Hb.
  rewrite Heq in Hfk.
  assert (Hq : k = n * ((f + k) / n) - n * (f / n)) by lia.
  assert (Hlt : f / n < (f + k) / n) by nia.
  nia.
Qed.

Lemma icon_text_differs icons n f k r :
  length icons = n ->
  (forall i j r, i < n -> j < n ->
     nth i icons "undefined" ++ " " ++ r = nth j icons "undefined" ++ " " ++ r -> i = j) ->
  0 < k < n ->
  icon_at icons (f + k) ++ " " ++ r <> icon_at icons f ++ " " ++ r.
Proof.
  intros Hlen Hinj Hk Heq. unfold icon_at in Heq. rewrite Hlen in Heq.
  apply Hinj in Heq; try (apply Nat.mod_upper_bound; lia).
  now apply (mod_shift_differs f k n Hk).
Qed.

(** C7.  [getStatusText] is a function of the display state and the frame
    alone, so equal arguments give the identical string.  Varying only the
    frame, the string repeats with the length of the icon set of the branch
    taken, and with no shorter period: 4 in the tool branch, 4 in the
    workflow branch, 10 in the branches that show the default spinner. *)
Theorem status_text_cycles (st : StreamState) (f : nat) :
  (forall st' f', st' = st -> f' = f -> getStatusText st' f' = getStatusText st f) /\
  (startsWith "tool-" (chunkType st) && present (toolName st) = true ->
   getStatusText st (f + 4) = getStatusText st f /\
   forall k, 0 < k < 4 -> getStatusText st (f + k) <> getStatusText st f) /\
  (startsWith "tool-" (chunkType st) && present (toolName st) = false ->
   startsWith "workflow-" (chunkType st) && present (stepName st) = true ->
   getStatusText st (f + 4) = getStatusText st f /\
   forall k, 0 < k < 4 -> getStatusText st (f + k) <> getStatusText st f) /\
  (startsWith "tool-" (chunkType st) && present (toolName st) = false ->
   startsWith "workflow-" (chunkType st) && present (stepName st) = false ->
   getStatusText st (f + 10) = getStatusText st f /\
   forall k, 0 < k < 10 -> getStatusText st (f + k) <> getStatusText st f).
Proof.
  split; [intros st' f' -> ->; reflexivity|].
  split; [|split].
  - intro Ht. unfold getStatusText. rewrite Ht. split.
    + now rewrite (icon_at_period TOOL_ICONS 4 f eq_refl).
    + intros k Hk. apply (icon_text_differs TOOL_ICONS 4);
        [reflexivity | exact tool_icons_distinct | exact Hk].
  - intros Ht Hw. unfold getStatusText. rewrite Ht, Hw. split.
    + now rewrite (icon_at_period WORKFLOW_ICONS 4 f eq_refl).
    + intros k Hk. apply (icon_text_differs WORKFLOW_ICONS 4);
        [reflexivity | exact workflow_icons_distinct | exact Hk].
  - intros Ht Hw. unfold getStatusText. rewrite Ht, Hw.
    destruct (includes "agent" (chunkType st) && present (agentName st)); split;
      try (now rewrite (icon_at_period SPINNER 10 f eq_refl));
      intros k Hk; apply (icon_text_differs SPINNER 10);
        first [reflexivity | exact spinner_distinct | exact Hk].
Qed.

(** Whatever the branch, the string repeats every 20 frames. *)
Lemma status_text_common_period st f : getStatusText st (f + 20) = getStatusText st f.
Proof.
  unfold getStatusText.
  change (icon_at SPINNER (f + 20)) with (icon_at SPINNER (f + 2 * length SPINNER)).
  change (icon_at TOOL_ICONS (f + 20)) with (icon_at TOOL_ICONS (f + 5 * length TOOL_ICONS)).
  change (icon_at WORKFLOW_ICONS (f + 20))
    with (icon_at WORKFLOW_ICONS (f + 5 * length WORKFLOW_ICONS)).
  now rewrite !icon_at_period_mult.
Qed.

Lemma status_text_cycles_witness :
  (startsWith "tool-" (chunkType tool_state) && present (toolName tool_state) = true /\
   getStatusText tool_state (5 + 4) = getStatusText tool_state 5) /\
  (startsWith "tool-" (chunkType workflow_state) && present (toolName workflow_state) = false /\
   startsWith "workflow-" (chunkType workflow_state) && present (stepName workflow_state) = true /\
   getStatusText workflow_state (5 + 4) = getStatusText workflow_state 5) /\
  (startsWith "tool-" (chunkType initialState) && present (toolName initialState) = false /\
   startsWith "workflow-" (chunkType initialState) && present (stepName initialState) = false /\
   getStatusText initialState (5 + 10) = getStatusText initialState 5).
Proof.
  split; [|split].
  - split; [reflexivity|].
    apply (proj1 (proj1 (proj2 (status_text_cycles tool_state 5)) eq_refl)).
  - split; [reflexivity|]. split; [reflexivity|].
    apply (proj1 (proj1 (proj2 (proj2 (status_text_cycles workflow_state 5))) eq_refl eq_refl)).
  - split; [reflexivity|]. split; [reflexivity|].
    apply (proj1 (proj2 (proj2 (proj2 (status_text_cycles initialState 5))) eq_refl eq_refl)).
Defined.

Example status_frames :
  map (getStatusText tool_state) [0; 1; 2; 3; 4]
  = ["🔄 Tool Call: Reverse Text..."; "⚙️ Tool Call: Reverse Text...";
     "🔧 Tool Call: Reverse Text..."; "⚡ Tool Call: Reverse Text...";
     "🔄 Tool Call: Reverse Text..."].
Proof. reflexivity. Qed.

(* ===================================================================== *)
(** * Request verification                                                *)
(* ===================================================================== *)

Section RequestFacts.
Import Verify.
Local Open Scope Z_scope.

Example parseInt_plain : parseInt "1700000000" = Some 1700000000.
Proof. reflexivity. Qed.
Example parseInt_prefix : parseInt "  42abc" = Some 42.
Proof. reflexivity. Qed.
Example parseInt_negative : parseInt "-17" = Some (-17).
Proof. reflexivity. Qed.
Example parseInt_hex : parseInt "0x1F" = Some 31.
Proof. reflexivity. Qed.
Example parseInt_word : parseInt "yesterday" = None.
Proof. reflexivity. Qed.
Example parseInt_empty : parseInt "" = None.
Proof. reflexivity. Qed.
Example parseInt_bare_prefix : parseInt "0x" = None.
Proof. reflexivity. Qed.

Lemma signatures_equal_true mine requestSignature :
  signatures_equal mine requestSignature = true <-> requestSignature = mine.
Proof.
  unfold signatures_equal. split.
  - destruct (negb _); [discriminate|]. intro H. symmetry. now apply String.eqb_eq.
  - intros ->. rewrite Nat.eqb_refl. simpl. apply String.eqb_refl.
Qed.

(** C10.  A timestamp that does not parse as an integer is never rejected
    as too old: the request is then accepted exactly when the signature
    passes the length guard and the byte comparison.  The freshness check
    rejects exactly the timestamps that parse to a number strictly below
    now (in seconds) minus 300; every other timestamp, however far in the
    future, is left to the signature check; and an accepted request always
    carries the expected signature. *)
Theorem unparsable_timestamp_not_stale
    (hmac_sha256_hex : string -> string -> string) (now : Z)
    (signingSecret requestSignature timestamp body : string) :
  (parseInt timestamp = None ->
   verifySlackRequest hmac_sha256_hex now signingSecret requestSignature timestamp body
   = signatures_equal (mySignature hmac_sha256_hex signingSecret timestamp body)
                      requestSignature) /\
  (forall n, parseInt timestamp = Some n -> now / 1000 - 300 <= n ->
   verifySlackRequest hmac_sha256_hex now signingSecret requestSignature timestamp body
   = signatures_equal (mySignature hmac_sha256_hex signingSecret timestamp body)
                      requestSignature) /\
  (forall n, parseInt timestamp = Some n -> n < now / 1000 - 300 ->
   verifySlackRequest hmac_sha256_hex now signingSecret requestSignature timestamp body
   = false) /\
  (verifySlackRequest hmac_sha256_hex now signingSecret requestSignature timestamp body
   = true ->
   requestSignature = mySignature hmac_sha256_hex signingSecret timestamp body).
Proof.
  unfold verifySlackRequest. change (60 * 5) with 300.
  split; [|split; [|split]].
  - intros ->. reflexivity.
  - intros n -> Hn. simpl number_lt.
    destruct (Z.ltb_spec n (now / 1000 - 300)); [lia | reflexivity].
  - intros n -> Hn. simpl number_lt.
    destruct (Z.ltb_spec n (now / 1000 - 300)); [reflexivity | lia].
  - destruct (number_lt _ _); [discriminate|]. apply signatures_equal_true.
Qed.

Lemma unparsable_timestamp_not_stale_witness :
  parseInt "yesterday" = None /\
  verifySlackRequest sample_mac 1700000000000 "secret" "v0=00" "yesterday" "{}" = true /\
  parseInt "9999999999" = Some 9999999999 /\
  verifySlackRequest sample_mac 1700000000000 "secret" "v0=00" "9999999999" "{}" = true /\
  parseInt "1699999699" = Some 1699999699 /\
  verifySlackRequest sample_mac 1700000000000 "secret" "v0=00" "1699999699" "{}" = false.
Proof.
  split; [reflexivity|]. split.
  - rewrite (proj1 (unparsable_timestamp_not_stale sample_mac 1700000000000
                      "secret" "v0=00" "yesterday" "{}") eq_refl).
    reflexivity.
  - split; [reflexivity|]. split.
    + rewrite (proj1 (proj2 (unparsable_timestamp_not_stale sample_mac 1700000000000
                               "secret" "v0=00" "9999999999" "{}"))
                 9999999999 eq_refl ltac:(vm_compute; discriminate)).
      reflexivity.
    + split; [reflexivity|].
      apply (proj1 (proj2 (proj2 (unparsable_timestamp_not_stale sample_mac 1700000000000
                               "secret" "v0=00" "1699999699" "{}")))
                 1699999699 eq_refl).
      reflexivity.
Defined.

End RequestFacts.

(* ===================================================================== *)
(** * Title-casing of kinds and names                                     *)
(* ===================================================================== *)

Lemma split_on_nonempty sep s : split_on sep s <> [].
Proof.
  destruct s as [|a s]; simpl; [discriminate|].
  destruct (sep a); [discriminate|]. destruct (split_on sep s); discriminate.
Qed.

Lemma concat_cons_cons (sep x y : string) (l : list string) :
  String.concat sep (x :: y :: l) = x ++ sep ++ String.concat sep (y :: l).
Proof. reflexivity. Qed.

Lemma every_char_append p a b :
  every_char p (a ++ b) = every_char p a && every_char p b.
Proof. induction a as [|x a IH]; simpl; [reflexivity | now rewrite IH, andb_assoc]. Qed.

Lemma split_at_append n : forall s first rest,
  split_at n s = Some (first, rest) -> s = first ++ rest.
Proof.
  induction n as [|n IH]; intros s first rest; simpl.
  - intro H. now injection H as <- <-.
  - destruct s as [|a s]; [discriminate|].
    destruct (split_at n s) as [[f r]|] eqn:Hs; [|discriminate].
    intro H. injection H as <- <-. simpl. f_equal. now apply IH.
Qed.

Lemma upper_case_of_In c table image :
  upper_case_of c table = Some image -> In (c, image) table.
Proof.
  induction table as [|[c' u] table IH]; simpl; [discriminate|].
  destruct (String.eqb_spec c c') as [->|_].
  - intro H. injection H as ->. now left.
  - intro H. right. now apply IH.
Qed.

(** Capitalising keeps a property of the characters of a word that the
    ASCII capitals and the images of the table have. *)
Lemma every_char_capitalize p w :
  (forall a, p a = true -> p (upper a) = true) ->
  forallb (fun entry => every_char p (snd entry)) upper_case_table = true ->
  every_char p w = true -> every_char p (capitalize w) = true.
Proof.
  intros Hup Htable. destruct w as [|a w]; [auto|].
  unfold capitalize. intro H.
  destruct (sequence_length a) as [|[|[|[|n]]]]; try exact H.
  - simpl in H |- *. apply andb_true_iff in H as [Ha Hw]. now rewrite (Hup a Ha), Hw.
  - destruct (split_at 2 (String a w)) as [[first rest]|] eqn:Hs; [|exact H].
    destruct (upper_case_of first upper_case_table) as [image|] eqn:Hi; [|exact H].
    apply split_at_append in Hs. rewrite Hs, every_char_append in H.
    apply andb_true_iff in H as [_ Hrest].
    apply upper_case_of_In in Hi. rewrite forallb_forall in Htable.
    pose proof (Htable _ Hi) as Himage. cbn [snd] in Himage.
    rewrite every_char_append, Himage. exact Hrest.
  - destruct (split_at 3 (String a w)) as [[first rest]|] eqn:Hs; [|exact H].
    destruct (upper_case_of first upper_case_table) as [image|] eqn:Hi; [|exact H].
    apply split_at_append in Hs. rewrite Hs, every_char_append in H.
    apply andb_true_iff in H as [_ Hrest].
    apply upper_case_of_In in Hi. rewrite forallb_forall in Htable.
    pose proof (Htable _ Hi) as Himage. cbn [snd] in Himage.
    rewrite every_char_append, Himage. exact Hrest.
Qed.

Lemma images_without_separator :
  forallb (fun entry =>
             every_char (fun a => negb (is_dash_or_underscore a)) (snd entry))
          upper_case_table = true.
Proof. vm_compute. reflexivity. Qed.

Lemma images_without_dash :
  forallb (fun entry => every_char (fun a => negb (is_dash a)) (snd entry))
          upper_case_table = true.
Proof. vm_compute. reflexivity. Qed.

Lemma images_not_empty :
  forallb (fun entry => negb (is_empty (snd entry))) upper_case_table = true.
Proof. vm_compute. reflexivity. Qed.

(** Only the empty word is capitalised into the empty word. *)
Lemma capitalize_empty w : capitalize w = "" -> w = "".
Proof.
  destruct w as [|a w]; [reflexivity|]. unfold capitalize.
  assert (Himage : forall n first rest image,
            split_at n (String a w) = Some (first, rest) ->
            upper_case_of first upper_case_table = Some image ->
            image ++ rest <> "").
  { intros n first rest image _ Hi Heq. apply upper_case_of_In in Hi.
    pose proof images_not_empty as Ht. rewrite forallb_forall in Ht.
    specialize (Ht _ Hi). simpl in Ht. destruct image; [discriminate | discriminate]. }
  destruct (sequence_length a) as [|[|[|[|n]]]]; try discriminate.
  - destruct (split_at 2 (String a w)) as [[first rest]|] eqn:Hs; [|discriminate].
    destruct (upper_case_of first upper_case_table) as [image|] eqn:Hi; [|discriminate].
    intro H. exfalso. exact (Himage _ _ _ _ Hs Hi H).
  - destruct (split_at 3 (String a w)) as [[first rest]|] eqn:Hs; [|discriminate].
    destruct (upper_case_of first upper_case_table) as [image|] eqn:Hi; [|discriminate].
    intro H. exfalso. exact (Himage _ _ _ _ Hs Hi H).
Qed.

(** The words of a split contain no separator. *)
Lemma split_on_words sep s :
  Forall (fun w => every_char (fun a => negb (sep a)) w = true) (split_on sep s).
Proof.
  induction s as [|a s IH]; simpl; [repeat constructor|].
  destruct (sep a) eqn:Ha.
  - constructor; [reflexivity | exact IH].
  - destruct (split_on sep s) as [|w ws]; [repeat constructor; simpl; now rewrite Ha|].
    inversion IH as [|? ? Hw Hws]; subst. constructor; [|exact Hws].
    simpl. now rewrite Ha, Hw.
Qed.

Lemma join_words_every p (l : list string) :
  p " "%char = true ->
  (forall a, p a = true -> p (upper a) = true) ->
  forallb (fun entry => every_char p (snd entry)) upper_case_table = true ->
  Forall (fun w => every_char p w = true) l ->
  every_char p (join_space (map capitalize l)) = true.
Proof.
  intros Hsp Hup Htable H. unfold join_space. induction H as [|x l Hx Hl IH]; [reflexivity|].
  destruct l as [|y l]; [now apply every_char_capitalize|].
  change (map capitalize (x :: y :: l)) with (capitalize x :: capitalize y :: map capitalize l).
  rewrite concat_cons_cons, !every_char_append.
  rewrite (every_char_capitalize p x Hup Htable Hx). simpl. rewrite Hsp. simpl. exact IH.
Qed.

Lemma upper_keeps_non_separator a :
  negb (is_dash_or_underscore a) = true -> negb (is_dash_or_underscore (upper a)) = true.
Proof. destruct a as [[] [] [] [] [] [] [] []]; intro H; solve [reflexivity | discriminate H]. Qed.

Lemma upper_keeps_non_dash a : negb (is_dash a) = true -> negb (is_dash (upper a)) = true.
Proof. destruct a as [[] [] [] [] [] [] [] []]; intro H; solve [reflexivity | discriminate H]. Qed.

Lemma append_empty_inv (a b : string) : a ++ b = "" -> a = "" /\ b = "".
Proof. destruct a; simpl; [now split | discriminate]. Qed.

(** Words joined into the empty string: no word, or the empty word alone. *)
Lemma join_capitalized_empty (l : list string) :
  join_space (map capitalize l) = "" -> l = [] \/ l = [""].
Proof.
  unfold join_space. destruct l as [|x [|y l]]; [now left | |].
  - simpl. intro H. right. now rewrite (capitalize_empty _ H).
  - change (map capitalize (x :: y :: l)) with (capitalize x :: capitalize y :: map capitalize l).
    rewrite concat_cons_cons. intro H.
    apply append_empty_inv in H. destruct H as [_ H]. discriminate.
Qed.

Lemma split_on_empty_word sep s : split_on sep s = [""] -> s = "".
Proof.
  destruct s as [|a s]; [reflexivity|]. simpl.
  pose proof (split_on_nonempty sep s) as Hne.
  destruct (sep a).
  - intro H. injection H as H. congruence.
  - destruct (split_on sep s); discriminate.
Qed.

Lemma camel_to_spaced_empty s : camel_to_spaced s = "" -> s = "".
Proof.
  destruct s as [|a [|b r]]; simpl; try discriminate; [reflexivity|].
  destruct (is_lower a && is_upper b); discriminate.
Qed.

(** [formatChunkType] turns every hyphen into a space: the label it gives
    holds no hyphen, whatever the letters of the kind and their capitals
    are, and it is empty for the empty kind only. *)
Theorem formatChunkType_shape (t : string) :
  every_char (fun a => negb (is_dash a)) (formatChunkType t) = true /\
  (formatChunkType t = "" <-> t = "").
Proof.
  unfold formatChunkType. split.
  - apply join_words_every;
      [reflexivity | exact upper_keeps_non_dash | exact images_without_dash
      | apply split_on_words].
  - split; [|intros ->; reflexivity].
    intro H. apply join_capitalized_empty in H. destruct H as [H|H].
    + now apply split_on_nonempty in H.
    + now apply split_on_empty_word in H.
Qed.

(** [formatName] leaves no hyphen and no underscore in a name, whatever
    its letters and their capitals are, and gives the empty name for the
    empty identifier only. *)
Theorem formatName_shape (id : string) :
  every_char (fun a => negb (is_dash_or_underscore a)) (formatName id) = true /\
  (formatName id = "" <-> id = "").
Proof.
  unfold formatName. split.
  - apply join_words_every;
      [reflexivity | exact upper_keeps_non_separator | exact images_without_separator
      | apply split_on_words].
  - split; [|intros ->; reflexivity].
    intro H. apply join_capitalized_empty in H. destruct H as [H|H].
    + now apply split_on_nonempty in H.
    + apply split_on_empty_word in H. now apply camel_to_spaced_empty.
Qed.

(* ===================================================================== *)
(** * The loop body of the Slack consumer, case by case                   *)
(* ===================================================================== *)






Example tool_call_run :
  processChunk ticking_env (tool_call "reverseText") live_session
  = (Normal tt,
     mkSess (set_toolName "Reverse Text" (set_chunkType "tool-call" initialState))
            (Some "1700000000.000200") 3 true false true 3 2,
     [ChatUpdate (Some "1700000000.000200") "⚙️ Tool Call: Reverse Text..." None;
      ChatUpdate (Some "1700000000.000200") "🔧 Tool Call: Reverse Text..." None;
      Sleep 300;
      ChatUpdate (Some "1700000000.000200") "⚡ Tool Call: Reverse Text..." None]).
Proof. reflexivity. Qed.

(** A workflow start: the workflow name is recorded from [payload.name], or
    from [payload.workflowId] when the name is falsy, and the step name
    becomes ["Starting"]; no call is made and no pause is taken.  What the
    status line then shows is the step name: the recorded workflow name is
    not displayed. *)
Theorem workflow_start_is_silent (E : env) (s : sess) (c : chunk) (p : jsval) (w : string) :
  type c = "workflow-execution-start" ->
  payload c = Some p ->
  or_else (get "name" p) (get "workflowId" p) = JStr w ->
  processChunk E c s
  = (Normal tt,
     with_state (fun st => set_stepName "Starting"
                   (set_workflowName (formatName w)
                      (set_chunkType "workflow-execution-start" st))) s,
     []) /\
  forall f,
    getStatusText (state (state_of (processChunk E c s))) f
    = icon_at WORKFLOW_ICONS f ++ " Workflow Execution Start: Starting...".
Proof.
  intros Hty Hp Hw.
  assert (Hobj : exists fields, p = JObj fields).
  { unfold or_else in Hw. destruct (truthy (get "name" p)) eqn:Ht.
    - destruct p; simpl in Ht; try discriminate. now eexists.
    - apply (get_string_object _ _ _ Hw). }
  destruct Hobj as [fields ->].
  assert (Hrun : processChunk E c s
    = (Normal tt,
       with_state (fun st => set_stepName "Starting"
                     (set_workflowName (formatName w)
                        (set_chunkType "workflow-execution-start" st))) s,
       [])).
  { unfold processChunk, payload_value. rewrite Hty, Hp. simpl String.eqb. cbv iota.
    run_step. run_step. rewrite Hw. cbn [formatName_js]. run_step. run_step.
    destruct s; reflexivity. }
  split; [exact Hrun|]. intro f. rewrite Hrun. reflexivity.
Qed.

Lemma workflow_start_is_silent_witness :
  processChunk ticking_env
    (workflow_start [("name", JStr ""); ("workflowId", JStr "analyze-text")]) live_session
  = (Normal tt,
     with_state (fun st => set_stepName "Starting"
                   (set_workflowName (formatName "analyze-text")
                      (set_chunkType "workflow-execution-start" st))) live_session,
     []).
Proof.
  apply (proj1 (workflow_start_is_silent ticking_env live_session
                  (workflow_start [("name", JStr ""); ("workflowId", JStr "analyze-text")])
                  (JObj [("name", JStr ""); ("workflowId", JStr "analyze-text")])
                  "analyze-text" eq_refl eq_refl eq_refl)).
Defined.

(** ** What the loop never touches *)

Lemma closure_stable_refl s : closure_stable s s.
Proof. unfold closure_stable. repeat split; lia. Qed.

Lemma closure_stable_trans a b c :
  closure_stable a b -> closure_stable b c -> closure_stable a c.
Proof. unfold closure_stable. intros (?&?&?&?&?&?) (?&?&?&?&?&?). repeat split; try congruence; lia. Qed.

Ltac keeps_closure := repeat keeps_step closure_stable_refl closure_stable_trans.
Ltac closure_trivial :=
  solve [unfold closure_stable; simpl; repeat split; lia].

Lemma updateSlack_closure_stable E suspend text :
  keeps closure_stable suspend -> keeps closure_stable (updateSlack E suspend text).
Proof.
  intro Hs. unfold updateSlack, chat_update.
  keeps_closure; try closure_trivial; exact Hs.
Qed.

Lemma tick_closure_stable E : keeps closure_stable (tick E).
Proof.
  unfold tick. keeps_closure; try closure_trivial.
  apply updateSlack_closure_stable. keeps_closure.
Qed.

Lemma await_closure_stable E : keeps closure_stable (await E).
Proof. unfold await. keeps_closure; try closure_trivial. apply tick_closure_stable. Qed.

Lemma processChunk_closure_stable E c : keeps closure_stable (processChunk E c).
Proof.
  unfold processChunk, sleep.
  keeps_closure; try closure_trivial;
    first [apply updateSlack_closure_stable; apply await_closure_stable
          | apply await_closure_stable].
Qed.

Lemma forAwait_closure_stable E cs fl : keeps closure_stable (forAwait E cs fl).
Proof.
  induction cs as [|c cs IH]; simpl.
  - keeps_closure. apply await_closure_stable.
  - keeps_closure; [apply await_closure_stable | apply processChunk_closure_stable | exact IH].
Qed.

(** Whatever the chunk, its processing (with the renders, pauses and timer
    callbacks it lets run) leaves the placeholder handle, the finished flag
    and the timer handle as they were, and never moves the frame counter
    back; the same holds for a whole [for await] loop.  In particular the
    loop cannot finish or restart a session. *)
Theorem loop_keeps_closure (E : env) (s : sess) :
  (forall c, closure_stable s (state_of (processChunk E c s))) /\
  (forall cs fl, closure_stable s (state_of (forAwait E cs fl s))).
Proof.
  split.
  - intro c. apply processChunk_closure_stable.
  - intros cs fl. apply forAwait_closure_stable.
Qed.

(** ** The timer callback on a running session *)

(** On a session that is not finished the timer callback advances the frame
    by one; when the placeholder exists it issues exactly one update, with
    the status text of the new frame, and returns normally with the same
    state whether Slack accepts or rejects that update; without a
    placeholder it issues nothing. *)
Theorem tick_renders_once (E : env) (s : sess) :
  isFinished s = false ->
  (present (messageTs s) = true ->
   tick E s
   = (Normal tt, incr_renders (incr_frame s),
      [ChatUpdate (messageTs s) (getStatusText (state s) (S (frame s)))
                  (renderUpdate E (renders s))])) /\
  (present (messageTs s) = false -> tick E s = (Normal tt, incr_frame s, [])).
Proof.
  intro Hfin. split; intro Hts.
  - unfold tick. run_step. rewrite Hfin. cbn [negb]. run_step.
    unfold updateSlack. do 2 run_step.
    change (messageTs (incr_frame s)) with (messageTs s).
    change (isFinished (incr_frame s)) with (isFinished s).
    rewrite Hts, Hfin. cbn [negb orb]. do 4 run_step.
    unfold try_catch, chat_update. rewrite !run_bind.
    cbn [emit ret outcome_of state_of trace_of fst snd].
    change (renders (incr_frame s)) with (renders s).
    destruct (renderUpdate E (renders s)); reflexivity.
  - unfold tick. run_step. rewrite Hfin. cbn [negb]. run_step.
    unfold updateSlack. do 2 run_step.
    change (messageTs (incr_frame s)) with (messageTs s).
    rewrite Hts. reflexivity.
Qed.

Lemma tick_renders_once_witness :
  tick ticking_env live_session
  = (Normal tt, incr_renders (incr_frame live_session),
     [ChatUpdate (messageTs live_session)
        (getStatusText (state live_session) (S (frame live_session)))
        (renderUpdate ticking_env (renders live_session))]).
Proof.
  apply (proj1 (tick_renders_once ticking_env live_session eq_refl) eq_refl).
Defined.

(** ** A placeholder without a handle *)

Lemma update_calls_app (a b : trace) :
  update_calls (a ++ b)%list = update_calls a + update_calls b.
Proof.
  induction a as [|e a IH]; [reflexivity|]. destruct e; simpl; now rewrite IH.
Qed.

Lemma quiet_ret {A} (a : A) : quiet (ret a).
Proof. intros s H. now split. Qed.

Lemma quiet_throw {A} (e : js_error) : quiet (@throw sess A e).
Proof. intros s H. now split. Qed.

Lemma quiet_eval {A} (o : outcome A) : quiet (@eval sess A o).
Proof. intros s H. now split. Qed.

Lemma quiet_gets {A} (f : sess -> A) : quiet (gets f).
Proof. intros s H. now split. Qed.

Lemma quiet_modify (f : sess -> sess) :
  (forall s, present (messageTs s) = false -> present (messageTs (f s)) = false) ->
  quiet (modify f).
Proof. intros Hf s H. split; [now apply Hf | reflexivity]. Qed.

Lemma quiet_emit (e : event) : update_calls [e] = 0 -> quiet (emit e).
Proof. intros He s H. now split. Qed.

Lemma quiet_bind {A B} (m : M sess A) (k : A -> M sess B) :
  quiet m -> (forall a, quiet (k a)) -> quiet (bind m k).
Proof.
  intros Hm Hk s H. rewrite run_bind.
  destruct (Hm s H) as [H1 H2].
  destruct (m s) as [[[a|e] s1] t1]; cbn [state_of trace_of fst snd] in *; [|now split].
  destruct (Hk a s1 H1) as [H3 H4]. split; [exact H3|].
  rewrite update_calls_app. lia.
Qed.

Lemma quiet_bind_value {A B} (a : A) (k : A -> M sess B) :
  quiet (k a) -> quiet (bind (eval (Normal a)) k).
Proof.
  intros Hk s H. rewrite run_bind. cbn [eval outcome_of state_of trace_of fst snd].
  destruct (Hk s H) as [H1 H2]. now split.
Qed.

Lemma quiet_try_catch {A} (body : M sess A) (handler : js_error -> M sess A) :
  quiet body -> (forall e, quiet (handler e)) -> quiet (try_catch body handler).
Proof.
  intros Hb Hh s H. unfold try_catch.
  destruct (Hb s H) as [H1 H2].
  destruct (body s) as [[[a|e] s1] t1]; cbn [state_of trace_of fst snd] in *; [now split|].
  destruct (Hh e s1 H1) as [H3 H4].
  destruct (handler e s1) as [[o s2] t2]; cbn [state_of trace_of fst snd] in *.
  split; [exact H3|]. rewrite update_calls_app. lia.
Qed.

Lemma quiet_times (n : nat) (m : M sess unit) : quiet m -> quiet (times n m).
Proof.
  intro Hm. induction n as [|n IH]; simpl.
  - apply quiet_ret.
  - apply quiet_bind; [exact Hm | intros _; exact IH].
Qed.

Ltac quiet_step :=
  lazymatch goal with
  | |- quiet (bind _ _) => apply quiet_bind; [|intro]
  | |- quiet (try_catch _ _) => apply quiet_try_catch; [|intro]
  | |- quiet (times _ _) => apply quiet_times
  | |- quiet (ret _) => apply quiet_ret
  | |- quiet (throw _) => apply quiet_throw
  | |- quiet (eval _) => apply quiet_eval
  | |- quiet (gets _) => apply quiet_gets
  | |- quiet (emit _) => apply quiet_emit; reflexivity
  | |- quiet (modify _) => apply quiet_modify; intros ? ?; assumption
  | |- quiet (if ?b then _ else _) => destruct b
  | |- quiet (match ?x with _ => _ end) => destruct x
  end.

Lemma updateSlack_quiet E suspend text : quiet (updateSlack E suspend text).
Proof.
  intros s H. unfold updateSlack. do 2 run_step. rewrite H. now split.
Qed.

Lemma tick_quiet E : quiet (tick E).
Proof. unfold tick. repeat quiet_step. apply updateSlack_quiet. Qed.

Lemma await_quiet E : quiet (await E).
Proof. unfold await. repeat quiet_step. apply tick_quiet. Qed.

Lemma processChunk_quiet E c : quiet (processChunk E c).
Proof.
  unfold processChunk, sleep.
  repeat quiet_step; first [apply updateSlack_quiet | apply await_quiet].
Qed.

Lemma forAwait_quiet E cs fl : quiet (forAwait E cs fl).
Proof.
  induction cs as [|c cs IH]; simpl.
  - repeat quiet_step. apply await_quiet.
  - repeat quiet_step; [apply await_quiet | apply processChunk_quiet | exact IH].
Qed.

Lemma consumeStream_quiet E ts :
  initialPost E = Normal ts -> present ts = false -> quiet (consumeStream E).
Proof.
  intros Hpost Hts. unfold consumeStream. rewrite Hpost.
  do 3 quiet_step; [apply await_quiet|].
  apply quiet_bind_value.
  apply quiet_bind; [apply quiet_modify; intros ? ?; exact Hts | intro].
  repeat quiet_step; try apply await_quiet; try apply forAwait_quiet.
Qed.

(** When Slack's answer to the placeholder post carries no usable [ts],
    nothing is rendered while the stream is consumed, whatever the chunks
    and the timer; a stream that ends normally still sends its final text
    through the retry helper, to that missing handle, while a failure is
    reported by a new post instead. *)
Theorem no_handle_no_render (E : env) (ts : option string) :
  initialPost E = Normal ts ->
  present ts = false ->
  update_calls (trace_of (consumeStream E initialSess)) = 0 /\
  present (messageTs (state_of (consumeStream E initialSess))) = false /\
  match consumeStream E initialSess with
  | (Normal _, s1, t1) =>
      exists k,
        streamToSlack E initialSess
        = (Normal tt, later k (stopped s1),
           (t1 ++ stop_events s1 ++
            three_attempts (finalUpdate E) (messageTs s1) (finalText (state s1)) ++
            [Console LogResponseSent])%list)
  | (Throws e, s1, t1) =>
      exists k,
        streamToSlack E initialSess
        = (Throws e, later k (stopped s1),
           (t1 ++ Console (LogStreamError e) :: stop_events s1 ++
            [PostMessage (threadTs E) (errorTextOf e) (errorPost E)])%list)
  end.
Proof.
  intros Hpost Hts.
  destruct (consumeStream_quiet E ts Hpost Hts initialSess eq_refl) as [H1 H2].
  split; [exact H2|]. split; [exact H1|].
  pose proof (streamToSlack_run E initialSess) as Hrun.
  destruct (consumeStream E initialSess) as [[[[]|e] s1] t1];
    cbn [state_of fst snd] in H1; destruct Hrun as [k Hk]; exists k; rewrite Hk.
  - now rewrite retrySlackUpdate_alone_three.
  - unfold report_events. now rewrite H1.
Qed.

Lemma no_handle_no_render_witness :
  update_calls (trace_of (consumeStream (no_ts_env [tool_call "reverseText"]) initialSess)) = 0 /\
  present (messageTs (state_of
    (consumeStream (no_ts_env [tool_call "reverseText"]) initialSess))) = false /\
  match consumeStream (no_ts_env [tool_call "reverseText"]) initialSess with
  | (Normal _, s1, t1) =>
      exists k,
        streamToSlack (no_ts_env [tool_call "reverseText"]) initialSess
        = (Normal tt, later k (stopped s1),
           (t1 ++ stop_events s1 ++
            three_attempts (finalUpdate (no_ts_env [tool_call "reverseText"]))
              (messageTs s1) (finalText (state s1)) ++
            [Console LogResponseSent])%list)
  | (Throws e, s1, t1) =>
      exists k,
        streamToSlack (no_ts_env [tool_call "reverseText"]) initialSess
        = (Throws e, later k (stopped s1),
           (t1 ++ Console (LogStreamError e) :: stop_events s1 ++
            [PostMessage (threadTs (no_ts_env [tool_call "reverseText"])) (errorTextOf e)
               (errorPost (no_ts_env [tool_call "reverseText"]))])%list)
  end.
Proof.
  exact (no_handle_no_render (no_ts_env [tool_call "reverseText"]) None eq_refl eq_refl).
Defined.


Example no_handle_session :
  trace_of (streamToSlack (no_ts_env [tool_call "reverseText"]) initialSess)
  = [PostMessage "1700000000.000100" "⠋ Start..." None;
     SetInterval 300;
     Sleep 300;
     ClearInterval;
     ChatUpdate None "Sorry, I couldn't generate a response." None;
     Console LogResponseSent].
Proof. reflexivity. Qed.

(* ===================================================================== *)
(** * The nested-event unwrapper, workflow side                           *)
(* ===================================================================== *)

Lemma workflow_prefix_not_agent t :
  startsWith "workflow-execution-event-" t = true ->
  startsWith "agent-execution-event-" t = false.
Proof. intro H. destruct (startsWith_inv _ _ H) as [r ->]. reflexivity. Qed.

(** A chunk under the workflow prefix whose inner event is a step start sets
    the current kind to ["workflow-step-start"] and the step name from the
    inner [payload.id] alone: any string, the empty one included, goes
    through [formatName]; only an absent or null [id] gives ["Step"].  A
    [stepId] is not looked at, the accumulated text is not touched and no
    call is made. *)
Theorem nested_workflow_step (c : chunk) (inner : jsval) (st : StreamState) :
  startsWith "workflow-execution-event-" (type c) = true ->
  payload c = Some inner ->
  get "type" inner = JStr "workflow-step-start" ->
  (forall a, get "id" (get "payload" inner) = JStr a ->
     handleNestedChunkEvents c st
     = (Normal tt, set_stepName (formatName a) (set_chunkType "workflow-step-start" st), [])) /\
  (get "id" (get "payload" inner) = JUndefined \/ get "id" (get "payload" inner) = JNull ->
     handleNestedChunkEvents c st
     = (Normal tt, set_stepName "Step" (set_chunkType "workflow-step-start" st), [])).
Proof.
  intros Hty Hp Hin.
  destruct (get_string_object _ _ _ Hin) as [fields ->].
  assert (Hinner : inner_is "workflow-step-start" (JObj fields) = true).
  { unfold inner_is, has. simpl in Hin |- *.
    destruct (assoc "type" fields); [|discriminate]. subst j. reflexivity. }
  assert (Hrun : forall v name,
            nullish (get "id" (get "payload" (JObj fields))) (JStr "step") = JStr v ->
            formatName v = name ->
            handleNestedChunkEvents c st
            = (Normal tt, set_stepName name (set_chunkType "workflow-step-start" st), [])).
  { intros v name Hv Hname. unfold handleNestedChunkEvents.
    rewrite Hp, (workflow_prefix_not_agent _ Hty), Hty, Hinner.
    unfold opt_get. run_step. rewrite Hv. cbn [formatName_js]. run_step.
    now rewrite Hname. }
  split.
  - intros a Ha. apply (Hrun a); [now rewrite Ha | reflexivity].
  - intros [Hu|Hu]; apply (Hrun "step"); solve [now rewrite Hu | reflexivity].
Qed.

Lemma nested_workflow_step_witness :
  handleNestedChunkEvents (nested_step_start [("id", JStr ""); ("stepId", JStr "fetch")])
                          initialState
  = (Normal tt, set_stepName (formatName "") (set_chunkType "workflow-step-start" initialState),
     []) /\
  handleNestedChunkEvents (nested_step_start [("stepId", JStr "fetch")]) initialState
  = (Normal tt, set_stepName "Step" (set_chunkType "workflow-step-start" initialState), []).
Proof.
  split.
  - apply (proj1 (nested_workflow_step
                    (nested_step_start [("id", JStr ""); ("stepId", JStr "fetch")])
                    (step_start [("id", JStr ""); ("stepId", JStr "fetch")])
                    initialState eq_refl eq_refl eq_refl) "" eq_refl).
  - apply (proj2 (nested_workflow_step
                    (nested_step_start [("stepId", JStr "fetch")])
                    (step_start [("stepId", JStr "fetch")])
                    initialState eq_refl eq_refl eq_refl)).
    left. reflexivity.
Defined.

(* ===================================================================== *)
(** * The two hosts on top-level chunks                                   *)
(* ===================================================================== *)

Lemma render_pulse_run E delay s :
  exists s' t,
    (modify incr_frame ;; updateSlack E (await E) None ;; sleep E delay) s
    = (Normal tt, s', t) /\ state s' = state s.
Proof.
  set (m := modify incr_frame ;; updateSlack E (await E) None ;; sleep E delay).
  assert (R : returns m).
  { subst m. unfold updateSlack, sleep. repeat returns_step; apply await_returns. }
  exists (state_of (m s)), (trace_of (m s)). split.
  - apply returns_unit, R.
  - apply (render_pulse_same_state E delay s).
Qed.

Ltac run_all :=
  repeat (rewrite !run_bind;
          cbn [modify eval gets emit ret throw outcome_of state_of trace_of fst snd]).

(** On a chunk whose kind carries no nesting prefix the two hosts compute
    the same display state and complete the same way: the loop body of
    [streamToSlack], with its renders, pauses and timer callbacks, leaves
    the stream state that the loop body of [streamToTerminal] leaves. *)
Theorem hosts_agree_on_plain_chunks (E : env) (c : chunk) (s : sess) :
  startsWith "agent-execution-event-" (type c) = false ->
  startsWith "workflow-execution-event-" (type c) = false ->
  outcome_of (processChunk E c s) = outcome_of (terminalChunk c (state s)) /\
  state (state_of (processChunk E c s)) = state_of (terminalChunk c (state s)).
Proof.
  intros Ha Hw.
  assert (Hn : forall st, handleNestedChunkEvents c st = (Normal tt, st, [])).
  { intro st. unfold handleNestedChunkEvents. rewrite Ha, Hw. now destruct (payload c). }
  pose (pulse := fun delay =>
          modify incr_frame ;; updateSlack E (await E) None ;; sleep E delay).
  assert (Hpulse : forall delay s0, exists s' t,
            pulse delay s0 = (Normal tt, s', t) /\ state s' = state s0).
  { intros delay s0. apply render_pulse_run. }
  unfold processChunk, terminalChunk.
  fold (pulse TOOL_DISPLAY_DELAY). fold (pulse STEP_DISPLAY_DELAY).
  clearbody pulse.
  rewrite (run_bind (modify (with_state (set_chunkType (type c))))).
  rewrite (run_bind (modify (set_chunkType (type c)))).
  cbn [modify outcome_of state_of trace_of fst snd].
  rewrite (run_bind (handleNestedChunkEvents c)), Hn.
  cbn [outcome_of state_of trace_of fst snd].
  assert (Hs0 : state (with_state (set_chunkType (type c)) s)
                = set_chunkType (type c) (state s)) by reflexivity.
  revert Hs0. generalize (with_state (set_chunkType (type c)) s) as s0.
  generalize (set_chunkType (type c) (state s)) as st0.
  intros st0 s0 Hs0. subst st0.
  destruct (type c =? "text-delta").
  { destruct (prop "text" (payload_value c)) as [v|e]; run_all; [|now split].
    destruct (as_string v) as [t|]; [|now split].
    destruct (is_empty t); run_all; now split. }
  destruct (type c =? "tool-call").
  { destruct (prop "toolName" (payload_value c)) as [v|e]; run_all; [|now split].
    destruct (formatName_js v) as [name|e]; run_all; [|now split].
    destruct (Hpulse TOOL_DISPLAY_DELAY (with_state (set_toolName name) s0))
      as [s' [t [Hrun Hst]]].
    rewrite Hrun. cbn [outcome_of state_of trace_of fst snd]. now rewrite Hst. }
  destruct (type c =? "tool-output").
  { destruct (prop "output" (payload_value c)) as [output|e]; run_all; [|now split].
    destruct (truthy output && typeof_object output); [|now split].
    assert (H1 : exists s1,
              (match as_string (get "type" output) with
               | Some t => if is_empty t then ret tt
                           else modify (with_state (set_chunkType t))
               | None => ret tt
               end) s0 = (Normal tt, s1, []) /\
              (match as_string (get "type" output) with
               | Some t => if is_empty t then ret tt else modify (set_chunkType t)
               | None => ret tt
               end) (state s0) = (Normal tt, state s1, [])).
    { destruct (as_string (get "type" output)) as [t|]; [|now exists s0].
      destruct (is_empty t); [now exists s0|].
      now exists (with_state (set_chunkType t) s0). }
    destruct H1 as [s1 [H1 H2]].
    rewrite !run_bind, H1, H2. cbn [outcome_of state_of trace_of fst snd].
    destruct (is_string "workflow-step-start" (get "type" output)); [|now split].
    destruct (formatName_js _) as [name|e]; run_all; [|now split].
    destruct (Hpulse STEP_DISPLAY_DELAY (with_state (set_stepName name) s1))
      as [s' [t [Hrun Hst]]].
    rewrite Hrun. cbn [outcome_of state_of trace_of fst snd]. now rewrite Hst. }
  destruct (type c =? "workflow-execution-start").
  { destruct (prop "name" (payload_value c)) as [v|e]; run_all; [|now split].
    destruct (formatName_js _) as [name|e]; run_all; now split. }
  now split.
Qed.

Lemma hosts_agree_on_plain_chunks_witness :
  outcome_of (processChunk ticking_env (tool_call "reverseText") live_session)
  = outcome_of (terminalChunk (tool_call "reverseText") (state live_session)) /\
  state (state_of (processChunk ticking_env (tool_call "reverseText") live_session))
  = state_of (terminalChunk (tool_call "reverseText") (state live_session)).
Proof.
  apply (hosts_agree_on_plain_chunks ticking_env (tool_call "reverseText") live_session
           eq_refl eq_refl).
Defined.

(* ===================================================================== *)
(** * The terminal host                                                   *)
(* ===================================================================== *)

(** One top-level text increment: what is appended is what is written. *)
Lemma terminalChunk_text_delta_trace c t st :
  carries_text c t ->
  exists st',
    terminalChunk c st
    = (Normal tt, st', if non_empty t then [StdoutWrite t] else []) /\
    text st' = text st ++ t.
Proof.
  intros [Hty [p [Hp Hget]]].
  destruct (get_string_object _ _ _ Hget) as [fields ->].
  unfold terminalChunk, handleNestedChunkEvents, payload_value.
  rewrite Hty, Hp. simpl startsWith. simpl String.eqb. cbv iota.
  unfold prop. rewrite !run_bind. simpl.
  simpl in Hget. rewrite Hget. simpl as_string.
  destruct t as [|a t]; simpl.
  - eexists; split; [reflexivity|]. simpl. now rewrite append_empty_r.
  - eexists; split; [reflexivity|]. reflexivity.
Qed.

Lemma terminalLoop_text_deltas_trace cs texts fl st :
  Forall2 carries_text cs texts ->
  exists st',
    terminalLoop cs fl st
    = (match fl with Some e => Throws e | None => Normal tt end,
       st', map StdoutWrite (filter non_empty texts)) /\
    text st' = text st ++ String.concat "" texts.
Proof.
  intro H. revert st. induction H as [|c t cs texts Hc _ IH]; intro st.
  - exists st. simpl String.concat. rewrite append_empty_r. split; [|reflexivity].
    simpl. now destruct fl.
  - simpl terminalLoop. rewrite run_bind.
    destruct (terminalChunk_text_delta_trace c t st Hc) as [st1 [Hrun Ht1]].
    rewrite Hrun. destruct (IH st1) as [st2 [Hloop Ht2]]. rewrite Hloop.
    cbn [outcome_of state_of trace_of fst snd]. exists st2. split.
    + simpl filter. destruct (non_empty t); reflexivity.
    + rewrite Ht2, Ht1, append_assoc. f_equal.
      destruct texts as [|u us]; simpl; [now rewrite append_empty_r | reflexivity].
Qed.

(** A terminal session over top-level text increments writes to the
    standard output exactly the non-empty increments, in order and as they
    come, then one closing write: a line break when something other than
    white space was said, the no-response notice otherwise.  It ends with
    the concatenation of the increments as accumulated text. *)
Theorem terminal_echoes_increments (E : env) (cs : list chunk) (texts : list string) :
  getAgent E = Some (Normal (mkStream cs None)) ->
  Forall2 carries_text cs texts ->
  exists st',
    streamToTerminal E initialState
    = (Normal tt, st',
       (map StdoutWrite (filter non_empty texts) ++
        [StdoutWrite (if is_blank (String.concat "" texts)
                      then terminal_notice else newline)])%list) /\
    text st' = String.concat "" texts.
Proof.
  intros Hagent Hcs.
  destruct (terminalLoop_text_deltas_trace cs texts None initialState Hcs) as [st' [Hloop Ht]].
  simpl in Ht. exists st'. split; [|exact Ht].
  unfold streamToTerminal, try_catch. rewrite Hagent.
  do 2 run_step. cbn [chunks failure]. rewrite run_bind, Hloop.
  cbn [outcome_of state_of trace_of fst snd]. run_step. rewrite Ht.
  destruct (is_blank (String.concat "" texts)); reflexivity.
Qed.

Lemma terminal_echoes_increments_witness :
  exists st',
    streamToTerminal (sample_env (streaming [text_delta "Hel"; text_delta ""; text_delta "lo!"])
                                 always_ok (every_suspension 0)) initialState
    = (Normal tt, st',
       (map StdoutWrite (filter non_empty ["Hel"; ""; "lo!"]) ++
        [StdoutWrite (if is_blank (String.concat "" ["Hel"; ""; "lo!"])
                      then terminal_notice else newline)])%list) /\
    text st' = String.concat "" ["Hel"; ""; "lo!"].
Proof.
  apply terminal_echoes_increments with
    (cs := [text_delta "Hel"; text_delta ""; text_delta "lo!"]).
  - reflexivity.
  - repeat constructor; apply text_delta_carries.
Defined.

(** A terminal session that fails logs the failure once and throws it again
    unchanged, whether the agent is not registered, [agent.stream] rejects,
    or the stream breaks after some increments; what was already written
    stays written and no closing write is made. *)
Theorem terminal_failure_rethrown (E : env) (st : StreamState) :
  (getAgent E = None ->
   streamToTerminal E st
   = (Throws (ErrorObj ("Agent " ++ dquote ++ options_agentName E ++ dquote ++ " not found")),
      st,
      [Console (LogTerminalError
         (ErrorObj ("Agent " ++ dquote ++ options_agentName E ++ dquote ++ " not found")))])) /\
  (forall e, getAgent E = Some (Throws e) ->
   streamToTerminal E st = (Throws e, st, [Console (LogTerminalError e)])) /\
  (forall cs texts e,
   getAgent E = Some (Normal (mkStream cs (Some e))) ->
   Forall2 carries_text cs texts ->
   exists st',
     streamToTerminal E st
     = (Throws e, st',
        (map StdoutWrite (filter non_empty texts) ++ [Console (LogTerminalError e)])%list) /\
     text st' = text st ++ String.concat "" texts).
Proof.
  split; [|split].
  - intro H. unfold streamToTerminal, try_catch. rewrite H. reflexivity.
  - intros e H. unfold streamToTerminal, try_catch. rewrite H. reflexivity.
  - intros cs texts e H Hcs.
    destruct (terminalLoop_text_deltas_trace cs texts (Some e) st Hcs) as [st' [Hloop Ht]].
    exists st'. split; [|exact Ht].
    unfold streamToTerminal, try_catch. rewrite H.
    do 2 run_step. cbn [chunks failure]. rewrite run_bind, Hloop. reflexivity.
Qed.

Lemma terminal_failure_rethrown_witness :
  exists st',
    streamToTerminal (breaking_env [text_delta "Hel"] (Thrown "socket closed")) initialState
    = (Throws (Thrown "socket closed"), st',
       (map StdoutWrite (filter non_empty ["Hel"])
        ++ [Console (LogTerminalError (Thrown "socket closed"))])%list) /\
    text st' = text initialState ++ String.concat "" ["Hel"].
Proof.
  apply (proj2 (proj2 (terminal_failure_rethrown
                         (breaking_env [text_delta "Hel"] (Thrown "socket closed"))
                         initialState))
           [text_delta "Hel"] ["Hel"] (Thrown "socket closed") eq_refl).
  repeat constructor; apply text_delta_carries.
Defined.

Lemma terminalLoop_nested_texts cs texts st :
  Forall2 carries_nested_text cs texts ->
  exists st',
    terminalLoop cs None st = (Normal tt, st', []) /\
    text st' = text st ++ String.concat "" texts.
Proof.
  intro H. revert st. induction H as [|c t cs texts Hc _ IH]; intro st.
  - exists st. simpl String.concat. now rewrite append_empty_r.
  - simpl terminalLoop. rewrite run_bind.
    destruct (terminalChunk_nested_agent c t st Hc) as [st1 [Hrun Ht1]].
    rewrite Hrun. destruct (IH st1) as [st2 [Hloop Ht2]]. rewrite Hloop.
    cbn [outcome_of state_of trace_of fst snd app]. exists st2. split; [reflexivity|].
    rewrite Ht2, Ht1, append_assoc. f_equal.
    destruct texts as [|u us]; simpl; [now rewrite append_empty_r | reflexivity].
Qed.

(** Text that reaches a terminal session through nested agent events is
    accumulated but never written: the session writes nothing but its
    closing line, and that line is the plain line break as soon as the
    accumulated text is not blank, so that an answer given entirely through
    a sub-agent leaves the terminal empty without the no-response
    notice. *)
Theorem terminal_nested_text_is_silent (E : env) (cs : list chunk) (texts : list string) :
  getAgent E = Some (Normal (mkStream cs None)) ->
  Forall2 carries_nested_text cs texts ->
  exists st',
    streamToTerminal E initialState
    = (Normal tt, st',
       [StdoutWrite (if is_blank (String.concat "" texts)
                     then terminal_notice else newline)]) /\
    text st' = String.concat "" texts.
Proof.
  intros Hagent Hcs.
  destruct (terminalLoop_nested_texts cs texts initialState Hcs) as [st' [Hloop Ht]].
  simpl in Ht. exists st'. split; [|exact Ht].
  unfold streamToTerminal, try_catch. rewrite Hagent.
  do 2 run_step. cbn [chunks failure]. rewrite run_bind, Hloop.
  cbn [outcome_of state_of trace_of fst snd]. run_step. rewrite Ht.
  destruct (is_blank (String.concat "" texts)); reflexivity.
Qed.

Lemma terminal_nested_text_is_silent_witness :
  exists st',
    streamToTerminal (sample_env (streaming [nested_text_delta "hi"]) always_ok
                                 (every_suspension 0)) initialState
    = (Normal tt, st',
       [StdoutWrite (if is_blank (String.concat "" ["hi"])
                     then terminal_notice else newline)]) /\
    text st' = String.concat "" ["hi"].
Proof.
  apply terminal_nested_text_is_silent with (cs := [nested_text_delta "hi"]).
  - reflexivity.
  - repeat constructor; apply nested_text_delta_carries.
Defined.

(* ===================================================================== *)
(** * A rejected placeholder post                                         *)
(* ===================================================================== *)

(** When the placeholder post is rejected with [e], the session consists of
    exactly three calls: the rejected post of the first status line, the
    error log, and one new post carrying the error text, whose own fate is
    ignored.  No timer is started, the agent is never asked, no update is
    attempted, and [e] is thrown to the caller. *)
Theorem placeholder_rejected (E : env) (e : js_error) :
  initialPost E = Throws e ->
  streamToSlack E initialSess
  = (Throws e,
     mkSess initialState None 0 false true false 0 2,
     [PostMessage (threadTs E) "⠋ Start..." (Some e);
      Console (LogStreamError e);
      PostMessage (threadTs E) (errorTextOf e) (errorPost E)]).
Proof.
  intro H. unfold streamToSlack, streamBody, consumeStream, reportFailure, try_catch.
  rewrite H. cbn. destruct (errorPost E); reflexivity.
Qed.

Lemma placeholder_rejected_witness :
  streamToSlack (rejecting_env (ErrorObj "channel_not_found")) initialSess
  = (Throws (ErrorObj "channel_not_found"),
     mkSess initialState None 0 false true false 0 2,
     [PostMessage (threadTs (rejecting_env (ErrorObj "channel_not_found"))) "⠋ Start..."
        (Some (ErrorObj "channel_not_found"));
      Console (LogStreamError (ErrorObj "channel_not_found"));
      PostMessage (threadTs (rejecting_env (ErrorObj "channel_not_found")))
        (errorTextOf (ErrorObj "channel_not_found"))
        (errorPost (rejecting_env (ErrorObj "channel_not_found")))]).
Proof.
  apply (placeholder_rejected (rejecting_env (ErrorObj "channel_not_found"))
           (ErrorObj "channel_not_found") eq_refl).
Defined.

(* ===================================================================== *)
(** * The events route                                                    *)
(* ===================================================================== *)

Lemma given_some v s : given v = Some s -> v = Some s /\ s <> "".
Proof.
  destruct v as [x|]; [|discriminate]. simpl.
  destruct x; simpl; [discriminate|]. intro H. injection H as <-. now split.
Qed.

(** What a started session says about the event it was started for. *)
Lemma handleEvent_starts num config token payload o :
  In (Routes.StreamToSlack o) (snd (Routes.handleEvent num config token payload)) ->
  exists text,
    truthy (get "event" payload) = true /\
    truthy (or_else (get "bot_id" (get "event" payload))
                    (get "subtype" (get "event" payload))) = false /\
    is_string "app_mention" (get "type" (get "event" payload))
    || is_string "message" (get "type" (get "event" payload)) = true /\
    or_else (get "text" (get "event" payload)) (JStr "") = JStr text /\
    Routes.handleEvent num config token payload
    = (Normal Routes.ok_response,
       [Routes.ConsoleLine
          (Routes.LogMessageReceived (Routes.name config) (Routes.agentName config)
             (JStr text) (get "user" (get "event" payload)));
        Routes.StreamToSlack o]) /\
    o = Routes.mkOptions token (get "channel" (get "event" payload))
          (or_else (get "thread_ts" (get "event" payload)) (get "ts" (get "event" payload)))
          (Routes.agentName config) (trim (Routes.strip_mentions text))
          ("slack-" ++ Routes.to_text num (get "team_id" payload) ++ "-"
           ++ Routes.to_text num (get "user" (get "event" payload)))
          ("slack-" ++ Routes.to_text num (get "channel" (get "event" payload)) ++ "-"
           ++ Routes.to_text num
                (or_else (get "thread_ts" (get "event" payload))
                         (get "ts" (get "event" payload)))).
Proof.
  unfold Routes.handleEvent. cbv zeta.
  destruct (truthy (get "event" payload)); [|intros []].
  destruct (truthy (or_else _ _)); [intros []|].
  destruct (is_string "app_mention" _ || is_string "message" _); [|intros []].
  destruct (or_else (get "text" _) _) as [| |b|n|text|items|fields] eqn:Htext;
    simpl; try (intros [H|[]]; discriminate).
  intros [H|[H|[]]]; [discriminate|]. injection H as <-.
  exists text. repeat split; reflexivity.
Qed.

(** What a started session says about the request: it was read and parsed,
    it was no handshake, both secrets and both headers were there, the
    signature check passed, and the event branch ran to its end. *)
Lemma handler_starts parse mac now num config c o :
  starts (Routes.handler parse mac now num config c) o ->
  exists body payload token secret signature timestamp,
    Routes.req_text c = Normal body /\
    parse body = Normal payload /\
    is_string "url_verification" (get "type" payload) = false /\
    given (Routes.botToken config) = Some token /\
    given (Routes.signingSecret config) = Some secret /\
    given (Routes.req_header c "x-slack-signature") = Some signature /\
    given (Routes.req_header c "x-slack-request-timestamp") = Some timestamp /\
    Verify.verifySlackRequest mac now secret signature timestamp body = true /\
    In (Routes.StreamToSlack o) (snd (Routes.handleEvent num config token payload)) /\
    Routes.handler parse mac now num config c
    = (Routes.ok_response, snd (Routes.handleEvent num config token payload)).
Proof.
  unfold starts, Routes.handler, Routes.handle.
  destruct (Routes.req_text c) as [body|e] eqn:Hbody; [|simpl; intros [H|[]]; discriminate].
  destruct (parse body) as [payload|e] eqn:Hparse; [|simpl; intros [H|[]]; discriminate].
  destruct (prop "type" payload) as [type|e] eqn:Hprop;
    [|simpl; intros [H|[]]; discriminate].
  assert (Htype : type = get "type" payload).
  { destruct payload; simpl in Hprop; try discriminate; now injection Hprop as <-. }
  subst type.
  destruct (is_string "url_verification" _) eqn:Hurl; [simpl; intros [H|[]]; discriminate|].
  destruct (given (Routes.botToken config)) as [token|] eqn:Htoken;
    [|simpl; intros [H|[]]; discriminate].
  destruct (given (Routes.signingSecret config)) as [secret|] eqn:Hsecret;
    [|simpl; intros [H|[]]; discriminate].
  destruct (given (Routes.req_header c "x-slack-signature")) as [signature|] eqn:Hsig;
    [|intros []].
  destruct (given (Routes.req_header c "x-slack-request-timestamp"))
    as [timestamp|] eqn:Hts; [|intros []].
  cbv zeta.
  destruct (Verify.verifySlackRequest mac now secret signature timestamp body) eqn:Hvalid;
    [|simpl; intros [H|[]]; discriminate].
  cbn [negb]. intro Hin.
  exists body, payload, token, secret, signature, timestamp.
  assert (Hin' : In (Routes.StreamToSlack o)
                    (snd (Routes.handleEvent num config token payload))).
  { destruct (Routes.handleEvent num config token payload) as [[r|e] effs]; [exact Hin|].
    cbn [snd] in Hin |- *. apply in_app_or in Hin. destruct Hin as [H|[H|[]]];
      [exact H | discriminate]. }
  repeat split; try reflexivity; try assumption.
  destruct (handleEvent_starts _ _ _ _ _ Hin') as [text [_ [_ [_ [_ [Hrun _]]]]]].
  rewrite Hrun. reflexivity.
Qed.

Lemma truthy_or_else a b : truthy (or_else a b) = truthy a || truthy b.
Proof. unfold or_else. destruct (truthy a) eqn:H; [now rewrite H | reflexivity]. Qed.

Lemma verified_signature mac now secret signature timestamp body :
  Verify.verifySlackRequest mac now secret signature timestamp body = true ->
  Verify.number_lt (Verify.parseInt timestamp) (now / 1000 - 60 * 5)%Z = false /\
  signature = Verify.mySignature mac secret timestamp body.
Proof.
  unfold Verify.verifySlackRequest. cbv zeta.
  destruct (Verify.number_lt _ _); [discriminate|].
  intro H. split; [reflexivity|]. now apply signatures_equal_true.
Qed.

(** A session is started only for a request that carries, in its signature
    header, the keyed hash of its own timestamp and body under the
    application's signing secret, with a timestamp that is not stale; both
    secrets are then set and not empty, the session's client holds the bot
    token, and the request is answered 200 [{ ok: true }]. *)
Theorem session_requires_signed_request
    (parse : string -> outcome jsval) (mac : string -> string -> string) (now : Z)
    (num : Z -> string) (config : Routes.SlackAppConfig) (c : Routes.request)
    (o : Routes.StreamingOptions) :
  starts (Routes.handler parse mac now num config c) o ->
  exists body secret timestamp,
    Routes.req_text c = Normal body /\
    Routes.signingSecret config = Some secret /\ secret <> "" /\
    Routes.botToken config = Some (Routes.slackClient o) /\ Routes.slackClient o <> "" /\
    Routes.req_header c "x-slack-request-timestamp" = Some timestamp /\
    Routes.req_header c "x-slack-signature"
    = Some (Verify.mySignature mac secret timestamp body) /\
    Verify.number_lt (Verify.parseInt timestamp) (now / 1000 - 60 * 5)%Z = false /\
    fst (Routes.handler parse mac now num config c) = Routes.ok_response.
Proof.
  intro H.
  destruct (handler_starts _ _ _ _ _ _ _ H)
    as (body & payload & token & secret & signature & timestamp &
        Hbody & Hparse & Hurl & Htoken & Hsecret & Hsig & Hts & Hvalid & Hin & Hrun).
  destruct (handleEvent_starts _ _ _ _ _ Hin) as (text & _ & _ & _ & _ & _ & Ho).
  destruct (given_some _ _ Htoken) as [Htoken1 Htoken2].
  destruct (given_some _ _ Hsecret) as [Hsecret1 Hsecret2].
  destruct (given_some _ _ Hsig) as [Hsig1 _].
  destruct (given_some _ _ Hts) as [Hts1 _].
  destruct (verified_signature _ _ _ _ _ _ Hvalid) as [Hfresh Hmine].
  exists body, secret, timestamp. subst o signature. cbn [Routes.slackClient].
  rewrite Hrun. repeat split; assumption.
Qed.

Lemma session_requires_signed_request_witness :
  starts (sample_handler sample_config (signed_request "root_mention")) root_session /\
  exists body secret timestamp,
    Routes.req_text (signed_request "root_mention") = Normal body /\
    Routes.signingSecret sample_config = Some secret /\ secret <> "" /\
    Routes.botToken sample_config = Some (Routes.slackClient root_session) /\
    Routes.slackClient root_session <> "" /\
    Routes.req_header (signed_request "root_mention") "x-slack-request-timestamp"
    = Some timestamp /\
    Routes.req_header (signed_request "root_mention") "x-slack-signature"
    = Some (Verify.mySignature sample_mac secret timestamp body) /\
    Verify.number_lt (Verify.parseInt timestamp) (1700000000000 / 1000 - 60 * 5)%Z = false /\
    fst (sample_handler sample_config (signed_request "root_mention")) = Routes.ok_response.
Proof.
  split.
  - right; left; reflexivity.
  - apply (session_requires_signed_request sample_parse sample_mac 1700000000000%Z
             (fun _ => "0") sample_config (signed_request "root_mention") root_session).
    right; left; reflexivity.
Defined.

(** An event that carries a truthy [bot_id] or [subtype] (the bot's own
    messages, edits, deletions, joins) never starts a session, whatever its
    kind, its text and the rest of the request. *)
Theorem bot_and_subtype_events_start_nothing
    (parse : string -> outcome jsval) (mac : string -> string -> string) (now : Z)
    (num : Z -> string) (config : Routes.SlackAppConfig) (c : Routes.request)
    (body : string) (payload : jsval) :
  Routes.req_text c = Normal body ->
  parse body = Normal payload ->
  truthy (get "bot_id" (get "event" payload)) = true \/
  truthy (get "subtype" (get "event" payload)) = true ->
  forall o, ~ starts (Routes.handler parse mac now num config c) o.
Proof.
  intros Hbody Hparse Hown o H.
  destruct (handler_starts _ _ _ _ _ _ _ H)
    as (body' & payload' & token & secret & signature & timestamp &
        Hbody' & Hparse' & _ & _ & _ & _ & _ & _ & Hin & _).
  rewrite Hbody in Hbody'. injection Hbody' as <-.
  rewrite Hparse in Hparse'. injection Hparse' as <-.
  destruct (handleEvent_starts _ _ _ _ _ Hin) as (text & _ & Hnot & _).
  rewrite truthy_or_else in Hnot. apply orb_false_iff in Hnot.
  destruct Hnot as [H1 H2]. destruct Hown as [Hown|Hown]; congruence.
Qed.

Lemma bot_and_subtype_events_start_nothing_witness :
  truthy (get "bot_id" (get "event" bot_message)) = true /\
  ~ starts (sample_handler sample_config (signed_request "bot_message")) root_session.
Proof.
  split; [reflexivity|].
  apply (bot_and_subtype_events_start_nothing sample_parse sample_mac 1700000000000%Z
           (fun _ => "0") sample_config (signed_request "bot_message")
           "bot_message" bot_message eq_refl eq_refl (or_introl eq_refl) root_session).
Defined.

(** Memory follows the Slack thread.  When a message at the top of a
    channel and a later message in the thread under it both start a
    session, the two sessions answer into the same thread and carry the
    same [threadId], whatever the reply's own [ts] is. *)
Theorem thread_replies_share_thread_id
    (parse : string -> outcome jsval) (mac : string -> string -> string) (now : Z)
    (num : Z -> string) (config : Routes.SlackAppConfig)
    (c1 c2 : Routes.request) (body1 body2 : string) (payload1 payload2 : jsval)
    (o1 o2 : Routes.StreamingOptions) (ts : string) :
  Routes.req_text c1 = Normal body1 -> parse body1 = Normal payload1 ->
  Routes.req_text c2 = Normal body2 -> parse body2 = Normal payload2 ->
  starts (Routes.handler parse mac now num config c1) o1 ->
  starts (Routes.handler parse mac now num config c2) o2 ->
  truthy (get "thread_ts" (get "event" payload1)) = false ->
  get "ts" (get "event" payload1) = JStr ts ->
  get "thread_ts" (get "event" payload2) = JStr ts ->
  ts <> "" ->
  get "channel" (get "event" payload1) = get "channel" (get "event" payload2) ->
  Routes.threadTs o1 = JStr ts /\ Routes.threadTs o2 = JStr ts /\
  Routes.threadId o1 = Routes.threadId o2.
Proof.
  intros Hb1 Hp1 Hb2 Hp2 H1 H2 Hroot Hts Hreply Hne Hchan.
  destruct (handler_starts _ _ _ _ _ _ _ H1)
    as (b1 & p1 & t1 & ? & ? & ? & Hb1' & Hp1' & _ & _ & _ & _ & _ & _ & Hin1 & _).
  destruct (handler_starts _ _ _ _ _ _ _ H2)
    as (b2 & p2 & t2 & ? & ? & ? & Hb2' & Hp2' & _ & _ & _ & _ & _ & _ & Hin2 & _).
  rewrite Hb1 in Hb1'. injection Hb1' as <-. rewrite Hp1 in Hp1'. injection Hp1' as <-.
  rewrite Hb2 in Hb2'. injection Hb2' as <-. rewrite Hp2 in Hp2'. injection Hp2' as <-.
  destruct (handleEvent_starts _ _ _ _ _ Hin1) as (? & _ & _ & _ & _ & _ & ->).
  destruct (handleEvent_starts _ _ _ _ _ Hin2) as (? & _ & _ & _ & _ & _ & ->).
  cbn [Routes.threadTs Routes.threadId].
  assert (E1 : or_else (get "thread_ts" (get "event" payload1))
                       (get "ts" (get "event" payload1)) = JStr ts).
  { unfold or_else. now rewrite Hroot. }
  assert (E2 : or_else (get "thread_ts" (get "event" payload2))
                       (get "ts" (get "event" payload2)) = JStr ts).
  { unfold or_else. rewrite Hreply. simpl. destruct ts; [contradiction|reflexivity]. }
  rewrite E1, E2, Hchan. repeat split.
Qed.

Lemma thread_replies_share_thread_id_witness :
  starts (sample_handler sample_config (signed_request "root_mention")) root_session /\
  starts (sample_handler sample_config (signed_request "thread_reply")) reply_session /\
  Routes.threadTs root_session = JStr "1700000000.000100" /\
  Routes.threadTs reply_session = JStr "1700000000.000100" /\
  Routes.threadId root_session = Routes.threadId reply_session.
Proof.
  split; [right; left; reflexivity|]. split; [right; left; reflexivity|].
  apply (thread_replies_share_thread_id sample_parse sample_mac 1700000000000%Z
           (fun _ => "0") sample_config
           (signed_request "root_mention") (signed_request "thread_reply")
           "root_mention" "thread_reply" root_mention thread_reply
           root_session reply_session "1700000000.000100"
           eq_refl eq_refl eq_refl eq_refl).
  - right; left; reflexivity.
  - right; left; reflexivity.
  - reflexivity.
  - reflexivity.
  - reflexivity.
  - discriminate.
  - reflexivity.
Defined.

(** The registration handshake is answered before anything is checked: a
    body whose [type] is ["url_verification"] gets its [challenge] back
    with status 200, whether or not the secrets are set, the signature
    headers are there, or the signature is right. *)
Theorem handshake_answered_before_any_check
    (parse : string -> outcome jsval) (mac : string -> string -> string) (now : Z)
    (num : Z -> string) (config : Routes.SlackAppConfig) (c : Routes.request)
    (body : string) (payload : jsval) :
  Routes.req_text c = Normal body ->
  parse body = Normal payload ->
  get "type" payload = JStr "url_verification" ->
  Routes.handler parse mac now num config c
  = (Routes.mkResponse 200 (JObj [("challenge", get "challenge" payload)]),
     [Routes.ConsoleLine (Routes.LogUrlVerification (Routes.name config))]).
Proof.
  intros Hbody Hparse Htype. unfold Routes.handler, Routes.handle.
  rewrite Hbody, Hparse.
  destruct (get_string_object _ _ _ Htype) as [fields ->].
  unfold prop. rewrite Htype. reflexivity.
Qed.

Lemma handshake_answered_before_any_check_witness :
  sample_handler bare_config (Routes.mkRequest (Normal "handshake") no_headers)
  = (Routes.mkResponse 200 (JObj [("challenge", get "challenge" handshake)]),
     [Routes.ConsoleLine (Routes.LogUrlVerification (Routes.name bare_config))]).
Proof.
  apply (handshake_answered_before_any_check sample_parse sample_mac 1700000000000%Z
           (fun _ => "0") bare_config (Routes.mkRequest (Normal "handshake") no_headers)
           "handshake" handshake eq_refl eq_refl eq_refl).
Defined.

(* ===================================================================== *)
(** * Mentions                                                            *)
(* ===================================================================== *)

Lemma after_id_shorter s : forall seen r,
  Routes.after_id seen s = Some r -> String.length r < String.length s.
Proof.
  induction s as [|a s IH]; intros seen r; simpl; [discriminate|].
  destruct (Routes.is_id_char a).
  - intro H. apply IH in H. lia.
  - destruct (seen && Ascii.eqb a ">"); [|discriminate].
    intro H. injection H as <-. lia.
Qed.

Lemma after_mention_shorter s r :
  Routes.after_mention s = Some r -> String.length r < String.length s.
Proof.
  unfold Routes.after_mention.
  destruct s as [|a [|b s]]; try discriminate.
  - destruct a as [[] [] [] [] [] [] [] []]; discriminate.
  - intro H.
    assert (H' : Routes.after_id false s = Some r).
    { destruct a as [[] [] [] [] [] [] [] []]; try discriminate;
      destruct b as [[] [] [] [] [] [] [] []]; try discriminate; exact H. }
    apply after_id_shorter in H'. simpl. lia.
Qed.

(** The scan does not depend on the fuel once there is enough of it. *)
Lemma replace_mentions_enough f1 : forall f2 s,
  String.length s <= f1 -> String.length s <= f2 ->
  Routes.replace_mentions f1 s = Routes.replace_mentions f2 s.
Proof.
  induction f1 as [|f1 IH]; intros f2 s H1 H2.
  - destruct s; [|simpl in H1; lia]. destruct f2; reflexivity.
  - destruct f2 as [|f2].
    + destruct s; [reflexivity | simpl in H2; lia].
    + simpl. destruct (Routes.after_mention s) as [r|] eqn:Hm.
      * apply after_mention_shorter in Hm. apply IH; lia.
      * destruct s as [|a s]; [reflexivity|]. simpl in H1, H2. f_equal. apply IH; lia.
Qed.

Lemma strip_mentions_step_keep a s :
  Routes.after_mention (String a s) = None ->
  Routes.strip_mentions (String a s) = String a (Routes.strip_mentions s).
Proof.
  intro H. unfold Routes.strip_mentions. simpl String.length.
  cbn [Routes.replace_mentions]. now rewrite H.
Qed.

Lemma strip_mentions_step_drop s r :
  Routes.after_mention s = Some r ->
  Routes.strip_mentions s = Routes.strip_mentions r.
Proof.
  intro H. unfold Routes.strip_mentions.
  pose proof (after_mention_shorter _ _ H) as Hlen.
  destruct (String.length s) as [|n] eqn:Hn; [lia|].
  cbn [Routes.replace_mentions]. rewrite H. apply replace_mentions_enough; lia.
Qed.

Lemma after_mention_not_open a s :
  not_open a = true -> Routes.after_mention (String a s) = None.
Proof.
  unfold not_open, Routes.after_mention.
  destruct a as [[] [] [] [] [] [] [] []]; try discriminate; reflexivity.
Qed.

Lemma strip_mentions_prefix pre s :
  every_char not_open pre = true ->
  Routes.strip_mentions (pre ++ s) = pre ++ Routes.strip_mentions s.
Proof.
  induction pre as [|a pre IH]; intro H; [reflexivity|].
  simpl in H. apply andb_true_iff in H. destruct H as [Ha Hpre].
  simpl. rewrite strip_mentions_step_keep by now apply after_mention_not_open.
  now rewrite IH.
Qed.

Lemma after_id_run id post : forall seen,
  every_char Routes.is_id_char id = true ->
  seen = true \/ id <> "" ->
  Routes.after_id seen (id ++ ">" ++ post) = Some post.
Proof.
  induction id as [|a id IH]; intros seen Hid Hseen.
  - destruct Hseen as [->|H]; [reflexivity | contradiction].
  - simpl in Hid. apply andb_true_iff in Hid. destruct Hid as [Ha Hid].
    simpl. rewrite Ha. apply IH; [exact Hid | now left].
Qed.

(** Stripping the mentions leaves a text without [<] as it is, and removes
    a mention ([<@], one or more capitals or digits, [>]) that follows such
    a text, going on behind it: what stood around the mention is kept, one
    space on each side included. *)
Theorem mention_removed (pre id post : string) :
  every_char not_open pre = true ->
  Routes.strip_mentions pre = pre /\
  (id <> "" -> every_char Routes.is_id_char id = true ->
   Routes.strip_mentions (pre ++ "<@" ++ id ++ ">" ++ post)
   = pre ++ Routes.strip_mentions post).
Proof.
  intro Hpre. split.
  - pose proof (strip_mentions_prefix pre "" Hpre) as H.
    now rewrite !append_empty_r in H.
  - intros Hne Hid. rewrite strip_mentions_prefix by exact Hpre. f_equal.
    apply strip_mentions_step_drop. simpl. now apply after_id_run; [|right].
Qed.

Lemma mention_removed_witness :
  Routes.strip_mentions "hey " = "hey " /\
  Routes.strip_mentions ("hey " ++ "<@" ++ "U0BOT" ++ ">" ++ " what is new?")
  = "hey " ++ Routes.strip_mentions " what is new?".
Proof.
  split.
  - apply (proj1 (mention_removed "hey " "U0BOT" " what is new?" eq_refl)).
  - apply (proj2 (mention_removed "hey " "U0BOT" " what is new?" eq_refl));
      [discriminate | reflexivity].
Defined.

(** What the scan produced is not scanned again, and an identifier in
    small letters is no mention. *)
Example mention_scan_is_single_pass :
  Routes.strip_mentions "<@<@U1>U2> <@u3>" = "<@U2> <@u3>".
Proof. reflexivity. Qed.

(* ===================================================================== *)
(** * The terminal program                                                *)
(* ===================================================================== *)

(** [streamToTerminal] throws only through its [catch]: the last thing it
    did is the error line. *)
Lemma streamToTerminal_throws E st e :
  outcome_of (streamToTerminal E st) = Throws e ->
  exists t, trace_of (streamToTerminal E st) = (t ++ [Console (LogTerminalError e)])%list.
Proof.
  unfold streamToTerminal, try_catch.
  match goal with |- context [match ?b st with _ => _ end] => destruct (b st) as [[[a|e'] s1] t1] end.
  - discriminate.
  - cbn. intro H. injection H as ->. now exists t1.
Qed.


Lemma selectAgent_logs answer e :
  In e (snd (Cli.selectAgent answer)) ->
  e = Cli.ConsoleOut (Cli.LineInvalidSelection (Some "lucie")).
Proof.
  unfold Cli.selectAgent. cbv zeta.
  match goal with |- context [if ?b then _ else _] => destruct b end; [intros []|].
  destruct (given _); [intros []|]. intros [H|[]]. now subst e.
Qed.


Lemma given_none_or v : given v = None \/ exists s, given v = Some s /\ v = Some s /\ s <> "".
Proof.
  destruct (given v) as [s|] eqn:H; [right | now left].
  exists s. destruct (given_some _ _ H). now repeat split.
Qed.


Lemma getMessage_some answer m :
  Cli.getMessage answer = Some m ->
  m = trim answer /\ m <> "" /\ given (Cli.getMessage answer) = Some m.
Proof.
  intro H. pose proof H as H'. unfold Cli.getMessage in H'. cbv zeta in H'.
  destruct (is_empty (trim answer)) eqn:He; [discriminate|]. simpl in H'.
  destruct (_ || _) in H'; [discriminate|]. injection H' as <-.
  rewrite H. simpl. rewrite He. repeat split. intro Heq. now rewrite Heq in He.
Qed.

(** The thread a conversation works in: the one it was given, unless its
    first message is still to come. *)
Lemma conversation_sessions mastra now num a r : forall answers th k o t,
  k = 0 \/ th = "terminal-" ++ num (now 2) ->
  In (Cli.Streamed o t) (Cli.conversation mastra now num a r th k answers) ->
  Cli.agentName o = a /\ Cli.resourceId o = r /\
  Cli.threadId o = "terminal-" ++ num (now 2) /\ Cli.message o <> "".
Proof.
  induction answers as [|answer answers IH]; intros th k o t Hth; cbn [Cli.conversation].
  - intros [H|[]]. discriminate.
  - intros [H|H]; [discriminate|].
    destruct (given (Cli.getMessage answer)) as [m|] eqn:Hm.
    + apply given_some in Hm. destruct Hm as [_ Hm]. cbv zeta in H.
      assert (Hth' : (if (k =? 0)%nat then "terminal-" ++ num (now 2) else th)
                     = "terminal-" ++ num (now 2)).
      { destruct Hth as [->| ->]; [reflexivity|]. now destruct (k =? 0)%nat. }
      rewrite Hth' in H. destruct H as [H|H].
      * injection H as <- _. now repeat split.
      * apply in_app_or in H. destruct H as [H|H].
        -- destruct (outcome_of _); [destruct H | destruct H as [H|[]]; discriminate].
        -- apply (IH _ _ _ _ (or_intror eq_refl) H).
    + destruct H as [H|[H|[H|[]]]]; discriminate.
Qed.

(** All the sessions of one run of the program work for an available agent
    under one resource id and one thread id, the one made when the first
    message is sent (the id made before the loop is never used), and none
    is started for an empty message. *)
Theorem sessions_share_one_thread
    (mastra : nat -> Cli.TerminalStreamingOptions -> option (outcome agent_stream))
    (pid : Z) (now : nat -> Z) (num : Z -> string) (argv answers : list string)
    (o : Cli.TerminalStreamingOptions) (t : trace) :
  In (Cli.Streamed o t) (Cli.main mastra pid now num argv answers) ->
  In (Cli.agentName o) Cli.availableAgents /\
  Cli.resourceId o = "terminal-" ++ num pid ++ "-" ++ num (now 0) /\
  Cli.threadId o = "terminal-" ++ num (now 2) /\
  Cli.message o <> "".
Proof.
  assert (Hconverse : forall agent rest,
            In (Cli.Streamed o t) (Cli.converse mastra pid now num agent rest) ->
            In (Cli.agentName o) Cli.availableAgents /\
            Cli.resourceId o = "terminal-" ++ num pid ++ "-" ++ num (now 0) /\
            Cli.threadId o = "terminal-" ++ num (now 2) /\
            Cli.message o <> "").
  { intros agent rest H. unfold Cli.converse in H.
    destruct agent as [a|]; [|destruct H as [H|[H|[]]]; discriminate].
    destruct (existsb (String.eqb a) Cli.availableAgents) eqn:Ha;
      [|destruct H as [H|[H|[]]]; discriminate].
    destruct H as [H|[H|H]]; try discriminate.
    apply conversation_sessions in H; [|now left].
    destruct H as (Hn & Hr & Ht & Hm). rewrite Hn. repeat split; try assumption.
    apply existsb_exists in Ha. destruct Ha as [x [Hx Heq]].
    apply String.eqb_eq in Heq. now subst x. }
  unfold Cli.main. destruct (given (Cli.agentArg argv)) as [a|]; [apply Hconverse|].
  intro H. apply in_app_or in H. destruct H as [H|H].
  - simpl in H. destruct H as [H|[H|[H|[]]]]; discriminate.
  - destruct H as [H|H]; [discriminate|].
    destruct answers as [|answer rest]; [destruct H|].
    apply in_app_or in H. destruct H as [H|H].
    + apply selectAgent_logs in H. discriminate.
    + exact (Hconverse _ _ H).
Qed.

Lemma sessions_share_one_thread_witness :
  In (Cli.Streamed (Cli.mkOptions "lucie" "and then?" "terminal-0-0" "terminal-1700000002000")
                   [StdoutWrite "Hi!"; StdoutWrite newline])
     (sample_main polite_mastra ["--agent"; "lucie"] ["hello"; " and then? "; "exit"]) /\
  In (Cli.agentName (Cli.mkOptions "lucie" "and then?" "terminal-0-0" "terminal-1700000002000"))
     Cli.availableAgents /\
  Cli.resourceId (Cli.mkOptions "lucie" "and then?" "terminal-0-0" "terminal-1700000002000")
  = "terminal-" ++ sample_number 1 ++ "-" ++ sample_number (sample_clock 0) /\
  Cli.threadId (Cli.mkOptions "lucie" "and then?" "terminal-0-0" "terminal-1700000002000")
  = "terminal-" ++ sample_number (sample_clock 2) /\
  Cli.message (Cli.mkOptions "lucie" "and then?" "terminal-0-0" "terminal-1700000002000") <> "".
Proof.
  split.
  - do 5 right. left. reflexivity.
  - apply (sessions_share_one_thread polite_mastra 1%Z sample_clock sample_number
             ["--agent"; "lucie"] ["hello"; " and then? "; "exit"]
             (Cli.mkOptions "lucie" "and then?" "terminal-0-0" "terminal-1700000002000")
             [StdoutWrite "Hi!"; StdoutWrite newline]).
    do 5 right. left. reflexivity.
Defined.

(** A session that fails does not end the conversation: its error is
    written once by the session and once more by the loop, and the next
    question is asked in the same thread. *)
Theorem failed_turn_reported_and_conversation_goes_on
    (mastra : nat -> Cli.TerminalStreamingOptions -> option (outcome agent_stream))
    (now : nat -> Z) (num : Z -> string) (a r th : string) (k : nat)
    (answer : string) (rest : list string) (m : string) (e : js_error) :
  Cli.getMessage answer = Some m ->
  outcome_of (streamToTerminal
                (Cli.session_env mastra (S k)
                   (Cli.mkOptions a m r
                      (if (k =? 0)%nat then "terminal-" ++ num (now 2) else th)))
                initialState) = Throws e ->
  exists t,
    Cli.conversation mastra now num a r th k (answer :: rest)
    = Cli.Question (newline ++ "💬 [" ++ a ++ "] You: ")
      :: Cli.Streamed
           (Cli.mkOptions a m r (if (k =? 0)%nat then "terminal-" ++ num (now 2) else th))
           (t ++ [Console (LogTerminalError e)])%list
      :: Cli.ConsoleOut (Cli.LineError e)
      :: Cli.conversation mastra now num a r
           (if (k =? 0)%nat then "terminal-" ++ num (now 2) else th) (S k) rest.
Proof.
  intros Hm Hthrows.
  destruct (getMessage_some _ _ Hm) as (_ & _ & Hgiven).
  destruct (streamToTerminal_throws _ _ _ Hthrows) as [t Ht].
  exists t. cbn [Cli.conversation]. rewrite Hgiven. cbv zeta.
  rewrite Hthrows, Ht. reflexivity.
Qed.

Lemma failed_turn_reported_and_conversation_goes_on_witness :
  exists t,
    Cli.conversation moody_mastra sample_clock sample_number "lucie" "terminal-0-0" "terminal-0" 0
      ("hello" :: ["again"; "quit"])
    = Cli.Question (newline ++ "💬 [" ++ "lucie" ++ "] You: ")
      :: Cli.Streamed
           (Cli.mkOptions "lucie" "hello" "terminal-0-0"
              (if (0 =? 0)%nat then "terminal-" ++ sample_number (sample_clock 2)
               else "terminal-0"))
           (t ++ [Console (LogTerminalError (ErrorObj "overloaded"))])%list
      :: Cli.ConsoleOut (Cli.LineError (ErrorObj "overloaded"))
      :: Cli.conversation moody_mastra sample_clock sample_number "lucie" "terminal-0-0"
           (if (0 =? 0)%nat then "terminal-" ++ sample_number (sample_clock 2)
            else "terminal-0") 1 ["again"; "quit"].
Proof.
  apply (failed_turn_reported_and_conversation_goes_on moody_mastra sample_clock
           sample_number "lucie" "terminal-0-0" "terminal-0" 0 "hello" ["again"; "quit"]
           "hello" (ErrorObj "overloaded") eq_refl eq_refl).
Defined.


